(** * multireql: the ReQL snippet transpiler, embedded and verified

    A shallow embedding of [conversion_utils.py], [java_converter.py] and
    [ruby_converter.py].  Python's in-place effects are made explicit:
    the [is_reql] attribute the analyzer sets on a node is a field of the
    node ([None] while the attribute is absent), the emitters' [StringIO]
    buffer is threaded as state, and a raised exception is an [inl] result
    carrying its class and message. *)

From Stdlib Require Import ZArith String Ascii List DecimalString Lia Bool.
From Stdlib.Strings Require Import Byte.
From stdpp Require Import base gmap strings list.

#[local] Set Warnings "-register-all".

Local Open Scope string_scope.
Local Open Scope Z_scope.

(** ** Python values and primitives *)

Module py.

(** The exception classes the sources raise or provoke.  [Exception_] is
    Python's [Exception] itself; every other class is a subclass of it. *)
Inductive exn_class : Type :=
| Exception_
| RuntimeError
| AttributeError
| TypeError
| KeyError
| IndexError
| AssertionError.

Definition exn_class_eqb (a b : exn_class) : bool :=
  match a, b with
  | Exception_, Exception_ | RuntimeError, RuntimeError
  | AttributeError, AttributeError | TypeError, TypeError
  | KeyError, KeyError | IndexError, IndexError
  | AssertionError, AssertionError => true
  | _, _ => false
  end.

(** A raised exception: its class and its message.  For exceptions raised
    by the interpreter itself (a missing attribute, key or index) the
    message is the name of what was missing. *)
Record exn : Type := Raise { exn_kind : exn_class; exn_msg : string }.

Definition result (A : Type) : Type := (exn + A)%type.

Definition ok {A} (a : A) : result A := inr a.
Definition raise {A} (k : exn_class) (msg : string) : result A :=
  inl (Raise k msg).

Definition rbind {A B} (m : result A) (f : A -> result B) : result B :=
  match m with
  | inl e => inl e
  | inr a => f a
  end.

Definition mapM {A B} (f : A -> result B) : list A -> result (list B) :=
  fix go (l : list A) : result (list B) :=
    match l with
    | [] => ok []
    | a :: l' => rbind (f a) (fun b => rbind (go l') (fun bs => ok (b :: bs)))
    end.

(** The double quote, which a string literal of this file cannot hold. *)
Definition dq : string := String (ascii_of_nat 34) EmptyString.

(** *** Characters: Python's case mapping, on the ASCII range only.  A
    [string] is a sequence of bytes, and a byte above 127 belongs to the
    UTF-8 encoding of a character that is not ASCII, whose case Python maps
    by the Unicode tables ([str.upper] turns U+00E9 into U+00C9, and the
    sharp s into two letters).  These functions leave such a byte as it is,
    which is not what Python does: they are [str.upper], [str.lower],
    [str.isupper] and the like on ASCII text and on nothing else, and the
    general statements about the case converters assume [spec.all_ascii]. *)

Definition code (c : ascii) : N := N_of_ascii c.

Definition isupper (c : ascii) : bool := ((65 <=? code c) && (code c <=? 90))%N.
Definition islower (c : ascii) : bool := ((97 <=? code c) && (code c <=? 122))%N.
Definition isdigit (c : ascii) : bool := ((48 <=? code c) && (code c <=? 57))%N.
Definition iscased (c : ascii) : bool := isupper c || islower c.

Definition upper_char (c : ascii) : ascii :=
  if islower c then ascii_of_N (code c - 32) else c.
Definition lower_char (c : ascii) : ascii :=
  if isupper c then ascii_of_N (code c + 32) else c.

Fixpoint str_map (f : ascii -> ascii) (s : string) : string :=
  match s with
  | EmptyString => EmptyString
  | String c s' => String (f c) (str_map f s')
  end.

(** [str.upper] and [str.lower]. *)
Definition upper : string -> string := str_map upper_char.
Definition lower : string -> string := str_map lower_char.

(** [str.title]: a cased character is upper-cased when the character before
    it is not cased, and lower-cased otherwise. *)
Fixpoint title_from (previous_is_cased : bool) (s : string) : string :=
  match s with
  | EmptyString => EmptyString
  | String c s' =>
      String (if previous_is_cased then lower_char c else upper_char c)
             (title_from (iscased c) s')
  end.

Definition title : string -> string := title_from false.

(** [str.split(sep)] for a one-character separator. *)
Fixpoint split (sep : ascii) (s : string) : list string :=
  match s with
  | EmptyString => [EmptyString]
  | String c s' =>
      if Ascii.eqb c sep then EmptyString :: split sep s'
      else match split sep s' with
           | chunk :: chunks => String c chunk :: chunks
           | [] => [String c EmptyString]
           end
  end.

(** [''.join(chunks)]. *)
Definition join_str (chunks : list string) : string :=
  fold_right String.append EmptyString chunks.

(** [s.endswith(p)] and [s.startswith(p)]. *)
Definition endswith (p s : string) : bool :=
  (String.length p <=? String.length s)%nat &&
  String.eqb (String.substring (String.length s - String.length p)
                               (String.length p) s) p.

Definition startswith (p s : string) : bool := String.prefix p s.

(** [c in s]. *)
Fixpoint contains (c : ascii) (s : string) : bool :=
  match s with
  | EmptyString => false
  | String d s' => Ascii.eqb d c || contains c s'
  end.

(** [s[0]] and [s[1:]]; indexing the empty string raises. *)
Definition head_char (s : string) : result ascii :=
  match s with
  | EmptyString => raise IndexError "string index out of range"
  | String c _ => ok c
  end.

Definition tail_str (s : string) : string :=
  match s with
  | EmptyString => EmptyString
  | String _ s' => s'
  end.

(** [repr] and [str] of an [int]. *)
Definition repr_int (z : Z) : string := NilZero.string_of_int (Z.to_int z).

End py.

Declare Scope result_scope.
Delimit Scope result_scope with result.
Notation "x <- m ;; k" := (py.rbind m (fun x => k))
  (at level 100, m at next level, right associativity) : result_scope.

(** ** Regular expressions, as [re.match] reads them *)

Module re.

Inductive regex : Type :=
| Empty                                (* matches nothing *)
| Eps                                  (* the empty string *)
| Chr (p : ascii -> bool)              (* one character of a class *)
| Seq (r1 r2 : regex)
| Alt (r1 r2 : regex)
| Star (r : regex).

Fixpoint nullable (r : regex) : bool :=
  match r with
  | Empty => false
  | Eps => true
  | Chr _ => false
  | Seq r1 r2 => nullable r1 && nullable r2
  | Alt r1 r2 => nullable r1 || nullable r2
  | Star _ => true
  end.

Definition seq (r1 r2 : regex) : regex :=
  match r1, r2 with
  | Empty, _ => Empty
  | _, Empty => Empty
  | Eps, _ => r2
  | _, _ => Seq r1 r2
  end.

Definition alt (r1 r2 : regex) : regex :=
  match r1, r2 with
  | Empty, _ => r2
  | _, Empty => r1
  | _, _ => Alt r1 r2
  end.

(** The derivative of [r] by the character [c]. *)
Fixpoint deriv (c : ascii) (r : regex) : regex :=
  match r with
  | Empty => Empty
  | Eps => Empty
  | Chr p => if p c then Eps else Empty
  | Seq r1 r2 =>
      alt (seq (deriv c r1) r2) (if nullable r1 then deriv c r2 else Empty)
  | Alt r1 r2 => alt (deriv c r1) (deriv c r2)
  | Star r1 => seq (deriv c r1) (Star r1)
  end.

(** The whole of [s] is a word of [r]. *)
Fixpoint fullmatch (r : regex) (s : string) : bool :=
  match s with
  | EmptyString => nullable r
  | String c s' => fullmatch (deriv c r) s'
  end.

(** [re.match(r, s)]: some prefix of [s] is a word of [r]. *)
Fixpoint match_ (r : regex) (s : string) : bool :=
  nullable r ||
  match s with
  | EmptyString => false
  | String c s' => match_ (deriv c r) s'
  end.

(** [s] without its last character, when that is a newline. *)
Fixpoint chop_newline (s : string) : option string :=
  match s with
  | EmptyString => None
  | String c EmptyString => if Ascii.eqb c "010" then Some EmptyString else None
  | String c s' => option_map (String c) (chop_newline s')
  end.

(** [re.match(r + '$', s)]: without [re.MULTILINE], [$] holds at the end of
    the string and just before a newline that ends the string. *)
Definition match_dollar (r : regex) (s : string) : bool :=
  fullmatch r s ||
  match chop_newline s with
  | Some s' => fullmatch r s'
  | None => false
  end.

(** Building blocks. *)
Definition lit (c : ascii) : regex := Chr (Ascii.eqb c).

Fixpoint word (s : string) : regex :=
  match s with
  | EmptyString => Eps
  | String c s' => Seq (lit c) (word s')
  end.

(** [.]: any character but a newline. *)
Definition dot : regex := Chr (fun c => negb (Ascii.eqb c "010")).

End re.

(** ** The syntax tree of Python's [ast] module

    One type for every node class, as the visitors dispatch on the class of
    whatever node they are handed.  Each node carries the [is_reql]
    attribute the analyzer sets on it: [None] while the attribute is absent.
    A [Lambda] holds the [arg] nodes of [node.args.args] directly, and a
    [Dict] holds its keys and values as the pairs [zip(keys, values)]
    yields; the key of an entry that unpacks a mapping ([{**m}]) is
    [None]. *)

Module ast.

Inductive constant : Type :=
| None_
| True_
| False_
| StrValue (s : string).      (* only a hand-built NameConstant holds one *)

(** [Num.n]: an [int], or a [float] given by its [repr]. *)
Inductive number : Type :=
| Int (z : Z)
| Float (repr : string).

Inductive unaryop : Type := USub | Not | UAdd | Invert.

Inductive operator : Type :=
| Add | Sub | Mult | Div | Mod | Pow
| LShift | RShift | BitOr | BitXor | BitAnd | FloorDiv.

Inductive cmpop : Type :=
| Eq | NotEq | Lt | LtE | Gt | GtE | Is | IsNot | In | NotIn.

Inductive boolop : Type := And | Or.

Definition tag : Type := option bool.

Inductive node : Type :=
| Name (is_reql : tag) (id : string)
| NameConstant (is_reql : tag) (value : constant)
| Num (is_reql : tag) (n : number)
| Str (is_reql : tag) (s : string)
| Bytes (is_reql : tag) (s : list byte)
| Attribute (is_reql : tag) (value : node) (attr : string)
| Call (is_reql : tag) (func : node) (args : list node) (keywords : list node)
| keyword (is_reql : tag) (arg : string) (value : node)
| Subscript (is_reql : tag) (value : node) (slice : node)
| Index (is_reql : tag) (value : node)
| Slice (is_reql : tag) (lower upper step : option node)
| ExtSlice (is_reql : tag) (dims : list node)
| Lambda (is_reql : tag) (args : list node) (body : node)
| arg (is_reql : tag) (arg : string)
| UnaryOp (is_reql : tag) (op : unaryop) (operand : node)
| BinOp (is_reql : tag) (left : node) (op : operator) (right : node)
| BoolOp (is_reql : tag) (op : boolop) (values : list node)
| Compare (is_reql : tag) (left : node) (ops : list cmpop)
          (comparators : list node)
| List (is_reql : tag) (elts : list node)
| Tuple (is_reql : tag) (elts : list node)
| Dict (is_reql : tag) (items : list (option node * node))
| ListComp (is_reql : tag) (elt : node) (generators : list node)
| comprehension (is_reql : tag) (target iter : node) (ifs : list node)
| Assign (is_reql : tag) (targets : list node) (value : node).

(** The attribute as stored, absent or not. *)
Definition get_tag (n : node) : tag :=
  match n with
  | Name t _ | NameConstant t _ | Num t _ | Str t _ | Bytes t _
  | Attribute t _ _ | Call t _ _ _ | keyword t _ _ | Subscript t _ _
  | Index t _ | Slice t _ _ _ | ExtSlice t _ | Lambda t _ _ | arg t _
  | UnaryOp t _ _ | BinOp t _ _ _ | BoolOp t _ _ | Compare t _ _ _
  | List t _ | Tuple t _ | Dict t _ | ListComp t _ _
  | comprehension t _ _ _ | Assign t _ _ => t
  end.

(** [node.is_reql]: reading an attribute that was never set raises. *)
Definition is_reql (n : node) : py.result bool :=
  match get_tag n with
  | Some b => py.ok b
  | None => py.raise py.AttributeError "is_reql"
  end.

(** [node.is_reql = b]. *)
Definition set_is_reql (b : bool) (n : node) : node :=
  let t := Some b in
  match n with
  | Name _ id => Name t id
  | NameConstant _ v => NameConstant t v
  | Num _ k => Num t k
  | Str _ s => Str t s
  | Bytes _ s => Bytes t s
  | Attribute _ v a => Attribute t v a
  | Call _ f a k => Call t f a k
  | keyword _ a v => keyword t a v
  | Subscript _ v s => Subscript t v s
  | Index _ v => Index t v
  | Slice _ l u s => Slice t l u s
  | ExtSlice _ d => ExtSlice t d
  | Lambda _ a b => Lambda t a b
  | arg _ a => arg t a
  | UnaryOp _ o x => UnaryOp t o x
  | BinOp _ l o r => BinOp t l o r
  | BoolOp _ o v => BoolOp t o v
  | Compare _ l o c => Compare t l o c
  | List _ e => List t e
  | Tuple _ e => Tuple t e
  | Dict _ i => Dict t i
  | ListComp _ e g => ListComp t e g
  | comprehension _ x i f => comprehension t x i f
  | Assign _ x v => Assign t x v
  end.

(** [node.__class__.__name__]. *)
Definition class_name (n : node) : string :=
  match n with
  | Name _ _ => "Name" | NameConstant _ _ => "NameConstant"
  | Num _ _ => "Num" | Str _ _ => "Str" | Bytes _ _ => "Bytes"
  | Attribute _ _ _ => "Attribute" | Call _ _ _ _ => "Call"
  | keyword _ _ _ => "keyword" | Subscript _ _ _ => "Subscript"
  | Index _ _ => "Index" | Slice _ _ _ _ => "Slice"
  | ExtSlice _ _ => "ExtSlice" | Lambda _ _ _ => "Lambda"
  | arg _ _ => "arg" | UnaryOp _ _ _ => "UnaryOp"
  | BinOp _ _ _ _ => "BinOp" | BoolOp _ _ _ => "BoolOp"
  | Compare _ _ _ _ => "Compare" | List _ _ => "List"
  | Tuple _ _ => "Tuple" | Dict _ _ => "Dict"
  | ListComp _ _ _ => "ListComp" | comprehension _ _ _ _ => "comprehension"
  | Assign _ _ _ => "Assign"
  end.

(** [n.arg], which [arg] and [keyword] nodes have. *)
Definition get_arg (n : node) : py.result string :=
  match n with
  | arg _ a | keyword _ a _ => py.ok a
  | _ => py.raise py.AttributeError "arg"
  end.

(** [n.id], [n.attr], [n.n]. *)
Definition get_id (n : node) : py.result string :=
  match n with
  | Name _ id => py.ok id
  | _ => py.raise py.AttributeError "id"
  end.

Definition get_attr (n : node) : py.result string :=
  match n with
  | Attribute _ _ a => py.ok a
  | _ => py.raise py.AttributeError "attr"
  end.

Definition get_n (n : node) : py.result number :=
  match n with
  | Num _ k => py.ok k
  | _ => py.raise py.AttributeError "n"
  end.

(** [type(n) == ast.Name and n.id == name]. *)
Definition is_name (name : string) (n : node) : bool :=
  match n with
  | Name _ id => String.eqb id name
  | _ => false
  end.

(** The entries of a [Dict] that unpacks no mapping: every key is there. *)
Definition entries (items : list (node * node)) : list (option node * node) :=
  map (fun kv => (Some (fst kv), snd kv)) items.

End ast.

(** ** conversion_utils.py *)

Module conversion_utils.

Local Open Scope result_scope.

Definition upper_snake_char (c : ascii) : bool :=
  py.isupper c || py.isdigit c || Ascii.eqb c "_".
Definition lower_snake_char (c : ascii) : bool :=
  py.islower c || py.isdigit c || Ascii.eqb c "_".

(** [[A-Z][A-Z0-9_]*|[a-z][a-z0-9_]*], each branch closed by [$] in the
    source. *)
Definition snake_case : re.regex :=
  re.Alt (re.Seq (re.Chr py.isupper) (re.Star (re.Chr upper_snake_char)))
         (re.Seq (re.Chr py.islower) (re.Star (re.Chr lower_snake_char))).

Definition camel (varname : string) : py.result string :=
  if re.match_dollar snake_case varname then
    let suffix := if py.endswith "_" varname then "_" else "" in
    py.ok (py.join_str (map py.title (py.split "_" varname)) +:+ suffix)
  else
    c <- py.head_char varname ;;
    py.ok (String (py.upper_char c) (py.tail_str varname)).

Definition dromedary (varname : string) : py.result string :=
  if re.match_dollar snake_case varname then
    let chunks := py.split "_" varname in
    let suffix := if py.endswith "_" varname then "_" else "" in
    match chunks with
    | chunk0 :: rest =>
        py.ok (py.lower chunk0 +:+ py.join_str (map py.title rest) +:+ suffix)
    | [] => py.raise py.IndexError "list index out of range"
    end
  else
    c <- py.head_char varname ;;
    py.ok (String (py.lower_char c) (py.tail_str varname)).

(** The [IsReql] visitor object: its two fields. *)
Record IsReql : Type := mkIsReql {
  reql_vars : gset string;
  passed_to_reql : bool
}.

(** [IsReql.__init__]: [reql_vars or {'r'}] replaces a missing or empty set
    by the default root name. *)
Definition IsReql_init (reql_vars : option (gset string))
    (passed_to_reql : bool) : IsReql :=
  mkIsReql
    (match reql_vars with
     | Some s => if bool_decide (s = ∅) then {["r"]} else s
     | None => {["r"]}
     end)
    passed_to_reql.

(** [pp.visit(x)] for an optional field that is visited only when it is not
    [None]. *)
Definition visit_opt (visit : ast.node -> py.result ast.node)
    (o : option ast.node) : py.result (option ast.node) :=
  match o with
  | Some n => n' <- visit n ;; py.ok (Some n')
  | None => py.ok None
  end.

(** [self.visit(key)] for a key of a [Dict]: on the [None] of an unpacked
    mapping the dispatcher finds no method and [generic_visit] sets the
    attribute on [None], which has none. *)
Definition visit_key (visit : ast.node -> py.result ast.node)
    (key : option ast.node) : py.result (option ast.node) :=
  match key with
  | Some k => k' <- visit k ;; py.ok (Some k')
  | None => py.raise py.AttributeError "is_reql"
  end.

(** The body of the loop over [node.keywords] in [visit_Call]:
    [keyword.is_reql = node.is_reql], then [pp.visit(keyword.value)].  A node
    of another class that has a [value] is treated alike; one without it
    raises. *)
Definition visit_keyword_value (pp_visit : ast.node -> py.result ast.node)
    (t : bool) (kw : ast.node) : py.result ast.node :=
  match kw with
  | ast.keyword _ a value =>
      value' <- pp_visit value ;;
      py.ok (ast.keyword (Some t) a value')
  | ast.Attribute _ value a =>
      value' <- pp_visit value ;;
      py.ok (ast.Attribute (Some t) value' a)
  | ast.Subscript _ value s =>
      value' <- pp_visit value ;;
      py.ok (ast.Subscript (Some t) value' s)
  | ast.Index _ value =>
      value' <- pp_visit value ;;
      py.ok (ast.Index (Some t) value')
  | ast.Assign _ x value =>
      value' <- pp_visit value ;;
      py.ok (ast.Assign (Some t) x value')
  | _ => py.raise py.AttributeError "value"
  end.

(** The loop over [node.comparators] in [visit_Compare]:
    [is_reql = is_reql or comp.is_reql] after each visit. *)
Definition visit_comparators (visit : ast.node -> py.result ast.node)
  : bool -> list ast.node -> py.result (bool * list ast.node) :=
  fix go (is_reql : bool) (comps : list ast.node)
    : py.result (bool * list ast.node) :=
    match comps with
    | [] => py.ok (is_reql, [])
    | comp :: comps' =>
        comp' <- visit comp ;;
        c <- (if is_reql then py.ok true else ast.is_reql comp') ;;
        r <- go c comps' ;;
        py.ok (fst r, comp' :: snd r)
    end.

(** [IsReql.visit]: [NodeVisitor.visit] dispatches on the class of the node
    to the [visit_<Class>] method, and to [generic_visit] when the class has
    none.  The result is the node as the call leaves it. *)
Fixpoint visit (self : IsReql) (node : ast.node) {struct node}
  : py.result ast.node :=
  match node with
  | ast.Name _ id =>
      (* visit_Name *)
      py.ok (ast.Name (Some (bool_decide (id ∈ reql_vars self))) id)
  | ast.Attribute _ value attr =>
      (* visit_Attribute *)
      value' <- visit self value ;;
      t <- ast.is_reql value' ;;
      py.ok (ast.Attribute (Some t) value' attr)
  | ast.Lambda _ args body =>
      (* visit_Lambda *)
      if passed_to_reql self then
        names <- py.mapM ast.get_arg args ;;
        let lambda_vars : gset string := list_to_set names in
        body' <- visit (IsReql_init (Some (reql_vars self ∪ lambda_vars)) false)
                       body ;;
        py.ok (ast.Lambda (Some true) args body')
      else
        body' <- visit (IsReql_init (Some (reql_vars self)) false) body ;;
        py.ok (ast.Lambda (Some false) args body')
  | ast.Call _ func args keywords =>
      (* visit_Call *)
      func' <- visit self func ;;
      t <- ast.is_reql func' ;;
      let pp := if t then IsReql_init (Some (reql_vars self)) true else self in
      args' <- py.mapM (visit pp) args ;;
      keywords' <- py.mapM (visit_keyword_value (visit pp) t) keywords ;;
      py.ok (ast.Call (Some t) func' args' keywords')
  | ast.Subscript _ value slice =>
      (* visit_Subscript *)
      value' <- visit self value ;;
      t <- ast.is_reql value' ;;
      let pp := if t then IsReql_init (Some (reql_vars self)) true else self in
      slice' <- visit pp slice ;;
      py.ok (ast.Subscript (Some t) value' slice')
  | ast.Index _ value =>
      (* visit_Index *)
      value' <- visit (IsReql_init (Some (reql_vars self)) false) value ;;
      py.ok (ast.Index (Some (passed_to_reql self)) value')
  | ast.Slice _ lower upper step =>
      (* visit_Slice: lower, then step, then upper *)
      let pp := IsReql_init (Some (reql_vars self)) false in
      lower' <- visit_opt (visit pp) lower ;;
      step' <- visit_opt (visit pp) step ;;
      upper' <- visit_opt (visit pp) upper ;;
      py.ok (ast.Slice (Some (passed_to_reql self)) lower' upper' step')
  | ast.BinOp _ left_ op right_ =>
      (* visit_BinOp *)
      left' <- visit self left_ ;;
      right' <- visit self right_ ;;
      t <- match op with
           | ast.Pow => py.ok false
           | _ =>
               l <- ast.is_reql left' ;;
               if l then py.ok true else ast.is_reql right'
           end ;;
      py.ok (ast.BinOp (Some t) left' op right')
  | ast.Compare _ left_ ops comparators =>
      (* visit_Compare *)
      left' <- visit self left_ ;;
      l <- ast.is_reql left' ;;
      r <- visit_comparators (visit self) l comparators ;;
      py.ok (ast.Compare (Some (fst r)) left' ops (snd r))
  | ast.UnaryOp _ op operand =>
      (* visit_UnaryOp *)
      operand' <- visit self operand ;;
      t <- ast.is_reql operand' ;;
      py.ok (ast.UnaryOp (Some t) op operand')
  | ast.List _ elts =>
      (* visit_List *)
      elts' <- py.mapM (visit self) elts ;;
      py.ok (ast.List (Some false) elts')
  | ast.Tuple _ elts =>
      (* visit_Tuple: visit_List on the tuple *)
      elts' <- py.mapM (visit self) elts ;;
      py.ok (ast.Tuple (Some false) elts')
  | ast.Dict _ items =>
      (* visit_Dict *)
      items' <- py.mapM (fun kv =>
                           key' <- visit_key (visit self) (fst kv) ;;
                           value' <- visit self (snd kv) ;;
                           py.ok (key', value')) items ;;
      py.ok (ast.Dict (Some false) items')
  | _ =>
      (* generic_visit *)
      py.ok (ast.set_is_reql false node)
  end.

(** [add_is_reql_flags(node, reql_vars, passed_to_reql)]. *)
Definition add_is_reql_flags (node : ast.node)
    (reql_vars : option (gset string)) (passed_to_reql : bool)
  : py.result ast.node :=
  visit (IsReql_init reql_vars passed_to_reql) node.

End conversion_utils.

(** ** The emitters' output buffer

    A visitor method is a computation over the text written so far (the
    [StringIO] object [self.out]): it ends with a value and the new text, or
    with the exception it raised. *)

Module io.

Definition M (A : Type) : Type := string -> py.result (A * string).

Definition ret {A} (a : A) : M A := fun out => py.ok (a, out).

Definition bind {A B} (m : M A) (f : A -> M B) : M B :=
  fun out =>
    match m out with
    | inl e => inl e
    | inr (a, out') => f a out'
    end.

(** [self.write(s)]. *)
Definition write (s : string) : M unit := fun out => py.ok (tt, out +:+ s).

(** [raise k(msg)]. *)
Definition throw {A} (k : py.exn_class) (msg : string) : M A :=
  fun _ => py.raise k msg.

(** A computation that touches no buffer. *)
Definition lift {A} (r : py.result A) : M A :=
  fun out =>
    match r with
    | inl e => inl e
    | inr a => py.ok (a, out)
    end.

(** [self.out.getvalue()]. *)
Definition getvalue : M string := fun out => py.ok (out, out).

End io.

Declare Scope emit_scope.
Delimit Scope emit_scope with emit.
Notation "x <- m ;; k" := (io.bind m (fun x => k))
  (at level 100, m at next level, right associativity) : emit_scope.
Notation "m ;; k" := (io.bind m (fun _ => k))
  (at level 100, k at level 200, right associativity) : emit_scope.

(** ** Reading fields of a node that may not have them *)

Module field.

(** [n.s]: the text of a [Str], the bytes of a [Bytes]. *)
Definition get_s (n : ast.node) : py.result (string + list byte) :=
  match n with
  | ast.Str _ s => py.ok (inl s)
  | ast.Bytes _ s => py.ok (inr s)
  | _ => py.raise py.AttributeError "s"
  end.

(** [items[i]]. *)
Definition index {A} (items : list A) (i : nat) : py.result A :=
  match nth_error items i with
  | Some a => py.ok a
  | None => py.raise py.IndexError "list index out of range"
  end.

(** [items[-1]]. *)
Definition last {A} (items : list A) : py.result A :=
  match rev items with
  | a :: _ => py.ok a
  | [] => py.raise py.IndexError "list index out of range"
  end.

(** [name in table], for the tables of reserved words. *)
Definition mem (name : string) (table : list string) : bool :=
  existsb (String.eqb name) table.

(** [table.get(key, default)] and [table[key]]. *)
Fixpoint get (table : list (string * string)) (key default : string) : string :=
  match table with
  | [] => default
  | (k, v) :: table' => if String.eqb k key then v else get table' key default
  end.

Fixpoint lookup (table : list (string * string)) (key : string)
  : py.result string :=
  match table with
  | [] => py.raise py.KeyError key
  | (k, v) :: table' => if String.eqb k key then py.ok v else lookup table' key
  end.

End field.

(** ** Python's [repr] of text *)

Module repr.

Definition hex_digit (n : N) : ascii :=
  if (n <? 10)%N then ascii_of_N (48 + n) else ascii_of_N (87 + n).

(** [\xNN]. *)
Definition hex_escape (c : ascii) : string :=
  String "\" (String "x"
    (String (hex_digit (py.code c / 16)) (String (hex_digit (py.code c mod 16))
       EmptyString))).

(** Python 3's [str.isprintable] on the code points below 256. *)
Definition isprintable (c : ascii) : bool :=
  let n := py.code c in
  (((32 <=? n) && (n <=? 126)) || ((161 <=? n) && negb (n =? 173)))%N.

(** One character of a [str] inside quotes of kind [quote]. *)
Definition str_char (quote : ascii) (c : ascii) : string :=
  if Ascii.eqb c "\" then "\\"
  else if Ascii.eqb c quote then String "\" (String c EmptyString)
  else if Ascii.eqb c "009" then "\t"
  else if Ascii.eqb c "010" then "\n"
  else if Ascii.eqb c "013" then "\r"
  else if isprintable c then String c EmptyString
  else hex_escape c.

(** One byte of a [bytes] inside quotes of kind [quote]. *)
Definition bytes_char (quote : ascii) (c : ascii) : string :=
  if Ascii.eqb c "\" then "\\"
  else if Ascii.eqb c quote then String "\" (String c EmptyString)
  else if Ascii.eqb c "009" then "\t"
  else if Ascii.eqb c "010" then "\n"
  else if Ascii.eqb c "013" then "\r"
  else if ((32 <=? py.code c) && (py.code c <=? 126))%N then String c EmptyString
  else hex_escape c.

(** The quote [repr] chooses: double when the text holds a single quote and
    no double quote, single otherwise. *)
Definition quote_for (s : string) : ascii :=
  if py.contains "'" s && negb (py.contains (ascii_of_nat 34) s)
  then ascii_of_nat 34 else "'"%char.

Fixpoint body (f : ascii -> string) (s : string) : string :=
  match s with
  | EmptyString => EmptyString
  | String c s' => f c +:+ body f s'
  end.

(** [repr(s)] for a [str]. *)
Definition of_str (s : string) : string :=
  let q := quote_for s in
  String q (body (str_char q) s +:+ String q EmptyString).

Definition string_of_bytes (b : list byte) : string :=
  fold_right (fun x s => String (ascii_of_byte x) s) EmptyString b.

(** [repr(b)] for a [bytes]. *)
Definition of_bytes (b : list byte) : string :=
  let s := string_of_bytes b in
  let q := quote_for s in
  String "b" (String q (body (bytes_char q) s +:+ String q EmptyString)).

(** [repr(c)[1:-1]] for a one-character [str]. *)
Definition of_char (c : ascii) : string :=
  body (str_char (quote_for (String c EmptyString))) (String c EmptyString).

(** [s.strip(c)]. *)
Fixpoint lstrip (c : ascii) (s : string) : string :=
  match s with
  | EmptyString => EmptyString
  | String d s' => if Ascii.eqb d c then lstrip c s' else s
  end.

Fixpoint rstrip (c : ascii) (s : string) : string :=
  match s with
  | EmptyString => EmptyString
  | String d s' =>
      match rstrip c s' with
      | EmptyString => if Ascii.eqb d c then EmptyString else String d EmptyString
      | r => String d r
      end
  end.

Definition strip (c : ascii) (s : string) : string := rstrip c (lstrip c s).

(** [repr] and [str] of a number; negation of one. *)
Definition of_number (n : ast.number) : string :=
  match n with
  | ast.Int z => py.repr_int z
  | ast.Float r => r
  end.

Definition neg_number (n : ast.number) : ast.number :=
  match n with
  | ast.Int z => ast.Int (- z)
  | ast.Float r =>
      match r with
      | String "-" r' => ast.Float r'
      | _ => ast.Float (String "-" r)
      end
  end.

(** [str(type(node))]. *)
Definition of_type (n : ast.node) : string :=
  "<class '_ast." +:+ ast.class_name n +:+ "'>".

End repr.

(** ** java_converter.py *)

Module java_converter.

Local Open Scope emit_scope.

Definition JAVA_KEYWORDS : list string :=
  [ "abstract"; "continue"; "for"; "new"; "switch"; "assert";
    "default"; "goto"; "package"; "synchronized"; "boolean"; "do";
    "if"; "private"; "this"; "break"; "double"; "implements";
    "protected"; "throw"; "byte"; "else"; "import"; "public";
    "throws"; "case"; "enum"; "instanceof"; "return"; "transient";
    "catch"; "extends"; "int"; "short"; "try"; "char"; "final";
    "interface"; "static"; "void"; "class"; "finally"; "long";
    "strictfp"; "volatile"; "const"; "float"; "native"; "super";
    "while" ].

Definition OBJECT_METHODS : list string :=
  [ "clone"; "equals"; "finalize"; "hashCode"; "getClass";
    "notify"; "notifyAll"; "wait"; "toString" ].

Definition METHOD_ALIASES : list (string * string) :=
  [ ("GET_FIELD", "g") ].

Definition TOPLEVEL_CONSTANTS : list string :=
  [ "monday"; "tuesday"; "wednesday"; "thursday"; "friday";
    "saturday"; "sunday"; "january"; "february"; "march"; "april";
    "may"; "june"; "july"; "august"; "september"; "october";
    "november"; "december"; "minval"; "maxval"; "error" ].

(** [attr_matches(path, node)] with [path = root + '.' + name]:
    [is_name(root, node.value) and node.attr == name]. *)
Definition attr_matches (root name : string) (node : ast.node)
  : py.result bool :=
  match node with
  | ast.Attribute _ value attr =>
      py.ok (ast.is_name root value && String.eqb attr name)
  | ast.Subscript _ value _ | ast.Index _ value | ast.keyword _ _ value
  | ast.Assign _ _ value =>
      if ast.is_name root value then py.raise py.AttributeError "attr"
      else py.ok false
  | ast.NameConstant _ _ => py.ok false
  | _ => py.raise py.AttributeError "value"
  end.

(** [attr_equals(node, "attr", value)]. *)
Definition attr_equals (node : ast.node) (value : string) : bool :=
  match node with
  | ast.Attribute _ _ attr => String.eqb attr value
  | _ => false
  end.

(** [escape_string]: the text of one character. *)
Definition escape_char (codepoint : ascii) : string :=
  let rpr := repr.of_char codepoint in
  if py.startswith "\x" rpr then "\u00" +:+ py.tail_str (py.tail_str rpr)
  else if String.eqb rpr py.dq then "\" +:+ py.dq
  else rpr.

(** The loop [for codepoint in s] of [escape_string]. *)
Fixpoint escape_chars (s : string) : io.M unit :=
  match s with
  | EmptyString => io.ret tt
  | String codepoint s' => io.write (escape_char codepoint) ;; escape_chars s'
  end.

Definition escape_string (s : string) : io.M unit :=
  io.write py.dq ;;
  escape_chars s ;;
  io.write py.dq.

(** What [py_to_java_type] is handed: [None], a name already converted, or
    a type object, of which it reads [__module__], [__name__] and, for the
    constants of [rethinkdb.query], the class variable [st]. *)
Inductive py_type : Type :=
| NoType
| TypeName (name : string)
| TypeObject (module_ name_ : string) (st : option string).

Definition builtin_types : list (string * string) :=
  [ ("bool", "Boolean"); ("bytes", "byte[]"); ("int", "Long");
    ("float", "Double"); ("str", "String"); ("dict", "Map");
    ("list", "List"); ("object", "Object"); ("NoneType", "Object") ].

Definition py_to_java_type (t : py_type) : py.result (option string) :=
  match t with
  | NoType => py.ok None
  | TypeName name => py.ok (Some name)
  | TypeObject module_ name_ st =>
      if String.eqb name_ "function" then py.ok (Some "ReqlFunction1")
      else if String.eqb module_ "datetime" && String.eqb name_ "datetime"
      then py.ok (Some "OffsetDateTime")
      else if String.eqb module_ "builtins"
      then py.rbind (field.lookup builtin_types name_) (fun j => py.ok (Some j))
      else if String.eqb module_ "rethinkdb.ast"
      then py.ok (Some (field.get [("DB", "Db")] name_ name_))
      else if String.eqb module_ "rethinkdb.errors"
      then py.ok (Some name_)
      else if String.eqb module_ "?test?"
      then py.rbind (conversion_utils.camel name_)
             (fun c => py.ok (Some (field.get [("uuid", "UUIDMatch")] name_ c)))
      else if String.eqb module_ "rethinkdb.query"
      then match st with
           | Some st =>
               py.rbind (conversion_utils.camel st) (fun c => py.ok (Some c))
           | None => py.raise py.AttributeError "st"
           end
      else py.raise py.RuntimeError
             ("Don't know how to convert python type " +:+ module_ +:+ "."
              +:+ name_ +:+ " to java")
  end.

(** The two visitor classes; [ReQLVisitor] overrides [visit_Subscript],
    [visit_Attribute], [visit_UnaryOp] and [visit_Call]. *)
Inductive visitor_class : Type := Visitor_ | ReQLVisitor.

(** The fields of a visitor object other than its buffer. *)
Record Visitor : Type := mkVisitor {
  class_ : visitor_class;
  reql_vars : gset string;
  type_ : option string;       (* self.type *)
  _type : py_type;             (* self._type *)
  is_def : bool;
  smart_bracket : bool
}.

(** [__init__] with every argument given. *)
Definition init (cls : visitor_class) (reql_vars : gset string)
    (type_ : py_type) (is_def smart_bracket : bool) : py.result Visitor :=
  py.rbind (py_to_java_type type_)
    (fun t => py.ok (mkVisitor cls reql_vars t type_ is_def smart_bracket)).

(** [self.skip(message)]. *)
Definition skip {A} (message : string) : io.M A :=
  io.throw py.RuntimeError message.

(** [self.to_str(s)]. *)
Definition to_str (s : string) : io.M unit := escape_string s.

(** [self.TOPLEVEL_CONSTANTS]: neither class defines the attribute (the set
    of that name is a global of the module), so the lookup raises. *)
Definition self_TOPLEVEL_CONSTANTS : py.result (list string) :=
  py.raise py.AttributeError "TOPLEVEL_CONSTANTS".

(** The regular expression of [skip_if_arity_check]:
    [.*([Ee]xpect(ed|s)|Got) .* argument]. *)
Definition arity_rgx : re.regex :=
  re.Seq (re.Star re.dot)
   (re.Seq (re.Alt (re.Seq (re.Chr (fun c => Ascii.eqb c "E" || Ascii.eqb c "e"))
                      (re.Seq (re.word "xpect") (re.Alt (re.word "ed") (re.word "s"))))
                   (re.word "Got"))
     (re.Seq (re.word " ")
        (re.Seq (re.Star re.dot) (re.word " argument")))).

Definition encodings : list (string * string) :=
  [ ("ascii", "US_ASCII"); ("utf-16", "UTF_16"); ("utf-8", "UTF_8") ].

(** The methods that call [self.visit]; [visit] is the dispatcher the
    object was built with. *)
Section Methods.

Variable visit : ast.node -> io.M unit.

(** The loop of [join], entered with the flag [first]. *)
Definition join_from (sep : string) : bool -> list ast.node -> io.M unit :=
  fix go (first : bool) (items : list ast.node) : io.M unit :=
    match items with
    | [] => io.ret tt
    | item :: items' =>
        (if first then io.ret tt else io.write sep) ;;
        visit item ;;
        go false items'
    end.

Definition join (sep : string) (items : list ast.node) : io.M unit :=
  join_from sep true items.

Definition cast_null (arg : ast.node) (cast : string) : io.M unit :=
  (if match arg with
      | ast.Name _ id => String.eqb id "null"
      | ast.NameConstant _ (ast.StrValue value) => String.eqb value "None"
      | _ => false
      end
   then io.write "(" ;; io.write cast ;; io.write ") "
   else io.ret tt) ;;
  visit arg.

Definition wrap : list (string + ast.node) -> io.M unit :=
  fix go (args : list (string + ast.node)) : io.M unit :=
    match args with
    | [] => io.ret tt
    | inl s :: args' => io.write s ;; go args'
    | inr n :: args' => visit n ;; go args'
    end.

(** The loop [for arg in args[1:]] of [to_args]. *)
Definition cast_rest : list ast.node -> io.M unit :=
  fix go (rest : list ast.node) : io.M unit :=
    match rest with
    | [] => io.ret tt
    | arg :: rest' => io.write ", " ;; cast_null arg "ReqlExpr" ;; go rest'
    end.

(** The loop [for optarg in optargs] of [to_args]. *)
Definition chain_optargs : list ast.node -> io.M unit :=
  fix go (optargs : list ast.node) : io.M unit :=
    match optargs with
    | [] => io.ret tt
    | optarg :: optargs' =>
        io.write ".optArg(" ;;
        a <- io.lift (ast.get_arg optarg) ;;
        to_str a ;;
        io.write ", " ;;
        match optarg with
        | ast.keyword _ _ value => visit value
        | _ => io.throw py.AttributeError "value"
        end ;;
        io.write ")" ;;
        go optargs'
    end.

Definition to_args (args optargs : list ast.node) : io.M unit :=
  io.write "(" ;;
  match args with
  | [] => io.ret tt
  | arg0 :: rest => cast_null arg0 "ReqlExpr" ;; cast_rest rest
  end ;;
  io.write ")" ;;
  chain_optargs optargs.

(** [self.visit(key)] for a key of a [Dict]; for the [None] of an unpacked
    mapping [generic_visit] hands [None] to [ast.dump] for the log line,
    which raises. *)
Definition visit_key (key : option ast.node) : io.M unit :=
  match key with
  | Some k => visit k
  | None => io.throw py.TypeError "expected AST, got 'NoneType'"
  end.

(** The loop [for k, v in zip(node.keys[1:], node.values[1:])] of
    [visit_Dict]. *)
Definition with_pairs : list (option ast.node * ast.node) -> io.M unit :=
  fix go (rest : list (option ast.node * ast.node)) : io.M unit :=
    match rest with
    | [] => io.ret tt
    | kv :: rest' =>
        io.write ").with(" ;;
        visit_key (fst kv) ;;
        io.write ", " ;;
        visit (snd kv) ;;
        go rest'
    end.

(** [skip_if_arity_check]: the [try] block reads fields only, and the
    [except] clause swallows an [AttributeError] or a [TypeError]. *)
Definition skip_if_arity_check (func : ast.node) (args : list ast.node)
  : io.M unit :=
  let attempt : py.result bool :=
    py.rbind (ast.get_id func) (fun id =>
    if String.eqb id "err" then
      py.rbind (field.index args 1) (fun a1 =>
      py.rbind (field.get_s a1) (fun s =>
      match s with
      | inl text => py.ok (re.match_ arity_rgx text)
      | inr _ => py.raise py.TypeError
                   "cannot use a string pattern on a bytes-like object"
      end))
    else py.ok false) in
  match attempt with
  | inr true => skip "arity checks done by java type system"
  | inr false => io.ret tt
  | inl e =>
      match py.exn_kind e with
      | py.AttributeError | py.TypeError => io.ret tt
      | _ => io.lift (inl e)
      end
  end.

(** [convert_if_string_encode]: [except Exception] swallows whatever the
    [try] block raises; the table lookup stands outside it. *)
Definition convert_if_string_encode (func : ast.node) (args : list ast.node)
  : io.M bool :=
  match func with
  | ast.Attribute _ value attr =>
      let attempt : py.result (string + list byte) :=
        if String.eqb attr "encode" then
          py.rbind (field.get_s value) (fun _ =>
          py.rbind (field.index args 0) (fun a0 => field.get_s a0))
        else py.raise py.AssertionError "" in
      match attempt with
      | inl _ => io.ret false
      | inr encoding =>
          java_encoding <-
            io.lift (match encoding with
                     | inl name => field.lookup encodings name
                     | inr b => py.raise py.KeyError (repr.of_bytes b)
                     end) ;;
          visit value ;;
          io.write ".getBytes(StandardCharsets." ;;
          io.write java_encoding ;;
          io.write ")" ;;
          io.ret true
      end
  | _ => io.ret false
  end.

End Methods.

(** The tables of [visit_UnaryOp], [visit_Compare] and [visit_BinOp]; a
    missing entry is a [KeyError]. *)
Definition opMap (op : ast.unaryop) : string :=
  match op with
  | ast.USub => "-"
  | ast.Not => "!"
  | ast.UAdd => "+"
  | ast.Invert => "~"
  end.

Definition op_map (op : ast.cmpop) : py.result string :=
  match op with
  | ast.Lt => py.ok " < "
  | ast.Gt => py.ok " > "
  | ast.GtE => py.ok " >= "
  | ast.LtE => py.ok " <= "
  | ast.Eq => py.ok " == "
  | ast.NotEq => py.ok " != "
  | _ => py.raise py.KeyError "cmpop"
  end.

Definition reql_map (op : ast.cmpop) : py.result string :=
  match op with
  | ast.Lt => py.ok "lt"
  | ast.Gt => py.ok "gt"
  | ast.GtE => py.ok "ge"
  | ast.LtE => py.ok "le"
  | ast.Eq => py.ok "eq"
  | ast.NotEq => py.ok "ne"
  | _ => py.raise py.KeyError "cmpop"
  end.

Definition jsMap (op : ast.operator) : py.result string :=
  match op with
  | ast.Add => py.ok " + "
  | ast.Sub => py.ok " - "
  | ast.Mult => py.ok " * "
  | ast.Div => py.ok " / "
  | ast.Mod => py.ok " % "
  | ast.Pow => py.ok " ** "
  | _ => py.raise py.KeyError "operator"
  end.

Definition reqlMap (op : ast.operator) : py.result string :=
  match op with
  | ast.Add => py.ok "add"
  | ast.Sub => py.ok "sub"
  | ast.Mult => py.ok "mul"
  | ast.Div => py.ok "div"
  | ast.Mod => py.ok "mod"
  | _ => py.raise py.KeyError "operator"
  end.

(** [visit_Bytes]: Java bytes are signed. *)
Definition signed_byte (b : byte) : Z :=
  let n := Z.of_N (Byte.to_N b) in
  if 127 <? n then - (256 - n) else n.

(** The loop [for i, byte in enumerate(node.s)] of [visit_Bytes]. *)
Fixpoint write_bytes (i : nat) (bytes : list byte) : io.M unit :=
  match bytes with
  | [] => io.ret tt
  | b :: bytes' =>
      (if Nat.ltb 0 i then io.write ", " else io.ret tt) ;;
      io.write (py.repr_int (signed_byte b)) ;;
      write_bytes (S i) bytes'
  end.

(** [get_bound] of [get_slice_bounds].  The text of [ast.dump(bound)] in
    the message is cut down to the class of the bound. *)
Definition get_bound (bound : option ast.node) (default : ast.number)
  : py.result ast.number :=
  match bound with
  | None => py.ok default
  | Some (ast.UnaryOp _ ast.USub operand) =>
      py.rbind (ast.get_n operand) (fun n => py.ok (repr.neg_number n))
  | Some (ast.Num _ n) => py.ok n
  | Some other =>
      py.raise py.RuntimeError ("Not handling bound: " +:+ ast.class_name other)
  end.

(** [get_slice_bounds(slc)] for the [Slice] node [slc]; a node is never
    falsy, so the guard [if not slc] does not fire. *)
Definition get_slice_bounds (lower upper : option ast.node)
  : py.result (ast.number * ast.number * bool) :=
  let right_closed := match upper with None => true | Some _ => false end in
  py.rbind (get_bound lower (ast.Int 0)) (fun l =>
  py.rbind (get_bound upper (ast.Int (-1))) (fun u =>
  py.ok (l, u, right_closed))).

Definition python_clashes : list (string * string) :=
  [ ("or_", "or"); ("and_", "and"); ("not_", "not") ].

(** [check] of [ReQLVisitor.visit_Call]. *)
Definition check (node : ast.node) : py.result bool :=
  match node with
  | ast.Lambda _ _ _ => py.ok true
  | ast.Call _ func _ _ => attr_matches "r" "js" func
  | ast.Dict _ _ => py.ok true
  | ast.Name _ _ => py.ok true
  | _ => py.ok false
  end.

(** The [visit_<Class>] methods that are called by name as well as through
    the dispatcher. *)
Section Overridden.

Variable visit : ast.node -> io.M unit.
Variable self : Visitor.

Definition Visitor_visit_Attribute (value : ast.node) (attr : string)
    (emit_parens : bool) : io.M unit :=
  let skip_parent := ast.is_name "r" value && String.eqb attr "ast" in
  (if skip_parent then io.ret tt else visit value ;; io.write ".") ;;
  d <- io.lift (conversion_utils.dromedary attr) ;;
  io.write d.

Definition ReQLVisitor_visit_Attribute (value : ast.node) (attr : string)
    (emit_parens : bool) : io.M unit :=
  is_toplevel_constant <-
    (if ast.is_name "r" value && String.eqb attr "row"
     then skip "Java driver doesn't support r.row"
     else if ast.is_name "r" value
     then constants <- io.lift self_TOPLEVEL_CONSTANTS ;;
          io.ret (field.mem attr constants)
     else io.ret false) ;;
  method_aliases <-
    io.lift (py.mapM (fun kv =>
                        py.rbind (conversion_utils.dromedary (fst kv))
                                 (fun k => py.ok (k, snd kv)))
                     METHOD_ALIASES) ;;
  visit value ;;
  io.write "." ;;
  d <- io.lift (conversion_utils.dromedary attr) ;;
  let initial := field.get python_clashes attr d in
  let initial := field.get method_aliases initial initial in
  io.write initial ;;
  (if field.mem initial (JAVA_KEYWORDS ++ OBJECT_METHODS)
   then io.write "_" else io.ret tt) ;;
  (if emit_parens && is_toplevel_constant then io.write "()" else io.ret tt).

(** [self.visit_Attribute], resolved on the class of [self]. *)
Definition visit_Attribute : ast.node -> string -> bool -> io.M unit :=
  match class_ self with
  | Visitor_ => Visitor_visit_Attribute
  | ReQLVisitor => ReQLVisitor_visit_Attribute
  end.

Definition Visitor_visit_Call (func : ast.node)
    (args keywords : list ast.node) : io.M unit :=
  skip_if_arity_check func args ;;
  converted <- convert_if_string_encode visit func args ;;
  if converted then io.ret tt
  else
    match func with
    | ast.Attribute _ value attr =>
        if String.eqb attr "error" then visit_Attribute value attr false
        else visit func
    | _ => visit func
    end ;;
    to_args visit args keywords.

Definition ReQLVisitor_visit_Call (func : ast.node)
    (args keywords : list ast.node) : io.M unit :=
  Visitor_visit_Call func args keywords ;;
  for_each <-
    (if attr_equals func "for_each"
     then a0 <- io.lift (field.index args 0) ;;
          io.ret (match a0 with ast.Lambda _ _ _ => false | _ => true end)
     else io.ret false) ;;
  if for_each
  then skip ("the java driver doesn't allow " +:+
             "non-function arguments to forEach")
  else if attr_equals func "map"
  then a <- io.lift (field.last args) ;;
       ok_ <- io.lift (check a) ;;
       if ok_ then io.ret tt
       else skip ("the java driver statically checks that " +:+
                  "map contains a function argument")
  else io.ret tt.

(** [node.slice.value], read by [Visitor.visit_Subscript]. *)
Definition slice_value (slice : ast.node)
  : py.result (ast.node + ast.constant) :=
  match slice with
  | ast.Index _ value | ast.Attribute _ value _ | ast.Subscript _ value _
  | ast.keyword _ _ value | ast.Assign _ _ value => py.ok (inl value)
  | ast.NameConstant _ c => py.ok (inr c)
  | _ => py.raise py.AttributeError "value"
  end.

Definition Visitor_visit_Subscript (value slice : ast.node) : io.M unit :=
  v <- io.lift (slice_value slice) ;;
  match v with
  | inl (ast.Num _ n) =>
      visit value ;;
      io.write ".get(" ;;
      io.write (repr.of_number n) ;;
      io.write ")"
  | inl other =>
      s <- io.lift (field.get_s other) ;;
      io.throw py.RuntimeError
        ("Only integers subscript can be converted. Got " +:+
         match s with
         | inl text => text
         | inr b => repr.of_bytes b
         end)
  | inr _ => io.throw py.AttributeError "s"
  end.

Definition ReQLVisitor_visit_Subscript (value slice : ast.node) : io.M unit :=
  visit value ;;
  match slice with
  | ast.Index _ v =>
      (if smart_bracket self &&
          match v with ast.Str _ _ => true | _ => false end
       then io.write ".g("
       else if smart_bracket self &&
               match v with ast.Num _ _ => true | _ => false end
       then io.write ".nth("
       else io.write ".bracket(") ;;
      visit v ;;
      io.write ")"
  | ast.Slice _ lower upper _ =>
      io.write ".slice(" ;;
      bounds <- io.lift (get_slice_bounds lower upper) ;;
      let '(lower_, upper_, rclosed) := bounds in
      io.write (repr.of_number lower_) ;;
      io.write ", " ;;
      io.write (repr.of_number upper_) ;;
      io.write ")" ;;
      if rclosed
      then io.write (".optArg(" +:+ py.dq +:+ "right_bound" +:+ py.dq +:+ ", "
                     +:+ py.dq +:+ "closed" +:+ py.dq +:+ ")")
      else io.ret tt
  | _ => io.throw py.RuntimeError "No translation for ExtSlice"
  end.

Definition Visitor_visit_UnaryOp (op : ast.unaryop) (operand : ast.node)
  : io.M unit :=
  io.write (opMap op) ;;
  visit operand.

Definition ReQLVisitor_visit_UnaryOp (op : ast.unaryop) (operand : ast.node)
  : io.M unit :=
  match op with
  | ast.Invert => visit operand ;; io.write ".not()"
  | _ => Visitor_visit_UnaryOp op operand
  end.

End Overridden.

(** [self.generic_visit(node)]; the two [logger.error] calls before the
    [raise] write to the log only. *)
Definition generic_visit {A} (node : ast.node) : io.M A :=
  io.throw py.RuntimeError
    ("Don't know what this thing is: " +:+ repr.of_type node).

(** [self.visit(node)]: the dispatch of [ast.NodeVisitor] on the class of
    the node, through the class of [self]. *)
Fixpoint visit (self : Visitor) (node : ast.node) {struct node} : io.M unit :=
  match node with
  | ast.Assign _ targets value =>
      (* visit_Assign: the RuntimeError for several targets is built and
         dropped; no [raise] stands before it *)
      let _ := if negb (Nat.eqb (length targets) 1)
               then Some (py.Raise py.RuntimeError
                            "We only support assigning to one variable")
               else None in
      ty <- match type_ self with
            | Some t => io.ret t
            | None => io.throw py.TypeError
                        "unsupported operand type(s) for +: 'NoneType' and 'str'"
            end ;;
      io.write (ty +:+ " ") ;;
      target <- io.lift (field.index targets 0) ;;
      id <- io.lift (ast.get_id target) ;;
      io.write id ;;
      io.write " = (" ;;
      io.write ty ;;
      io.write ") (" ;;
      r <- io.lift (ast.is_reql node) ;;
      (if r : bool
       then v <- io.lift (init ReQLVisitor (reql_vars self) (TypeName ty)
                               true true) ;;
            visit v value
       else visit self value) ;;
      io.write ");"
  | ast.Str _ s =>
      (* visit_Str *)
      to_str s
  | ast.Bytes _ s =>
      (* visit_Bytes, with skip_prefix and skip_suffix left False *)
      io.write "new byte[]{" ;;
      write_bytes 0 s ;;
      io.write "}"
  | ast.Name _ id =>
      (* visit_Name *)
      (if String.eqb id "frozenset"
       then skip "can't convert frozensets to GroupedData yet"
       else io.ret tt) ;;
      let name := if field.mem id JAVA_KEYWORDS || field.mem id OBJECT_METHODS
                  then id +:+ "_" else id in
      io.write (field.get [ ("True", "true"); ("False", "false");
                            ("None", "null"); ("nil", "null") ] name name)
  | ast.arg _ a =>
      (* visit_arg *)
      io.write a
  | ast.NameConstant _ value =>
      (* visit_NameConstant *)
      match value with
      | ast.None_ => io.write "null"
      | ast.True_ => io.write "true"
      | ast.False_ => io.write "false"
      | ast.StrValue s =>
          io.throw py.RuntimeError ("Don't know NameConstant with value " +:+ s)
      end
  | ast.Attribute _ value attr =>
      (* visit_Attribute, emit_parens left True *)
      visit_Attribute (visit self) self value attr true
  | ast.Num _ n =>
      (* visit_Num *)
      io.write (repr.of_number n) ;;
      match n with
      | ast.Float _ => io.ret tt
      | ast.Int z =>
          if (9223372036854775807 <? z) || (z <? -9223372036854775808)
          then io.write ".0"
          else io.write "L"
      end
  | ast.Index _ value =>
      (* visit_Index *)
      visit self value
  | ast.Call _ func args keywords =>
      (* visit_Call *)
      match class_ self with
      | Visitor_ => Visitor_visit_Call (visit self) self func args keywords
      | ReQLVisitor => ReQLVisitor_visit_Call (visit self) self func args keywords
      end
  | ast.Dict _ items =>
      (* visit_Dict *)
      io.write "r.hashMap(" ;;
      match items with
      | [] => io.ret tt
      | kv :: rest =>
          visit_key (visit self) (fst kv) ;;
          io.write ", " ;;
          visit self (snd kv) ;;
          with_pairs (visit self) rest
      end ;;
      io.write ")"
  | ast.List _ elts | ast.Tuple _ elts =>
      (* visit_List; visit_Tuple calls it *)
      io.write "r.array(" ;;
      join (visit self) ", " elts ;;
      io.write ")"
  | ast.Lambda _ args body =>
      (* visit_Lambda *)
      match args with
      | [a] => visit self a
      | _ => to_args (visit self) args []
      end ;;
      io.write " -> " ;;
      visit self body
  | ast.Subscript _ value slice =>
      (* visit_Subscript *)
      match class_ self with
      | Visitor_ => Visitor_visit_Subscript (visit self) value slice
      | ReQLVisitor => ReQLVisitor_visit_Subscript (visit self) self value slice
      end
  | ast.ListComp _ elt generators =>
      (* visit_ListComp *)
      match generators with
      | [] => io.throw py.IndexError "list index out of range"
      | ast.comprehension _ target iter _ :: _ =>
          match iter with
          | ast.Call _ func iter_args _ =>
              id <- io.lift (ast.get_id func) ;;
              if py.endswith "range" id
              then
                io.write "LongStream.range(" ;;
                match iter_args with
                | [a] => io.write "0, " ;; visit self a
                | [a; b] => visit self a ;; io.write ", " ;; visit self b
                | _ => io.ret tt
                end ;;
                io.write ").boxed()" ;;
                io.write ".map(" ;;
                visit self target ;;
                io.write " -> " ;;
                visit self elt ;;
                io.write ").collect(Collectors.toList())"
              else io.throw py.RuntimeError "ListComp hack couldn't handle: "
          | _ => io.throw py.RuntimeError "ListComp hack couldn't handle: "
          end
      | _ :: _ => io.throw py.AttributeError "iter"
      end
  | ast.UnaryOp _ op operand =>
      (* visit_UnaryOp *)
      match class_ self with
      | Visitor_ => Visitor_visit_UnaryOp (visit self) op operand
      | ReQLVisitor => ReQLVisitor_visit_UnaryOp (visit self) op operand
      end
  | ast.Compare _ left_ ops comparators =>
      (* visit_Compare *)
      match comparators with
      | _ :: _ :: _ => io.throw py.RuntimeError "Chained comparison not supported"
      | _ =>
          op_type <- io.lift (field.index ops 0) ;;
          match comparators with
          | [] => io.throw py.IndexError "list index out of range"
          | right_ :: _ =>
              l <- io.lift (ast.is_reql left_) ;;
              is_reql <- (if l : bool then io.ret true
                          else io.lift (ast.is_reql right_)) ;;
              if is_reql : bool
              then name <- io.lift (reql_map op_type) ;;
                   wrap (visit self)
                     [inl "("; inr left_; inl ")."; inl name; inl "(";
                      inr right_; inl ")"]
              else sym <- io.lift (op_map op_type) ;;
                   wrap (visit self) [inr left_; inl sym; inr right_]
          end
      end
  | ast.BinOp _ left_ op right_ =>
      (* visit_BinOp *)
      r <- io.lift (ast.is_reql node) ;;
      if r : bool
      then
        l <- io.lift (ast.is_reql left_) ;;
        (if negb l then io.write "r.expr(" else io.ret tt) ;;
        visit self left_ ;;
        l <- io.lift (ast.is_reql left_) ;;
        (if negb l then io.write ")" else io.ret tt) ;;
        io.write "." ;;
        name <- io.lift (reqlMap op) ;;
        io.write name ;;
        io.write "(" ;;
        visit self right_ ;;
        io.write ")"
      else
        visit self left_ ;;
        sym <- io.lift (jsMap op) ;;
        io.write sym ;;
        visit self right_
  | ast.keyword _ _ _ | ast.Slice _ _ _ _ | ast.ExtSlice _ _
  | ast.BoolOp _ _ _ | ast.comprehension _ _ _ _ =>
      generic_visit node
  end.

(** [self.convert(node)]. *)
Definition convert (self : Visitor) (node : ast.node) : io.M string :=
  visit self node ;;
  io.getvalue.

(** [Visitor(...)] with [out] left [None], so that the object owns a new,
    empty [StringIO], followed by [.convert(node)]: the text returned. *)
Definition emit (cls : visitor_class) (reql_vars : gset string)
    (type_ : py_type) (is_def smart_bracket : bool) (node : ast.node)
  : py.result string :=
  py.rbind (init cls reql_vars type_ is_def smart_bracket) (fun self =>
  py.rbind (convert self node EmptyString) (fun r => py.ok (fst r))).

End java_converter.

(** ** ruby_converter.py *)

Module ruby_converter.

Local Open Scope emit_scope.

(** The fields of a visitor object other than its buffer. *)
Record Visitor : Type := mkVisitor {
  reql_vars : gset string
}.

(** [self.skip(message)]. *)
Definition skip {A} (message : string) : io.M A :=
  io.throw py.Exception_ message.

(** [self.to_str(s)]: [repr(s).strip('b')]. *)
Definition to_str (s : string + list byte) : io.M unit :=
  io.write (repr.strip "b"
              match s with
              | inl text => repr.of_str text
              | inr b => repr.of_bytes b
              end).

(** [self.generic_visit(node)]. *)
Definition generic_visit {A} (node : ast.node) : io.M A :=
  io.throw py.Exception_
    ("Don't know what this thing is: " +:+ repr.of_type node).

(** [self.visit(None)]: [generic_visit] hands [None] to [ast.dump] for the
    log line, which raises. *)
Definition visit_None {A} : io.M A :=
  io.throw py.TypeError "expected AST, got 'NoneType'".

Definition opMap (op : ast.unaryop) : string :=
  match op with
  | ast.USub => "-"
  | ast.Not => "!"
  | ast.UAdd => "+"
  | ast.Invert => "~"
  end.

Definition binop_map (op : ast.operator) : py.result string :=
  match op with
  | ast.Add => py.ok " + "
  | ast.Sub => py.ok " - "
  | ast.Mult => py.ok " * "
  | ast.Div => py.ok " / "
  | ast.Mod => py.ok " % "
  | ast.Pow => py.ok " ** "
  | ast.BitAnd => py.ok " & "
  | ast.BitOr => py.ok " | "
  | _ => py.raise py.KeyError "operator"
  end.

Definition cmp_map (op : ast.cmpop) : py.result string :=
  match op with
  | ast.Lt => py.ok " < "
  | ast.Gt => py.ok " > "
  | ast.GtE => py.ok " >= "
  | ast.LtE => py.ok " <= "
  | ast.Eq => py.ok " == "
  | ast.NotEq => py.ok " != "
  | _ => py.raise py.KeyError "cmpop"
  end.

Section Methods.

Variable visit : ast.node -> io.M unit.

(** The loop of [join], entered with the flag [first] and returning it, so
    that a list given as [args + optargs] is walked part by part. *)
Definition join_from (sep : string) : bool -> list ast.node -> io.M bool :=
  fix go (first : bool) (items : list ast.node) : io.M bool :=
    match items with
    | [] => io.ret first
    | item :: items' =>
        (if first then io.ret tt else io.write sep) ;;
        visit item ;;
        go false items'
    end.

Definition join (sep : string) (items : list ast.node) : io.M unit :=
  join_from sep true items ;;
  io.ret tt.

(** The same loop over [items[:-1]]. *)
Definition join_init_from (sep : string) : bool -> list ast.node -> io.M bool :=
  fix go (first : bool) (items : list ast.node) : io.M bool :=
    match items with
    | [] => io.ret first
    | item :: items' =>
        match items' with
        | [] => io.ret first
        | _ :: _ =>
            (if first then io.ret tt else io.write sep) ;;
            visit item ;;
            go false items'
        end
    end.

(** [self.visit(items[-1])] for a list that is not empty. *)
Definition visit_last : list ast.node -> io.M unit :=
  fix go (items : list ast.node) : io.M unit :=
    match items with
    | [] => io.ret tt
    | item :: items' =>
        match items' with
        | [] => visit item
        | _ :: _ => go items'
        end
    end.

(** [self.visit(key)] for a key of a [Dict], [None] for an unpacked
    mapping. *)
Definition visit_key (key : option ast.node) : io.M unit :=
  match key with
  | Some k => visit k
  | None => visit_None
  end.

(** The loop [for k, v in zip(node.keys, node.values)] of [visit_Dict]. *)
Definition dict_pairs : bool -> list (option ast.node * ast.node) -> io.M unit :=
  fix go (first : bool) (items : list (option ast.node * ast.node))
    : io.M unit :=
    match items with
    | [] => io.ret tt
    | kv :: items' =>
        (if first then io.ret tt else io.write ", ") ;;
        visit_key (fst kv) ;;
        io.write " => " ;;
        visit (snd kv) ;;
        go false items'
    end.

(** The loop [for op, comparator in zip(node.ops, node.comparators)] of
    [visit_Compare]; [visit_left] is [self.visit(left)] for the current
    value of the variable [left], and [seen] tells whether [right] is not
    [None] any more. *)
Definition compare_chain
  : io.M unit -> bool -> list ast.cmpop -> list ast.node -> io.M unit :=
  fix go (visit_left : io.M unit) (seen : bool) (ops : list ast.cmpop)
         (comparators : list ast.node) {struct comparators} : io.M unit :=
    match comparators, ops with
    | comparator :: comparators', op :: ops' =>
        (if seen then io.write " && " else io.ret tt) ;;
        op_name <- io.lift (cmp_map op) ;;
        visit_left ;;
        io.write op_name ;;
        visit comparator ;;
        go (visit comparator) true ops' comparators'
    | _, _ => io.ret tt
    end.

(** [self.to_args(args, optargs)]. *)
Definition to_args (args optargs : list ast.node) : io.M unit :=
  match args, optargs with
  | [], [] => io.ret tt
  | _, _ =>
      io.write "(" ;;
      first <- join_from ", " true args ;;
      join_from ", " first optargs ;;
      io.write ")"
  end.

(** [self.to_args(args[:-1], optargs)]. *)
Definition to_args_init (args optargs : list ast.node) : io.M unit :=
  match removelast args, optargs with
  | [], [] => io.ret tt
  | _, _ =>
      io.write "(" ;;
      first <- join_init_from ", " true args ;;
      join_from ", " first optargs ;;
      io.write ")"
  end.

End Methods.

(** [self.visit(node)]. *)
Fixpoint visit (self : Visitor) (node : ast.node) {struct node} : io.M unit :=
  match node with
  | ast.keyword _ a value =>
      (* visit_keyword *)
      io.write a ;;
      io.write ": " ;;
      visit self value
  | ast.arg _ a =>
      (* visit_arg *)
      io.write a
  | ast.Assign _ targets value =>
      (* visit_Assign *)
      if negb (Nat.eqb (length targets) 1)
      then io.throw py.Exception_ "We only support assigning to one variable"
      else
        target <- io.lift (field.index targets 0) ;;
        id <- io.lift (ast.get_id target) ;;
        io.write id ;;
        io.write " = " ;;
        visit self value
  | ast.Str _ s =>
      (* visit_Str *)
      to_str (inl s)
  | ast.Bytes _ s =>
      (* visit_Bytes *)
      to_str (inr s) ;;
      io.write ".force_encoding('BINARY')"
  | ast.Name _ id =>
      (* visit_Name *)
      (if String.eqb id "frozenset"
       then skip "can't convert frozensets"
       else io.ret tt) ;;
      io.write (field.get [ ("True", "true"); ("False", "false");
                            ("None", "nil") ] id id)
  | ast.NameConstant _ value =>
      (* visit_NameConstant *)
      match value with
      | ast.None_ => io.write "nil"
      | ast.True_ => io.write "true"
      | ast.False_ => io.write "false"
      | ast.StrValue s =>
          io.throw py.Exception_ ("Don't know NameConstant with value " +:+ s)
      end
  | ast.Attribute _ value attr =>
      (* visit_Attribute *)
      visit self value ;;
      io.write "." ;;
      io.write attr
  | ast.Num _ n =>
      (* visit_Num *)
      io.write (repr.of_number n)
  | ast.Index _ value =>
      (* visit_Index *)
      visit self value
  | ast.Call _ func args keywords =>
      (* visit_Call *)
      match func with
      | ast.Attribute _ value attr =>
          if String.eqb attr "expr" && ast.is_name "r" value
          then visit self value
          else visit self func
      | _ => visit self func
      end ;;
      match field.last args with
      | inr (ast.Lambda _ _ _) =>
          to_args_init (visit self) args keywords ;;
          visit_last (visit self) args
      | _ => to_args (visit self) args keywords
      end
  | ast.Dict _ items =>
      (* visit_Dict *)
      io.write "{" ;;
      dict_pairs (visit self) true items ;;
      io.write "}"
  | ast.List _ elts | ast.Tuple _ elts =>
      (* visit_List; visit_Tuple calls it *)
      io.write "[" ;;
      join (visit self) ", " elts ;;
      io.write "]"
  | ast.Lambda _ args body =>
      (* visit_Lambda *)
      io.write "{|" ;;
      join (visit self) ", " args ;;
      io.write "| " ;;
      visit self body ;;
      io.write "}"
  | ast.Subscript _ value slice =>
      (* visit_Subscript *)
      visit self value ;;
      match slice with
      | ast.Index _ v =>
          io.write "[" ;;
          visit self v ;;
          io.write "]"
      | ast.Slice _ lower upper _ =>
          io.write "[(" ;;
          match lower with
          | Some l => visit self l
          | None => visit_None
          end ;;
          match upper with
          | Some u => io.write "..." ;; visit self u
          | None => io.write "..-1"
          end ;;
          io.write ")]"
      | _ => io.throw py.Exception_ "Not handling ExtSlice"
      end
  | ast.ListComp _ _ _ =>
      (* visit_ListComp *)
      io.throw py.Exception_ "list comprehension not implemented yet"
  | ast.UnaryOp _ op operand =>
      (* visit_UnaryOp *)
      io.write (opMap op) ;;
      visit self operand
  | ast.BinOp _ left_ op right_ =>
      (* visit_BinOp *)
      io.write "(" ;;
      visit self left_ ;;
      sym <- io.lift (binop_map op) ;;
      io.write sym ;;
      visit self right_ ;;
      io.write ")"
  | ast.Compare _ left_ ops comparators =>
      (* visit_Compare *)
      compare_chain (visit self) (visit self left_) false ops comparators
  | ast.Slice _ _ _ _ | ast.ExtSlice _ _ | ast.BoolOp _ _ _
  | ast.comprehension _ _ _ _ =>
      generic_visit node
  end.

(** [self.convert(node)]. *)
Definition convert (self : Visitor) (node : ast.node) : io.M string :=
  visit self node ;;
  io.getvalue.

(** [Visitor(reql_vars)] with [out] left [None], followed by
    [.convert(node)]: the text returned. *)
Definition emit (reql_vars : gset string) (node : ast.node)
  : py.result string :=
  py.rbind (convert (mkVisitor reql_vars) node EmptyString)
           (fun r => py.ok (fst r)).

End ruby_converter.

(** ** multireql.py *)

Module multireql.

Inductive lang : Type := rb | java.

(** [transpile_snippet(parsed_snippet, converter)]:
    [converter.Visitor().convert(parsed_snippet)], every argument of the
    constructor at its default. *)
Definition transpile_snippet (parsed_snippet : ast.node) (converter : lang)
  : py.result string :=
  match converter with
  | rb => ruby_converter.emit {["r"]} parsed_snippet
  | java =>
      java_converter.emit java_converter.Visitor_ {["r"]}
        java_converter.NoType false true parsed_snippet
  end.

End multireql.

(** ** Vocabulary of the statements *)

Module tree.

Local Open Scope nat_scope.

(** The number of nodes of a tree. *)
Fixpoint size (n : ast.node) : nat :=
  S match n with
    | ast.Name _ _ | ast.NameConstant _ _ | ast.Num _ _ | ast.Str _ _
    | ast.Bytes _ _ | ast.arg _ _ => 0
    | ast.Attribute _ v _ | ast.keyword _ _ v | ast.Index _ v
    | ast.UnaryOp _ _ v => size v
    | ast.Call _ f args kws =>
        size f + list_sum (map size args) + list_sum (map size kws)
    | ast.Subscript _ v s => size v + size s
    | ast.Slice _ l u s =>
        match l with Some x => size x | None => 0 end +
        match u with Some x => size x | None => 0 end +
        match s with Some x => size x | None => 0 end
    | ast.ExtSlice _ dims => list_sum (map size dims)
    | ast.Lambda _ args body => list_sum (map size args) + size body
    | ast.BinOp _ l _ r => size l + size r
    | ast.BoolOp _ _ vs => list_sum (map size vs)
    | ast.Compare _ l _ cs => size l + list_sum (map size cs)
    | ast.List _ es | ast.Tuple _ es => list_sum (map size es)
    | ast.Dict _ items =>
        list_sum (map (fun kv => match fst kv with
                                 | Some k => size k
                                 | None => 0
                                 end + size (snd kv)) items)
    | ast.ListComp _ e gens => size e + list_sum (map size gens)
    | ast.comprehension _ t i ifs => size t + size i + list_sum (map size ifs)
    | ast.Assign _ ts v => list_sum (map size ts) + size v
    end.

Definition is_arg (n : ast.node) : bool :=
  match n with ast.arg _ _ => true | _ => false end.

Definition is_keyword (n : ast.node) : bool :=
  match n with ast.keyword _ _ _ => true | _ => false end.


Definition opt_all (p : ast.node -> bool) (o : option ast.node) : bool :=
  match o with Some n => p n | None => true end.

(** The tree obeys the grammar where the type [ast.node] is wider than it:
    the parameters of a [Lambda] are [arg] nodes and the keywords of a
    [Call] are [keyword] nodes, throughout the tree; and no [Dict] unpacks
    a mapping: every entry has its key. *)
Fixpoint well_formed (n : ast.node) : bool :=
  match n with
  | ast.Name _ _ | ast.NameConstant _ _ | ast.Num _ _ | ast.Str _ _
  | ast.Bytes _ _ | ast.arg _ _ => true
  | ast.Attribute _ v _ | ast.keyword _ _ v | ast.Index _ v
  | ast.UnaryOp _ _ v => well_formed v
  | ast.Call _ f args kws =>
      well_formed f && forallb well_formed args &&
      forallb (fun k => is_keyword k && well_formed k) kws
  | ast.Subscript _ v s => well_formed v && well_formed s
  | ast.Slice _ l u s =>
      match l with Some x => well_formed x | None => true end &&
      match u with Some x => well_formed x | None => true end &&
      match s with Some x => well_formed x | None => true end
  | ast.ExtSlice _ dims => forallb well_formed dims
  | ast.Lambda _ args body => forallb is_arg args && well_formed body
  | ast.BinOp _ l _ r => well_formed l && well_formed r
  | ast.BoolOp _ _ vs => forallb well_formed vs
  | ast.Compare _ l _ cs => well_formed l && forallb well_formed cs
  | ast.List _ es | ast.Tuple _ es => forallb well_formed es
  | ast.Dict _ items =>
      forallb (fun kv => match fst kv with
                         | Some k => well_formed k
                         | None => false
                         end && well_formed (snd kv)) items
  | ast.ListComp _ e gens => well_formed e && forallb well_formed gens
  | ast.comprehension _ t i ifs =>
      well_formed t && well_formed i && forallb well_formed ifs
  | ast.Assign _ ts v => forallb well_formed ts && well_formed v
  end.

(** The nodes directly below a node. *)
Definition children (n : ast.node) : list ast.node :=
  match n with
  | ast.Name _ _ | ast.NameConstant _ _ | ast.Num _ _ | ast.Str _ _
  | ast.Bytes _ _ | ast.arg _ _ => []
  | ast.Attribute _ v _ | ast.keyword _ _ v | ast.Index _ v
  | ast.UnaryOp _ _ v => [v]
  | ast.Call _ f args kws => f :: args ++ kws
  | ast.Subscript _ v s => [v; s]
  | ast.Slice _ l u s => option_list l ++ option_list u ++ option_list s
  | ast.ExtSlice _ dims => dims
  | ast.Lambda _ args body => args ++ [body]
  | ast.BinOp _ l _ r => [l; r]
  | ast.BoolOp _ _ vs => vs
  | ast.Compare _ l _ cs => l :: cs
  | ast.List _ es | ast.Tuple _ es => es
  | ast.Dict _ items =>
      flat_map (fun kv => option_list (fst kv) ++ [snd kv])%list items
  | ast.ListComp _ e gens => e :: gens
  | ast.comprehension _ t i ifs => t :: i :: ifs
  | ast.Assign _ ts v => ts ++ [v]
  end.

(** The node classes [IsReql] has a [visit_<Class>] method for. *)
Definition has_rule (n : ast.node) : bool :=
  match n with
  | ast.Name _ _ | ast.Attribute _ _ _ | ast.Lambda _ _ _ | ast.Call _ _ _ _
  | ast.Subscript _ _ _ | ast.Index _ _ | ast.Slice _ _ _ _
  | ast.BinOp _ _ _ _ | ast.Compare _ _ _ _ | ast.UnaryOp _ _ _
  | ast.List _ _ | ast.Tuple _ _ | ast.Dict _ _ => true
  | _ => false
  end.

End tree.

(** The rules of the analyzer, as statements about [conversion_utils.visit];
    the visitor is the one [IsReql(reql_vars, passed_to_reql)] builds. *)

Module rules.

Import conversion_utils.

Definition is_pow (op : ast.operator) : bool :=
  match op with ast.Pow => true | _ => false end.

(** A [Call] takes the tag [t] of its callee, and each positional argument
    and each keyword value is analyzed with the same root names and the
    flag [ctx t passed_to_reql], where [ctx] says how the flag follows from
    the tag and the ambient flag. *)
Definition call_rule (ctx : bool -> bool -> bool)
    (reql_vars : option (gset string)) (passed_to_reql : bool)
    (t0 : ast.tag) (func : ast.node) (args keywords : list ast.node) : Prop :=
  let self := IsReql_init reql_vars passed_to_reql in
  exists (func' : ast.node) (t : bool) (args' keywords' : list ast.node),
    visit self (ast.Call t0 func args keywords)
      = inr (ast.Call (Some t) func' args' keywords') /\
    visit self func = inr func' /\
    ast.get_tag func' = Some t /\
    let pp := mkIsReql (conversion_utils.reql_vars self)
                       (ctx t passed_to_reql) in
    Forall2 (fun a a' => visit pp a = inr a') args args' /\
    Forall2 (fun k k' =>
               exists tk name value value',
                 k = ast.keyword tk name value /\
                 visit pp value = inr value' /\
                 k' = ast.keyword (Some t) name value')
            keywords keywords'.

(** A [Subscript] takes the tag [t] of its base, and its index or slice is
    analyzed with the same root names and the flag [ctx t passed_to_reql]. *)
Definition subscript_rule (ctx : bool -> bool -> bool)
    (reql_vars : option (gset string)) (passed_to_reql : bool)
    (t0 : ast.tag) (value slice : ast.node) : Prop :=
  let self := IsReql_init reql_vars passed_to_reql in
  exists (value' : ast.node) (t : bool) (slice' : ast.node),
    visit self (ast.Subscript t0 value slice)
      = inr (ast.Subscript (Some t) value' slice') /\
    visit self value = inr value' /\
    ast.get_tag value' = Some t /\
    visit (mkIsReql (conversion_utils.reql_vars self) (ctx t passed_to_reql))
          slice = inr slice'.

(** The flag is the tag: true when tagged, false when not. *)
Definition ctx_is_tag (t ambient : bool) : bool := t.

(** The flag is raised by a tag and otherwise left as it is. *)
Definition ctx_raised_by_tag (t ambient : bool) : bool := t || ambient.

End rules.

(** Definitions that follow the words of the specification, to be compared
    with the ones taken from the code. *)

Module spec.









(** The chunks between the underscores of [id], [current] being the chunk
    read so far. *)
Fixpoint chunks_from (current id : string) : list string :=
  match id with
  | EmptyString => [current]
  | String c rest =>
      if Ascii.eqb c "_" then current :: chunks_from EmptyString rest
      else chunks_from (current +:+ String c EmptyString) rest
  end.

Definition chunks : string -> list string := chunks_from EmptyString.










End spec.

(** The vocabulary of the statements about the emitters. *)

Module emitted.

(** A slice bound and the integer it stands for: an omitted bound stands for
    the default, a number literal for its value, and the negation of a
    number literal (how Python 3 parses [-2]) for the negated value. *)
Inductive bound_denotes (default : Z) : option ast.node -> Z -> Prop :=
| bound_omitted : bound_denotes default None default
| bound_literal (t : ast.tag) (z : Z) :
    bound_denotes default (Some (ast.Num t (ast.Int z))) z
| bound_negated (t t' : ast.tag) (z : Z) :
    bound_denotes default
      (Some (ast.UnaryOp t ast.USub (ast.Num t' (ast.Int z)))) (- z).

(** The option that marks a slice as closed on the right. *)
Definition right_closed : string :=
  ".optArg(" +:+ py.dq +:+ "right_bound" +:+ py.dq +:+ ", " +:+
  py.dq +:+ "closed" +:+ py.dq +:+ ")".



(** Converting a tree twice with one visitor, new at the first call, gives
    the same text twice. *)
Definition repeatable (convert : ast.node -> io.M string) : Prop :=
  forall (node : ast.node) (text1 out1 text2 out2 : string),
    convert node EmptyString = inr (text1, out1) ->
    convert node out1 = inr (text2, out2) ->
    text1 = text2.


(** A computation appends to the buffer what it appends to an empty one,
    whatever the buffer holds, and fails on one buffer as on another. *)
Definition framed {A} (m : io.M A) : Prop :=
  forall out : string,
    m out = match m EmptyString with
            | inl e => inl e
            | inr (a, text) => inr (a, out +:+ text)
            end.

End emitted.

(** ** Vocabulary of the further properties *)

Module shape.

(** The tree with every [is_reql] attribute removed. *)
Fixpoint erase (n : ast.node) : ast.node :=
  match n with
  | ast.Name _ id => ast.Name None id
  | ast.NameConstant _ v => ast.NameConstant None v
  | ast.Num _ k => ast.Num None k
  | ast.Str _ s => ast.Str None s
  | ast.Bytes _ s => ast.Bytes None s
  | ast.Attribute _ v a => ast.Attribute None (erase v) a
  | ast.Call _ f a k => ast.Call None (erase f) (map erase a) (map erase k)
  | ast.keyword _ a v => ast.keyword None a (erase v)
  | ast.Subscript _ v s => ast.Subscript None (erase v) (erase s)
  | ast.Index _ v => ast.Index None (erase v)
  | ast.Slice _ l u s =>
      ast.Slice None (option_map erase l) (option_map erase u)
                (option_map erase s)
  | ast.ExtSlice _ d => ast.ExtSlice None (map erase d)
  | ast.Lambda _ a b => ast.Lambda None (map erase a) (erase b)
  | ast.arg _ a => ast.arg None a
  | ast.UnaryOp _ o x => ast.UnaryOp None o (erase x)
  | ast.BinOp _ l o r => ast.BinOp None (erase l) o (erase r)
  | ast.BoolOp _ o v => ast.BoolOp None o (map erase v)
  | ast.Compare _ l o c => ast.Compare None (erase l) o (map erase c)
  | ast.List _ e => ast.List None (map erase e)
  | ast.Tuple _ e => ast.Tuple None (map erase e)
  | ast.Dict _ i =>
      ast.Dict None
        (map (fun kv => (option_map erase (fst kv), erase (snd kv))) i)
  | ast.ListComp _ e g => ast.ListComp None (erase e) (map erase g)
  | ast.comprehension _ x i f =>
      ast.comprehension None (erase x) (erase i) (map erase f)
  | ast.Assign _ x v => ast.Assign None (map erase x) (erase v)
  end.

End shape.

Module tags.

Definition is_true (n : ast.node) : bool :=
  match ast.get_tag n with
  | Some true => true
  | _ => false
  end.

Definition analyzed_opt (v : ast.node -> py.result ast.node)
    (o o' : option ast.node) : Prop :=
  match o, o' with
  | Some a, Some b => v a = inr b
  | None, None => True
  | _, _ => False
  end.

(** Some [Name] of the tree has its [id] among [names]. *)
Fixpoint mentions (names : gset string) (n : ast.node) : bool :=
  match n with
  | ast.Name _ id => bool_decide (id ∈ names)
  | ast.NameConstant _ _ | ast.Num _ _ | ast.Str _ _ | ast.Bytes _ _
  | ast.arg _ _ => false
  | ast.Attribute _ v _ | ast.keyword _ _ v | ast.Index _ v
  | ast.UnaryOp _ _ v => mentions names v
  | ast.Call _ f args kws =>
      mentions names f || existsb (mentions names) args
      || existsb (mentions names) kws
  | ast.Subscript _ v s => mentions names v || mentions names s
  | ast.Slice _ l u s =>
      match l with Some x => mentions names x | None => false end ||
      match u with Some x => mentions names x | None => false end ||
      match s with Some x => mentions names x | None => false end
  | ast.ExtSlice _ dims => existsb (mentions names) dims
  | ast.Lambda _ args body =>
      existsb (mentions names) args || mentions names body
  | ast.BinOp _ l _ r => mentions names l || mentions names r
  | ast.BoolOp _ _ vs => existsb (mentions names) vs
  | ast.Compare _ l _ cs => mentions names l || existsb (mentions names) cs
  | ast.List _ es | ast.Tuple _ es => existsb (mentions names) es
  | ast.Dict _ items =>
      existsb (fun kv => match fst kv with
                         | Some k => mentions names k
                         | None => false
                         end || mentions names (snd kv))
              items
  | ast.ListComp _ e gens => mentions names e || existsb (mentions names) gens
  | ast.comprehension _ t i ifs =>
      mentions names t || mentions names i || existsb (mentions names) ifs
  | ast.Assign _ ts v => existsb (mentions names) ts || mentions names v
  end.

Definition not_true (t : ast.tag) : bool :=
  match t with Some true => false | _ => true end.

(** No node of the tree carries the tag [True]. *)
Fixpoint none_true (n : ast.node) : bool :=
  not_true (ast.get_tag n) &&
  match n with
  | ast.Name _ _ | ast.NameConstant _ _ | ast.Num _ _ | ast.Str _ _
  | ast.Bytes _ _ | ast.arg _ _ => true
  | ast.Attribute _ v _ | ast.keyword _ _ v | ast.Index _ v
  | ast.UnaryOp _ _ v => none_true v
  | ast.Call _ f args kws =>
      none_true f && forallb none_true args && forallb none_true kws
  | ast.Subscript _ v s => none_true v && none_true s
  | ast.Slice _ l u s =>
      match l with Some x => none_true x | None => true end &&
      match u with Some x => none_true x | None => true end &&
      match s with Some x => none_true x | None => true end
  | ast.ExtSlice _ dims => forallb none_true dims
  | ast.Lambda _ args body => forallb none_true args && none_true body
  | ast.BinOp _ l _ r => none_true l && none_true r
  | ast.BoolOp _ _ vs => forallb none_true vs
  | ast.Compare _ l _ cs => none_true l && forallb none_true cs
  | ast.List _ es | ast.Tuple _ es => forallb none_true es
  | ast.Dict _ items =>
      forallb (fun kv => match fst kv with
                         | Some k => none_true k
                         | None => true
                         end && none_true (snd kv)) items
  | ast.ListComp _ e gens => none_true e && forallb none_true gens
  | ast.comprehension _ t i ifs =>
      none_true t && none_true i && forallb none_true ifs
  | ast.Assign _ ts v => forallb none_true ts && none_true v
  end.

(** No node carries the tag [True] and the root is tagged [False]. *)
Definition quiet (n : ast.node) : Prop :=
  none_true n = true /\ ast.get_tag n = Some false.

End tags.

Module buffer.

(** [visit] appends only, on every node of fewer than [k] nodes. *)
Definition below (k : nat) (visit : ast.node -> io.M unit) : Prop :=
  forall n, (tree.size n < k)%nat -> emitted.framed (visit n).

End buffer.

Module text.

(** The Java string literal [escape_string] writes for [s]. *)
Definition java_literal (s : string) : string :=
  py.dq +:+ repr.body java_converter.escape_char s +:+ py.dq.

(** The two hexadecimal digits of a character code. *)
Definition hex2 (c : ascii) : string :=
  String (repr.hex_digit (py.code c / 16))
    (String (repr.hex_digit (py.code c mod 16)) EmptyString).

(** [", ".join(items)]. *)
Definition comma_join (items : list string) : string :=
  String.concat ", " items.

End text.

Module blind.

(** [w] does on the tree without its tags what [v] does on the tree, for
    every tree of fewer than [k] nodes. *)
Definition below (k : nat) (v w : ast.node -> io.M unit) : Prop :=
  forall n, (tree.size n < k)%nat ->
            forall out : string, v n out = w (shape.erase n) out.

End blind.

Module reach.

Definition has_tag (t : ast.tag) : bool :=
  match t with Some _ => true | None => false end.

(** Every node of the tree carries a tag, the parameters of a [Lambda]
    apart, which are [arg] nodes. *)
Fixpoint flagged (n : ast.node) : bool :=
  has_tag (ast.get_tag n) &&
  match n with
  | ast.Name _ _ | ast.NameConstant _ _ | ast.Num _ _ | ast.Str _ _
  | ast.Bytes _ _ | ast.arg _ _ => true
  | ast.Attribute _ v _ | ast.keyword _ _ v | ast.Index _ v
  | ast.UnaryOp _ _ v => flagged v
  | ast.Call _ f args kws =>
      flagged f && forallb flagged args && forallb flagged kws
  | ast.Subscript _ v s => flagged v && flagged s
  | ast.Slice _ l u s =>
      match l with Some x => flagged x | None => true end &&
      match u with Some x => flagged x | None => true end &&
      match s with Some x => flagged x | None => true end
  | ast.ExtSlice _ dims => forallb flagged dims
  | ast.Lambda _ args body => forallb tree.is_arg args && flagged body
  | ast.BinOp _ l _ r => flagged l && flagged r
  | ast.BoolOp _ _ vs => forallb flagged vs
  | ast.Compare _ l _ cs => flagged l && forallb flagged cs
  | ast.List _ es | ast.Tuple _ es => forallb flagged es
  | ast.Dict _ items =>
      forallb (fun kv => match fst kv with
                         | Some k => flagged k
                         | None => true
                         end && flagged (snd kv)) items
  | ast.ListComp _ e gens => flagged e && forallb flagged gens
  | ast.comprehension _ t i ifs =>
      flagged t && flagged i && forallb flagged ifs
  | ast.Assign _ ts v => forallb flagged ts && flagged v
  end.

(** The tree is made of the nodes [IsReql] has a method for, of leaves, and
    of [keyword] nodes in the keywords of a [Call]; the parameters of a
    [Lambda] are [arg] nodes. *)
Fixpoint covered (n : ast.node) : bool :=
  match n with
  | ast.Name _ _ | ast.NameConstant _ _ | ast.Num _ _ | ast.Str _ _
  | ast.Bytes _ _ | ast.arg _ _ => true
  | ast.Attribute _ v _ | ast.Index _ v | ast.UnaryOp _ _ v => covered v
  | ast.Call _ f args kws =>
      covered f && forallb covered args &&
      forallb (fun k => match k with
                        | ast.keyword _ _ v => covered v
                        | _ => false
                        end) kws
  | ast.Subscript _ v s => covered v && covered s
  | ast.Slice _ l u s =>
      match l with Some x => covered x | None => true end &&
      match u with Some x => covered x | None => true end &&
      match s with Some x => covered x | None => true end
  | ast.Lambda _ args body => forallb tree.is_arg args && covered body
  | ast.BinOp _ l _ r => covered l && covered r
  | ast.Compare _ l _ cs => covered l && forallb covered cs
  | ast.List _ es | ast.Tuple _ es => forallb covered es
  | ast.Dict _ items =>
      forallb (fun kv => match fst kv with
                         | Some k => covered k
                         | None => false
                         end && covered (snd kv)) items
  | ast.keyword _ _ _ | ast.ExtSlice _ _ | ast.BoolOp _ _ _
  | ast.ListComp _ _ _ | ast.comprehension _ _ _ _ | ast.Assign _ _ _ =>
      false
  end.

End reach.

Module missing.

(** What reading the tag of a node that has none raises. *)
Definition tag_error : py.exn := py.Raise py.AttributeError "is_reql".

(** The computation never fails for want of a tag. *)
Definition never {A} (m : io.M A) : Prop :=
  forall out : string, m out <> inl tag_error.

(** The outcome is that failure. *)
Definition lacks_tag {A} (r : py.result A) : bool :=
  match r with
  | inl e =>
      py.exn_class_eqb (py.exn_kind e) py.AttributeError &&
      String.eqb (py.exn_msg e) "is_reql"
  | inr _ => false
  end.

(** The value of a keyword argument, the value under an attribute and the
    value of an index are visited without such a failure. *)
Definition keyword_value_found (visit : ast.node -> io.M unit)
    (kw : ast.node) : Prop :=
  match kw with
  | ast.keyword _ _ value => never (visit value)
  | _ => True
  end.

Definition attribute_value_found (visit : ast.node -> io.M unit)
    (func : ast.node) : Prop :=
  match func with
  | ast.Attribute _ value _ => never (visit value)
  | _ => True
  end.

Definition index_value_found (visit : ast.node -> io.M unit)
    (slice : ast.node) : Prop :=
  match slice with
  | ast.Index _ v => never (visit v)
  | _ => True
  end.

End missing.

(** * Theorems *)

(** ** Induction on the size of a tree *)

Lemma size_ind (P : ast.node -> Prop) :
  (forall n, (forall m, (tree.size m < tree.size n)%nat -> P m) -> P n) ->
  forall n, P n.
Proof.
  intros step n.
  remember (tree.size n) as k eqn:Hk.
  revert n Hk.
  induction k as [k IH] using lt_wf_ind.
  intros n ->. apply step. intros m Hm. exact (IH _ Hm m eq_refl).
Qed.

Lemma size_in (l : list ast.node) (x : ast.node) :
  In x l -> (tree.size x <= list_sum (map tree.size l))%nat.
Proof.
  induction l as [|y l IH]; simpl; [tauto|].
  intros [->|Hin]; [lia|]. specialize (IH Hin). lia.
Qed.

Lemma size_in_items (l : list (option ast.node * ast.node))
    (kv : option ast.node * ast.node) :
  In kv l ->
  (match fst kv with Some k => tree.size k | None => 0 end + tree.size (snd kv)
   <= list_sum (map (fun kv => match fst kv with
                               | Some k => tree.size k
                               | None => 0
                               end + tree.size (snd kv)) l))%nat.
Proof.
  induction l as [|y l IH]; simpl; [tauto|].
  intros [->|Hin]; [lia|]. specialize (IH Hin). lia.
Qed.

(** ** The result monad *)

Lemma mapM_Forall2 {A B} (f : A -> py.result B) (l : list A) :
  (forall a, In a l -> exists b, f a = inr b) ->
  exists l', py.mapM f l = inr l' /\ Forall2 (fun a b => f a = inr b) l l'.
Proof.
  induction l as [|a l IH]; intros H.
  - exists []. split; [reflexivity|constructor].
  - destruct (H a (or_introl eq_refl)) as [b Hb].
    destruct IH as [l' [Hl' HF]]; [intros; apply H; right; assumption|].
    exists (b :: l'). split.
    + simpl. rewrite Hb. simpl. fold (py.mapM f l). rewrite Hl'. reflexivity.
    + constructor; assumption.
Qed.

Lemma is_reql_tag (n : ast.node) (b : bool) :
  ast.get_tag n = Some b -> ast.is_reql n = inr b.
Proof. unfold ast.is_reql. intros ->. reflexivity. Qed.

(** ** The analyzer never fails on a well-formed tree *)

Import conversion_utils.

Definition tagged (r : py.result ast.node) : Prop :=
  exists n' b, r = inr n' /\ ast.get_tag n' = Some b.

Lemma tagged_inv r : tagged r -> exists n' b, r = inr n' /\ ast.is_reql n' = inr b /\ ast.get_tag n' = Some b.
Proof. intros (n' & b & -> & H). exists n', b. auto using is_reql_tag. Qed.

Lemma visit_comparators_total (v : ast.node -> py.result ast.node) comps :
  (forall c, In c comps -> tagged (v c)) ->
  forall l, exists t comps',
    visit_comparators v l comps = inr (t, comps') /\
    Forall2 (fun c c' => v c = inr c') comps comps'.
Proof.
  induction comps as [|c comps IH]; intros H l.
  - exists l, []. split; [reflexivity|constructor].
  - destruct (tagged_inv _ (H c (or_introl eq_refl))) as (c' & b & Hc & Hb & _).
    destruct (IH (fun x Hx => H x (or_intror Hx)) (if l then true else b))
      as (t & comps' & Hgo & HF).
    exists t, (c' :: comps'). split; [|constructor; assumption].
    simpl. rewrite Hc. simpl.
    replace (if l then py.ok true else ast.is_reql c')
      with (@inr py.exn bool (if l then true else b))
      by (destruct l; [reflexivity|symmetry; exact Hb]).
    simpl. fold (visit_comparators v). rewrite Hgo. reflexivity.
Qed.

Lemma forallb_In {A} (p : A -> bool) l x :
  forallb p l = true -> In x l -> p x = true.
Proof. intros H Hin. rewrite forallb_forall in H. auto. Qed.

Ltac split_wf :=
  repeat match goal with
         | H : (_ && _)%bool = true |- _ =>
             apply andb_true_iff in H; destruct H
         end.

Lemma visit_total (n : ast.node) :
  forall self, tree.well_formed n = true -> tagged (visit self n).
Proof.
  induction n as [n IH] using size_ind.
  intros self Hwf.
  destruct n; simpl in Hwf; split_wf;
    try (eexists _, _; split; reflexivity).
  - (* Attribute *)
    destruct (tagged_inv _ (IH n ltac:(simpl; lia) self ltac:(assumption))) as (v' & b & Hv & Hb & _).
    simpl. rewrite Hv. simpl. rewrite Hb. simpl.
    eexists _, _; split; reflexivity.
  - (* Call *)
    destruct (tagged_inv _ (IH n ltac:(simpl; lia) self ltac:(assumption))) as (f' & t & Hf & Ht & _).
    set (pp := if t then IsReql_init (Some (reql_vars self)) true else self).
    destruct (mapM_Forall2 (visit pp) args) as (args' & Ha & _).
    { intros a Hin. destruct (IH a) with (self := pp) as (a' & ? & -> & _).
      - pose proof (size_in _ _ Hin). simpl. lia.
      - eapply forallb_In; eassumption.
      - eauto. }
    destruct (mapM_Forall2 (visit_keyword_value (visit pp) t) keywords) as (kws' & Hk & _).
    { intros k Hin. pose proof (forallb_In _ _ _ ltac:(eassumption) Hin) as Hkw.
      apply andb_true_iff in Hkw. destruct Hkw as [Hkw Hwfk].
      destruct k; try discriminate. simpl in Hwfk.
      destruct (IH k) with (self := pp) as (v' & ? & Hv & _).
      - pose proof (size_in _ _ Hin). simpl in *. lia.
      - exact Hwfk.
      - simpl. rewrite Hv. eauto. }
    simpl. rewrite Hf. simpl. rewrite Ht. simpl. fold pp.
    rewrite Ha. simpl. rewrite Hk. simpl.
    eexists _, _; split; reflexivity.
  - (* Subscript *)
    destruct (tagged_inv _ (IH n1 ltac:(simpl; lia) self ltac:(assumption))) as (v' & t & Hv & Ht & _).
    set (pp := if t then IsReql_init (Some (reql_vars self)) true else self).
    destruct (IH n2 ltac:(simpl; lia) pp ltac:(assumption)) as (s' & ? & Hs & _).
    simpl. rewrite Hv. simpl. rewrite Ht. simpl. fold pp. rewrite Hs. simpl.
    eexists _, _; split; reflexivity.
  - (* Index *)
    destruct (IH n ltac:(simpl; lia) (IsReql_init (Some (reql_vars self)) false) ltac:(assumption))
      as (v' & ? & Hv & _).
    simpl. rewrite Hv. simpl. eexists _, _; split; reflexivity.
  - (* Slice *)
    set (pp := IsReql_init (Some (reql_vars self)) false).
    assert (Hopt : forall o, (match o with Some x => tree.size x | None => 0 end
                              < tree.size (ast.Slice is_reql lower upper step))%nat ->
                   match o with Some x => tree.well_formed x | None => true end = true ->
                   exists o', visit_opt (visit pp) o = inr o').
    { intros [x|] Hsz Hx; [|eexists; reflexivity].
      destruct (IH x Hsz pp Hx) as (x' & ? & Hx' & _).
      simpl. rewrite Hx'. eexists; reflexivity. }
    destruct (Hopt lower) as [l' Hl]; [simpl; lia|assumption|].
    destruct (Hopt upper) as [u' Hu]; [simpl; lia|assumption|].
    destruct (Hopt step) as [s' Hs]; [simpl; lia|assumption|].
    simpl. fold pp. rewrite Hl. simpl. rewrite Hs. simpl. rewrite Hu. simpl.
    eexists _, _; split; reflexivity.
  - (* Lambda *)
    assert (Hnames : exists names, py.mapM ast.get_arg args = inr names).
    { destruct (mapM_Forall2 ast.get_arg args) as (names & Hn & _); [|eauto].
      intros a Hin. pose proof (forallb_In _ _ _ ltac:(eassumption) Hin) as Ha.
      destruct a; try discriminate. eexists; reflexivity. }
    destruct Hnames as [names Hn].
    simpl. destruct (passed_to_reql self).
    + rewrite Hn. simpl.
      destruct (IH n ltac:(simpl; lia)
                  (IsReql_init (Some (reql_vars self ∪ list_to_set names)) false) ltac:(assumption))
        as (b' & ? & Hb & _).
      rewrite Hb. simpl. eexists _, _; split; reflexivity.
    + destruct (IH n ltac:(simpl; lia) (IsReql_init (Some (reql_vars self)) false) ltac:(assumption))
        as (b' & ? & Hb & _).
      rewrite Hb. simpl. eexists _, _; split; reflexivity.
  - (* UnaryOp *)
    destruct (tagged_inv _ (IH n ltac:(simpl; lia) self ltac:(assumption))) as (v' & b & Hv & Hb & _).
    simpl. rewrite Hv. simpl. rewrite Hb. simpl.
    eexists _, _; split; reflexivity.
  - (* BinOp *)
    destruct (tagged_inv _ (IH n1 ltac:(simpl; lia) self ltac:(assumption))) as (l' & bl & Hl & Hbl & _).
    destruct (tagged_inv _ (IH n2 ltac:(simpl; lia) self ltac:(assumption))) as (r' & br & Hr & Hbr & _).
    simpl. rewrite Hl. simpl. rewrite Hr. simpl.
    destruct op; simpl; rewrite ?Hbl; simpl; try (destruct bl; simpl; rewrite ?Hbr; simpl);
      eexists _, _; split; reflexivity.
  - (* Compare *)
    destruct (tagged_inv _ (IH n ltac:(simpl; lia) self ltac:(assumption))) as (l' & bl & Hl & Hbl & _).
    destruct (visit_comparators_total (visit self) comparators) with (l := bl)
      as (t & comps' & Hgo & _).
    { intros c Hin. apply IH.
      - pose proof (size_in _ _ Hin). simpl. lia.
      - eapply forallb_In; eassumption. }
    simpl. rewrite Hl. simpl. rewrite Hbl. simpl. rewrite Hgo. simpl.
    eexists _, _; split; reflexivity.
  - (* List *)
    destruct (mapM_Forall2 (visit self) elts) as (es' & He & _).
    { intros a Hin. destruct (IH a) with (self := self) as (a' & ? & -> & _).
      - pose proof (size_in _ _ Hin). simpl. lia.
      - eapply forallb_In; eassumption.
      - eauto. }
    simpl. rewrite He. simpl. eexists _, _; split; reflexivity.
  - (* Tuple *)
    destruct (mapM_Forall2 (visit self) elts) as (es' & He & _).
    { intros a Hin. destruct (IH a) with (self := self) as (a' & ? & -> & _).
      - pose proof (size_in _ _ Hin). simpl. lia.
      - eapply forallb_In; eassumption.
      - eauto. }
    simpl. rewrite He. simpl. eexists _, _; split; reflexivity.
  - (* Dict *)
    destruct (mapM_Forall2
                (fun kv => py.rbind (visit_key (visit self) (fst kv))
                             (fun key' =>
                           py.rbind (visit self (snd kv)) (fun value' =>
                           py.ok (key', value')))) items) as (is' & Hi & _).
    { intros kv Hin. pose proof (forallb_In _ _ _ ltac:(eassumption) Hin) as Hkv. simpl in Hkv.
      apply andb_true_iff in Hkv. destruct Hkv as [Hk Hv].
      pose proof (size_in_items _ _ Hin).
      destruct kv as [[k|] v]; [|discriminate Hk]. simpl in *.
      destruct (IH k) with (self := self) as (k' & ? & -> & _);
        [simpl; lia|assumption|].
      destruct (IH v) with (self := self) as (v' & ? & -> & _);
        [simpl; lia|assumption|].
      eexists; reflexivity. }
    simpl. rewrite Hi. simpl. eexists _, _; split; reflexivity.
Qed.

(** ** The rules of the analyzer *)

Lemma IsReql_init_nonempty (o : option (gset string)) (p : bool) :
  bool_decide (reql_vars (IsReql_init o p) = ∅) = false.
Proof.
  apply bool_decide_eq_false. unfold IsReql_init. simpl.
  destruct o as [s|]; [|set_solver].
  destruct (bool_decide (s = ∅)) eqn:E.
  - set_solver.
  - apply bool_decide_eq_false in E. exact E.
Qed.

Lemma IsReql_init_again (o : option (gset string)) (p q : bool) :
  IsReql_init (Some (reql_vars (IsReql_init o p))) q
  = mkIsReql (reql_vars (IsReql_init o p)) q.
Proof.
  unfold IsReql_init at 1. rewrite IsReql_init_nonempty. reflexivity.
Qed.

Lemma pp_raised (o : option (gset string)) (p t : bool) :
  (if t then IsReql_init (Some (reql_vars (IsReql_init o p))) true
   else IsReql_init o p)
  = mkIsReql (reql_vars (IsReql_init o p)) (rules.ctx_raised_by_tag t p).
Proof. destruct t; [apply IsReql_init_again|reflexivity]. Qed.

Lemma Forall2_refine {A B} (P Q : A -> B -> Prop) l l' :
  Forall2 P l l' -> (forall a b, In a l -> P a b -> Q a b) -> Forall2 Q l l'.
Proof.
  induction 1 as [|a b l l' Hab HF IH]; intros H; constructor.
  - apply H; [left; reflexivity|assumption].
  - apply IH. intros; apply H; [right|]; assumption.
Qed.

(** C6: a BinOp is tagged (op is not Pow) and (tag of left or tag of
    right), the operands being analyzed by the same visitor; with the
    exponent operator the tag is false whatever the operands' tags. *)
Theorem visit_BinOp_tag (self : IsReql) (t0 : ast.tag)
    (left_ : ast.node) (op : ast.operator) (right_ : ast.node) :
  tree.well_formed (ast.BinOp t0 left_ op right_) = true ->
  exists (left' right' : ast.node) (l r : bool),
    visit self left_ = inr left' /\ ast.get_tag left' = Some l /\
    visit self right_ = inr right' /\ ast.get_tag right' = Some r /\
    visit self (ast.BinOp t0 left_ op right_)
      = inr (ast.BinOp (Some (negb (rules.is_pow op) && (l || r)))
                       left' op right') /\
    (op = ast.Pow ->
     visit self (ast.BinOp t0 left_ op right_)
       = inr (ast.BinOp (Some false) left' op right')).
Proof.
  intros Hwf. simpl in Hwf. apply andb_true_iff in Hwf. destruct Hwf as [Hl Hr].
  destruct (tagged_inv _ (visit_total left_ self Hl)) as (l' & bl & Hvl & Hil & Htl).
  destruct (tagged_inv _ (visit_total right_ self Hr)) as (r' & br & Hvr & Hir & Htr).
  exists l', r', bl, br. repeat split; try assumption.
  - simpl. rewrite Hvl. simpl. rewrite Hvr. simpl.
    destruct op; simpl; rewrite ?Hil; simpl;
      try (destruct bl; simpl; rewrite ?Hir); reflexivity.
  - intros ->. simpl. rewrite Hvl. simpl. rewrite Hvr. reflexivity.
Qed.

Lemma visit_BinOp_tag_witness :
  exists (left' right' : ast.node) (l r : bool),
    visit (IsReql_init None false) (ast.Name None "r") = inr left' /\
    ast.get_tag left' = Some l /\
    visit (IsReql_init None false) (ast.Num None (ast.Int 2)) = inr right' /\
    ast.get_tag right' = Some r /\
    visit (IsReql_init None false)
          (ast.BinOp None (ast.Name None "r") ast.Pow (ast.Num None (ast.Int 2)))
      = inr (ast.BinOp (Some (negb (rules.is_pow ast.Pow) && (l || r)))
                       left' ast.Pow right') /\
    (ast.Pow = ast.Pow ->
     visit (IsReql_init None false)
          (ast.BinOp None (ast.Name None "r") ast.Pow (ast.Num None (ast.Int 2)))
       = inr (ast.BinOp (Some false) left' ast.Pow right')).
Proof.
  apply (visit_BinOp_tag (IsReql_init None false) None (ast.Name None "r")
           ast.Pow (ast.Num None (ast.Int 2))).
  reflexivity.
Defined.

Lemma visit_Call_eq self t0 func args keywords :
  visit self (ast.Call t0 func args keywords)
  = py.rbind (visit self func) (fun func' =>
    py.rbind (ast.is_reql func') (fun t =>
    let pp := if t then IsReql_init (Some (reql_vars self)) true else self in
    py.rbind (py.mapM (visit pp) args) (fun args' =>
    py.rbind (py.mapM (visit_keyword_value (visit pp) t) keywords)
             (fun keywords' =>
    py.ok (ast.Call (Some t) func' args' keywords'))))).
Proof. reflexivity. Qed.

Lemma visit_Subscript_eq self t0 value slice :
  visit self (ast.Subscript t0 value slice)
  = py.rbind (visit self value) (fun value' =>
    py.rbind (ast.is_reql value') (fun t =>
    let pp := if t then IsReql_init (Some (reql_vars self)) true else self in
    py.rbind (visit pp slice) (fun slice' =>
    py.ok (ast.Subscript (Some t) value' slice')))).
Proof. reflexivity. Qed.

(** C1 (as amended): a Call is tagged as its callee is, and its positional
    arguments and keyword values are analyzed with the same root names and
    with inheritedContext true when the call is tagged, and the call's own
    ambient inheritedContext when it is not. *)
Theorem visit_Call_rule (reql_vars : option (gset string))
    (passed_to_reql : bool) (t0 : ast.tag) (func : ast.node)
    (args keywords : list ast.node) :
  tree.well_formed (ast.Call t0 func args keywords) = true ->
  rules.call_rule rules.ctx_raised_by_tag reql_vars passed_to_reql
                  t0 func args keywords.
Proof.
  intros Hwf. simpl in Hwf. split_wf.
  unfold rules.call_rule.
  set (self := IsReql_init reql_vars passed_to_reql).
  destruct (tagged_inv _ (visit_total func self ltac:(assumption)))
    as (f' & t & Hf & Hif & Htf).
  pose proof (pp_raised reql_vars passed_to_reql t) as Hpp. fold self in Hpp.
  set (pp := mkIsReql (conversion_utils.reql_vars self)
                      (rules.ctx_raised_by_tag t passed_to_reql)) in *.
  destruct (mapM_Forall2 (visit pp) args) as (args' & Ha & HFa).
  { intros a Hin. destruct (visit_total a pp) as (a' & ? & -> & _); [|eauto].
    eapply forallb_In; eassumption. }
  destruct (mapM_Forall2 (visit_keyword_value (visit pp) t) keywords)
    as (kws' & Hk & HFk).
  { intros k Hin. pose proof (forallb_In _ _ _ ltac:(eassumption) Hin) as Hkw.
    apply andb_true_iff in Hkw. destruct Hkw as [Hkw Hwfk].
    destruct k; try discriminate. simpl in Hwfk.
    destruct (visit_total k pp Hwfk) as (v' & ? & Hv & _).
    simpl. rewrite Hv. eauto. }
  exists f', t, args', kws'. repeat split; try assumption.
  - rewrite visit_Call_eq, Hf. cbn [py.rbind]. rewrite Hif. cbn [py.rbind].
    cbv zeta. rewrite Hpp, Ha. cbn [py.rbind]. rewrite Hk. reflexivity.
  - eapply Forall2_refine; [exact HFk|].
    intros k k' Hin Hkk'.
    pose proof (forallb_In _ _ _ ltac:(eassumption) Hin) as Hkw.
    apply andb_true_iff in Hkw. destruct Hkw as [Hkw _].
    destruct k; try discriminate. simpl in Hkk'.
    destruct (visit pp k) as [e|v'] eqn:Hv; [discriminate|].
    simpl in Hkk'. injection Hkk' as <-.
    eexists _, _, _, _. split; [reflexivity|]. split; [exact Hv|reflexivity].
Qed.

Lemma visit_Call_rule_witness :
  rules.call_rule rules.ctx_raised_by_tag None true None
    (ast.Name None "f")
    [ast.Lambda None [ast.arg None "x"] (ast.Name None "x")]
    [ast.keyword None "default" (ast.Name None "r")].
Proof.
  apply (visit_Call_rule None true None (ast.Name None "f")
           [ast.Lambda None [ast.arg None "x"] (ast.Name None "x")]
           [ast.keyword None "default" (ast.Name None "r")]).
  reflexivity.
Defined.

(** C1 (as stated) fails: [f(lambda x: x)], met where the ambient
    inheritedContext is true (as an argument of [r.map(...)] it is), is not
    tagged, and yet its argument is analyzed with inheritedContext true: the
    lambda comes out tagged. *)
Lemma visit_Call_context_not_tag :
  ~ rules.call_rule rules.ctx_is_tag None true None
      (ast.Name None "f")
      [ast.Lambda None [ast.arg None "x"] (ast.Name None "x")]
      [].
Proof.
  intros (f' & t & args' & kws' & Hv & Hf & Ht & HFa & _).
  vm_compute in Hv. injection Hv as Et Ef Ea Ek. subst t args'.
  inversion HFa as [|a a' l l' Hlam _]; subst.
  vm_compute in Hlam. discriminate Hlam.
Qed.

(** The same call inside [r.map(...)], analyzed from the top with the
    defaults of [add_is_reql_flags]. *)
Example nested_untagged_call_tags_its_lambda :
  add_is_reql_flags
    (ast.Call None (ast.Attribute None (ast.Name None "r") "map")
       [ast.Call None (ast.Name None "f")
          [ast.Lambda None [ast.arg None "x"] (ast.Name None "x")] []] [])
    None false
  = inr (ast.Call (Some true)
           (ast.Attribute (Some true) (ast.Name (Some true) "r") "map")
           [ast.Call (Some false) (ast.Name (Some false) "f")
              [ast.Lambda (Some true) [ast.arg None "x"]
                 (ast.Name (Some true) "x")] []] []).
Proof. vm_compute. reflexivity. Qed.

(** C2 (as amended): a Subscript is tagged as its base is, and its index or
    slice is analyzed with the same root names and with inheritedContext
    true when the base is tagged, and the ambient inheritedContext, left as
    it is, when the base is not tagged. *)
Theorem visit_Subscript_rule (reql_vars : option (gset string))
    (passed_to_reql : bool) (t0 : ast.tag) (value slice : ast.node) :
  tree.well_formed (ast.Subscript t0 value slice) = true ->
  rules.subscript_rule rules.ctx_raised_by_tag reql_vars passed_to_reql
                       t0 value slice.
Proof.
  intros Hwf. simpl in Hwf. split_wf.
  unfold rules.subscript_rule.
  set (self := IsReql_init reql_vars passed_to_reql).
  destruct (tagged_inv _ (visit_total value self ltac:(assumption)))
    as (v' & t & Hv & Hiv & Htv).
  pose proof (pp_raised reql_vars passed_to_reql t) as Hpp. fold self in Hpp.
  set (pp := mkIsReql (conversion_utils.reql_vars self)
                      (rules.ctx_raised_by_tag t passed_to_reql)) in *.
  destruct (visit_total slice pp ltac:(assumption)) as (s' & ? & Hs & _).
  exists v', t, s'. repeat split; try assumption.
  rewrite visit_Subscript_eq, Hv. cbn [py.rbind]. rewrite Hiv. cbn [py.rbind].
  cbv zeta. rewrite Hpp, Hs. reflexivity.
Qed.

Lemma visit_Subscript_rule_witness :
  rules.subscript_rule rules.ctx_raised_by_tag None true None
    (ast.Name None "x") (ast.Index None (ast.Num None (ast.Int 1))).
Proof.
  apply (visit_Subscript_rule None true None (ast.Name None "x")
           (ast.Index None (ast.Num None (ast.Int 1)))).
  reflexivity.
Defined.

(** C2 (as stated) fails: in [x[1]], met where the ambient inheritedContext
    is true, the base is not tagged, and the index is still analyzed with
    inheritedContext true (its Index node comes out tagged), not with the
    flag reset to false. *)
Lemma visit_Subscript_context_not_reset :
  ~ rules.subscript_rule rules.ctx_is_tag None true None
      (ast.Name None "x") (ast.Index None (ast.Num None (ast.Int 1))).
Proof.
  intros (v' & t & s' & Hv & _ & _ & Hs).
  vm_compute in Hv. injection Hv as Et Ev Es. subst t s'.
  vm_compute in Hs. discriminate Hs.
Qed.

(** C10: a node of a class the analyzer has no rule for is tagged false and
    is not traversed: the call returns without an error, and the nodes below
    it are the very nodes they were, so none of them has received a tag. *)
Theorem generic_visit_untraversed (self : IsReql) (node : ast.node) :
  tree.has_rule node = false ->
  visit self node = inr (ast.set_is_reql false node) /\
  ast.get_tag (ast.set_is_reql false node) = Some false /\
  tree.children (ast.set_is_reql false node) = tree.children node.
Proof.
  intros H. destruct node; try discriminate H; repeat split.
Qed.

Lemma generic_visit_untraversed_witness :
  visit (IsReql_init None true)
        (ast.BoolOp None ast.And [ast.Name None "r"; ast.Name None "x"])
  = inr (ast.set_is_reql false
           (ast.BoolOp None ast.And [ast.Name None "r"; ast.Name None "x"])) /\
  ast.get_tag (ast.set_is_reql false
           (ast.BoolOp None ast.And [ast.Name None "r"; ast.Name None "x"]))
  = Some false /\
  tree.children (ast.set_is_reql false
           (ast.BoolOp None ast.And [ast.Name None "r"; ast.Name None "x"]))
  = tree.children (ast.BoolOp None ast.And [ast.Name None "r"; ast.Name None "x"]).
Proof.
  apply (generic_visit_untraversed (IsReql_init None true)
           (ast.BoolOp None ast.And [ast.Name None "r"; ast.Name None "x"])).
  reflexivity.
Defined.


(** ** Strings *)

Lemma append_assoc (a b c : string) : (a +:+ b) +:+ c = a +:+ (b +:+ c).
Proof.
  induction a as [|x a IH]; [reflexivity|].
  change (String x ((a +:+ b) +:+ c) = String x (a +:+ (b +:+ c))).
  f_equal. exact IH.
Qed.

Lemma append_empty_r (a : string) : a +:+ "" = a.
Proof.
  induction a as [|x a IH]; [reflexivity|].
  change (String x (a +:+ "") = String x a).
  f_equal. exact IH.
Qed.

(** ** The case converters *)





(** The character classes and the case mapping of the code are the ones of
    the specification, character by character. *)













Lemma split_hd_tl (sep : ascii) (s : string) :
  py.split sep s = hd EmptyString (py.split sep s) :: tl (py.split sep s).
Proof.
  destruct s as [|c s]; [reflexivity|].
  simpl. destruct (Ascii.eqb c sep); [reflexivity|].
  destruct (py.split sep s); reflexivity.
Qed.

(** The helpers of the code do what the words of the specification say. *)













(** ** The Java emitter *)

Lemma bind_run {A B} (m : io.M A) (f : A -> io.M B) (out out' : string) (a : A) :
  m out = inr (a, out') -> io.bind m f out = f a out'.
Proof. intros H. unfold io.bind. rewrite H. reflexivity. Qed.

Lemma bind_fail {A B} (m : io.M A) (f : A -> io.M B) (out : string) (e : py.exn) :
  m out = inl e -> io.bind m f out = inl e.
Proof. intros H. unfold io.bind. rewrite H. reflexivity. Qed.

Lemma get_bound_denotes (default : Z) (bound : option ast.node) (z : Z) :
  emitted.bound_denotes default bound z ->
  java_converter.get_bound bound (ast.Int default) = inr (ast.Int z).
Proof. intros []; reflexivity. Qed.

(** C7: in the ReQL visitor of the Java emitter a slice renders as a slice
    call whose lower bound defaults to 0 and whose upper bound defaults to
    -1, a negated number literal standing for the negative integer; the
    right-closed option follows exactly when the upper bound is omitted; and
    [data[-2:]] renders with the bounds (-2, -1) and that option. *)
Theorem slice_rendering :
  (forall (reql_vars : gset string) (type_ : option string)
          (_type : java_converter.py_type) (is_def smart_bracket : bool)
          (t t' : ast.tag) (value : ast.node)
          (lower upper step : option ast.node) (l u : Z) (out out' : string),
     let self := java_converter.mkVisitor java_converter.ReQLVisitor
                   reql_vars type_ _type is_def smart_bracket in
     emitted.bound_denotes 0 lower l ->
     emitted.bound_denotes (-1) upper u ->
     java_converter.visit self value out = inr (tt, out') ->
     java_converter.visit self
       (ast.Subscript t value (ast.Slice t' lower upper step)) out
     = inr (tt, out' +:+ ".slice(" +:+ py.repr_int l +:+ ", " +:+
                py.repr_int u +:+ ")" +:+
                match upper with
                | None => emitted.right_closed
                | Some _ => ""
                end)) /\
  java_converter.emit java_converter.ReQLVisitor {["r"]}
    java_converter.NoType false true
    (ast.Subscript None (ast.Name None "data")
       (ast.Slice None
          (Some (ast.UnaryOp None ast.USub (ast.Num None (ast.Int 2))))
          None None))
  = inr ("data.slice(-2, -1)" +:+ emitted.right_closed).
Proof.
  split; [|vm_compute; reflexivity].
  intros reql_vars type_ _type is_def smart_bracket t t' value lower upper step
         l u out out' self Hl Hu Hvalue.
  change (java_converter.visit self
            (ast.Subscript t value (ast.Slice t' lower upper step)) out)
    with (java_converter.ReQLVisitor_visit_Subscript
            (java_converter.visit self) self value
            (ast.Slice t' lower upper step) out).
  unfold java_converter.ReQLVisitor_visit_Subscript, io.bind.
  rewrite Hvalue.
  unfold java_converter.get_slice_bounds.
  rewrite (get_bound_denotes _ _ _ Hl), (get_bound_denotes _ _ _ Hu).
  cbn [py.rbind io.lift py.ok io.write repr.of_number].
  rewrite !append_assoc.
  destruct Hu; unfold io.write, io.ret, py.ok, emitted.right_closed;
    rewrite ?append_assoc, ?append_empty_r; reflexivity.
Qed.

Lemma slice_rendering_witness :
  java_converter.visit
    (java_converter.mkVisitor java_converter.ReQLVisitor {["r"]} None
       java_converter.NoType false true)
    (ast.Subscript None (ast.Name None "data")
       (ast.Slice None
          (Some (ast.UnaryOp None ast.USub (ast.Num None (ast.Int 2))))
          None None)) ""
  = inr (tt, "data" +:+ ".slice(" +:+ py.repr_int (- 2) +:+ ", " +:+
             py.repr_int (-1) +:+ ")" +:+ emitted.right_closed).
Proof.
  apply (proj1 slice_rendering {["r"]} None java_converter.NoType false true
           None None (ast.Name None "data")
           (Some (ast.UnaryOp None ast.USub (ast.Num None (ast.Int 2))))
           None None (- 2) (-1) "" "data").
  - exact (emitted.bound_negated 0 None None 2).
  - exact (emitted.bound_omitted (-1)).
  - reflexivity.
Defined.

(** C3: the Java emitter does not reject an assignment with several
    targets: [a = b = 1], tagged by the analyzer and converted with the
    declared type Long, yields the text of [a = 1], while the Ruby emitter
    raises on the same tree; and whatever follows the first target never
    changes what the Java emitter does. *)
Theorem java_assign_several_targets_not_rejected :
  py.rbind
    (conversion_utils.add_is_reql_flags
       (ast.Assign None [ast.Name None "a"; ast.Name None "b"]
          (ast.Num None (ast.Int 1)))
       None false)
    (java_converter.emit java_converter.Visitor_ {["r"]}
       (java_converter.TypeName "Long") false true)
  = inr "Long a = (Long) (1L);" /\
  py.rbind
    (conversion_utils.add_is_reql_flags
       (ast.Assign None [ast.Name None "a"; ast.Name None "b"]
          (ast.Num None (ast.Int 1)))
       None false)
    (ruby_converter.emit {["r"]})
  = inl (py.Raise py.Exception_ "We only support assigning to one variable") /\
  (forall (self : java_converter.Visitor) (t : ast.tag)
          (target : ast.node) (targets : list ast.node) (value : ast.node),
     java_converter.visit self (ast.Assign t (target :: targets) value)
     = java_converter.visit self (ast.Assign t [target] value)).
Proof.
  split; [vm_compute; reflexivity|].
  split; [vm_compute; reflexivity|].
  reflexivity.
Qed.

(** C4: the Java emitter puts the cast before the null-sentinel identifier
    but not before the null literal: [f(null)] renders with the cast,
    [f(None)] without it, and for a null literal [cast_null] does what a
    plain visit does. *)
Theorem java_null_literal_argument_not_cast :
  java_converter.emit java_converter.Visitor_ {["r"]}
    java_converter.NoType false true
    (ast.Call None (ast.Name None "f") [ast.Name None "null"] [])
  = inr "f((ReqlExpr) null)" /\
  java_converter.emit java_converter.Visitor_ {["r"]}
    java_converter.NoType false true
    (ast.Call None (ast.Name None "f") [ast.NameConstant None ast.None_] [])
  = inr "f(null)" /\
  (forall (visit : ast.node -> io.M unit) (t : ast.tag) (cast : string),
     java_converter.cast_null visit (ast.NameConstant t ast.None_) cast
     = visit (ast.NameConstant t ast.None_)).
Proof.
  split; [vm_compute; reflexivity|].
  split; [vm_compute; reflexivity|].
  reflexivity.
Qed.




(** * Further properties of the code *)

(** ** The analysis as a whole *)

Lemma rbind_inr {A B} (m : py.result A) (f : A -> py.result B) (b : B) :
  py.rbind m f = inr b -> exists a, m = inr a /\ f a = inr b.
Proof. destruct m as [e|a]; [discriminate|]. intros H. exists a. auto. Qed.

Lemma mapM_inr {A B} (f : A -> py.result B) (l : list A) (l' : list B) :
  py.mapM f l = inr l' -> Forall2 (fun a b => f a = inr b) l l'.
Proof.
  revert l'. induction l as [|a l IH]; intros l' H; simpl in H.
  - injection H as <-. constructor.
  - apply rbind_inr in H as (b & Hb & H).
    apply rbind_inr in H as (bs & Hbs & H).
    injection H as <-. constructor; [exact Hb|apply IH; exact Hbs].
Qed.

Lemma visit_comparators_inr (v : ast.node -> py.result ast.node) comps :
  forall l r, visit_comparators v l comps = inr r ->
              Forall2 (fun c c' => v c = inr c') comps (snd r).
Proof.
  induction comps as [|c comps IH]; intros l r H; simpl in H.
  - injection H as <-. constructor.
  - apply rbind_inr in H as (c' & Hc & H).
    apply rbind_inr in H as (b & Hb & H).
    apply rbind_inr in H as (r' & Hr & H).
    injection H as <-. simpl. constructor; [exact Hc|eapply IH; exact Hr].
Qed.

Lemma visit_key_inr (v : ast.node -> py.result ast.node)
    (key key' : option ast.node) :
  visit_key v key = inr key' ->
  exists k k', key = Some k /\ key' = Some k' /\ v k = inr k'.
Proof.
  destruct key as [k|]; simpl; [|discriminate].
  intros H. apply rbind_inr in H as (k' & Hk & H). injection H as <-.
  exists k, k'. auto.
Qed.

Lemma erase_set_is_reql (b : bool) (n : ast.node) :
  shape.erase (ast.set_is_reql b n) = shape.erase n.
Proof. destruct n; reflexivity. Qed.

Lemma erase_Forall2 (P : ast.node -> ast.node -> Prop) l l' :
  Forall2 P l l' ->
  (forall a b, In a l -> P a b -> shape.erase b = shape.erase a) ->
  map shape.erase l' = map shape.erase l.
Proof.
  induction 1 as [|a b l l' Hab HF IH]; intros H; simpl; [reflexivity|].
  rewrite (H a b (or_introl eq_refl) Hab), IH; [reflexivity|].
  intros; apply H; [right|]; assumption.
Qed.

Ltac inv_binds H :=
  repeat (let x := fresh "x" in
          let Hx := fresh "Hx" in
          apply rbind_inr in H as (x & Hx & H)).

Lemma visit_opt_erase (v : ast.node -> py.result ast.node) o o' :
  visit_opt v o = inr o' ->
  (forall a b, o = Some a -> v a = inr b -> shape.erase b = shape.erase a) ->
  option_map shape.erase o' = option_map shape.erase o.
Proof.
  destruct o as [a|]; simpl; intros H Hv.
  - apply rbind_inr in H as (b & Hb & H). injection H as <-. simpl.
    rewrite (Hv a b eq_refl Hb). reflexivity.
  - injection H as <-. reflexivity.
Qed.

Lemma visit_keyword_value_erase (v : ast.node -> py.result ast.node) t k k' :
  visit_keyword_value v t k = inr k' ->
  (forall a b, (tree.size a < tree.size k)%nat -> v a = inr b ->
               shape.erase b = shape.erase a) ->
  shape.erase k' = shape.erase k.
Proof.
  intros H Hv. destruct k; try discriminate H; simpl in H;
    apply rbind_inr in H as (b & Hb & H); injection H as <-; simpl;
    (erewrite Hv; [reflexivity|simpl; lia|exact Hb]).
Qed.

Ltac erase_child IH :=
  match goal with
  | Hx : visit _ ?c = inr ?x |- shape.erase ?x = shape.erase ?c =>
      apply (IH c ltac:(simpl; lia) _ _ Hx)
  end.

Lemma visit_erase (n : ast.node) :
  forall self n', visit self n = inr n' -> shape.erase n' = shape.erase n.
Proof.
  induction n as [n IH] using size_ind.
  intros self n' H.
  destruct n; cbn [visit] in H;
    try (injection H as <-; reflexivity).
  - (* Attribute *)
    inv_binds H. injection H as <-. simpl. f_equal. erase_child IH.
  - (* Call *)
    inv_binds H. injection H as <-. simpl. f_equal.
    + erase_child IH.
    + eapply erase_Forall2; [apply mapM_inr; eassumption|].
      intros a b Hin Hab. apply (IH a) in Hab; [exact Hab|].
      pose proof (size_in _ _ Hin). simpl. lia.
    + eapply erase_Forall2; [apply mapM_inr; eassumption|].
      intros a b Hin Hab. eapply visit_keyword_value_erase; [exact Hab|].
      intros c d Hsz Hcd. apply (IH c) in Hcd; [exact Hcd|].
      pose proof (size_in _ _ Hin). simpl. lia.
  - (* Subscript *)
    inv_binds H. injection H as <-. simpl. f_equal; erase_child IH.
  - (* Index *)
    inv_binds H. injection H as <-. simpl. f_equal. erase_child IH.
  - (* Slice *)
    inv_binds H. injection H as <-. simpl.
    f_equal; (eapply visit_opt_erase; [eassumption|]);
      intros a b -> Hab; apply (IH a) in Hab; try exact Hab; simpl; lia.
  - (* Lambda *)
    destruct (passed_to_reql self); inv_binds H; injection H as <-; simpl;
      f_equal; erase_child IH.
  - (* UnaryOp *)
    inv_binds H. injection H as <-. simpl. f_equal. erase_child IH.
  - (* BinOp *)
    inv_binds H. injection H as <-. simpl. f_equal; erase_child IH.
  - (* Compare *)
    inv_binds H. injection H as <-. simpl. f_equal.
    + erase_child IH.
    + eapply erase_Forall2; [eapply visit_comparators_inr; eassumption|].
      intros a b Hin Hab. apply (IH a) in Hab; [exact Hab|].
      pose proof (size_in _ _ Hin). simpl. lia.
  - (* List *)
    inv_binds H. injection H as <-. simpl. f_equal.
    eapply erase_Forall2; [apply mapM_inr; eassumption|].
    intros a b Hin Hab. apply (IH a) in Hab; [exact Hab|].
    pose proof (size_in _ _ Hin). simpl. lia.
  - (* Tuple *)
    inv_binds H. injection H as <-. simpl. f_equal.
    eapply erase_Forall2; [apply mapM_inr; eassumption|].
    intros a b Hin Hab. apply (IH a) in Hab; [exact Hab|].
    pose proof (size_in _ _ Hin). simpl. lia.
  - (* Dict *)
    inv_binds H. injection H as <-. simpl. f_equal.
    match goal with Hm : py.mapM _ items = inr ?x |- _ =>
      apply mapM_inr in Hm; induction Hm as [|kv kv' l l' Hkv HF IHl]
    end; [reflexivity|].
    simpl. inv_binds Hkv. injection Hkv as <-.
    match goal with
    | Hx : visit_key _ _ = inr _ |- _ =>
        apply visit_key_inr in Hx as (k & k' & Ek & -> & Hk)
    end.
    destruct kv as [key v]. simpl in Ek. subst key. simpl.
    f_equal.
    + f_equal; [f_equal|]; match goal with
        | Hx : visit _ ?c = inr ?x |- shape.erase ?x = shape.erase ?c =>
            apply (IH c ltac:(simpl; lia) _ _ Hx)
        end.
    + apply IHl. intros m Hm. apply IH. simpl in *. lia.
Qed.

Lemma mapM_fixed {A} (f : A -> py.result A) (l l' : list A) :
  Forall2 (fun a b => f a = inr b) l l' ->
  (forall a b, In a l -> f a = inr b -> f b = inr b) ->
  py.mapM f l' = inr l'.
Proof.
  induction 1 as [|a b l l' Hab HF IH]; intros H; [reflexivity|].
  simpl. rewrite (H a b (or_introl eq_refl) Hab). simpl.
  fold (py.mapM f l'). rewrite IH; [reflexivity|].
  intros; eapply H; [right|]; eassumption.
Qed.

Lemma visit_keyword_value_fixed (v : ast.node -> py.result ast.node) t k k' :
  visit_keyword_value v t k = inr k' ->
  (forall a b, (tree.size a < tree.size k)%nat -> v a = inr b -> v b = inr b) ->
  visit_keyword_value v t k' = inr k'.
Proof.
  intros H Hv. destruct k; try discriminate H; simpl in H;
    apply rbind_inr in H as (b & Hb & H); injection H as <-; simpl;
    pose proof (fun pf => Hv _ _ pf Hb) as Hbb;
    rewrite Hbb by (simpl; lia); reflexivity.
Qed.

Lemma visit_comparators_fixed (v : ast.node -> py.result ast.node) comps :
  forall l r,
    visit_comparators v l comps = inr r ->
    (forall a b, In a comps -> v a = inr b -> v b = inr b) ->
    visit_comparators v l (snd r) = inr r.
Proof.
  induction comps as [|c comps IH]; intros l r H Hv; simpl in H.
  - injection H as <-. reflexivity.
  - apply rbind_inr in H as (c' & Hc & H).
    apply rbind_inr in H as (b & Hb & H).
    apply rbind_inr in H as (r' & Hr & H).
    injection H as <-. simpl.
    rewrite (Hv c c' (or_introl eq_refl) Hc). simpl. rewrite Hb. simpl.
    fold (visit_comparators v).
    rewrite (IH _ _ Hr); [destruct r'; reflexivity|].
    intros; eapply Hv; [right|]; eassumption.
Qed.

Lemma visit_opt_fixed (v : ast.node -> py.result ast.node) o o' :
  visit_opt v o = inr o' ->
  (forall a b, o = Some a -> v a = inr b -> v b = inr b) ->
  visit_opt v o' = inr o'.
Proof.
  destruct o as [a|]; simpl; intros H Hv.
  - apply rbind_inr in H as (b & Hb & H). injection H as <-. simpl.
    rewrite (Hv a b eq_refl Hb). reflexivity.
  - injection H as <-. reflexivity.
Qed.

Ltac fixed_child IH :=
  repeat match goal with
  | Hx : visit ?s ?c = inr ?x |- context [visit ?s ?x] =>
      rewrite (IH c ltac:(simpl; lia) s x Hx); cbn [py.rbind]
  | Hx : ast.is_reql ?x = inr ?t |- context [ast.is_reql ?x] =>
      rewrite Hx; cbn [py.rbind]
  end.

Lemma visit_fixed (n : ast.node) :
  forall self n', visit self n = inr n' -> visit self n' = inr n'.
Proof.
  induction n as [n IH] using size_ind.
  intros self n' H.
  destruct n; cbn [visit] in H;
    try (injection H as <-; reflexivity).
  - (* Attribute *)
    inv_binds H. injection H as <-. cbn [visit]. fixed_child IH. reflexivity.
  - (* Call *)
    inv_binds H. injection H as <-. cbn [visit]. fixed_child IH.
    cbv zeta.
    erewrite mapM_fixed; [|apply mapM_inr; eassumption|].
    2:{ intros a b Hin Hab. apply (IH a) in Hab; [exact Hab|].
        pose proof (size_in _ _ Hin). simpl. lia. }
    cbn [py.rbind].
    erewrite mapM_fixed; [reflexivity|apply mapM_inr; eassumption|].
    intros a b Hin Hab. eapply visit_keyword_value_fixed; [exact Hab|].
    intros c d Hsz Hcd. apply (IH c) in Hcd; [exact Hcd|].
    pose proof (size_in _ _ Hin). simpl. lia.
  - (* Subscript *)
    inv_binds H. injection H as <-. cbn [visit]. fixed_child IH.
    cbv zeta. fixed_child IH. reflexivity.
  - (* Index *)
    inv_binds H. injection H as <-. cbn [visit]. fixed_child IH. reflexivity.
  - (* Slice *)
    inv_binds H. injection H as <-. cbn [visit]. cbv zeta.
    repeat (erewrite visit_opt_fixed; [cbn [py.rbind]|eassumption|
      intros a b -> Hab; apply (IH a) in Hab; try exact Hab; simpl; lia]).
    reflexivity.
  - (* Lambda *)
    destruct (passed_to_reql self) eqn:Hp; inv_binds H; injection H as <-;
      cbn [visit]; rewrite Hp;
      repeat match goal with
             | Hx : py.mapM _ _ = inr _ |- _ => rewrite Hx; cbn [py.rbind]
             end;
      cbv zeta; fixed_child IH; reflexivity.
  - (* UnaryOp *)
    inv_binds H. injection H as <-. cbn [visit]. fixed_child IH. reflexivity.
  - (* BinOp *)
    inv_binds H. injection H as <-. cbn [visit]. fixed_child IH.
    match goal with Hx : _ = inr ?t |- context [Some ?t] => rewrite Hx end.
    reflexivity.
  - (* Compare *)
    inv_binds H. injection H as <-. cbn [visit]. fixed_child IH.
    erewrite visit_comparators_fixed; [reflexivity|eassumption|].
    intros a b Hin Hab. apply (IH a) in Hab; [exact Hab|].
    pose proof (size_in _ _ Hin). simpl. lia.
  - (* List *)
    inv_binds H. injection H as <-. cbn [visit].
    erewrite mapM_fixed; [reflexivity|apply mapM_inr; eassumption|].
    intros a b Hin Hab. apply (IH a) in Hab; [exact Hab|].
    pose proof (size_in _ _ Hin). simpl. lia.
  - (* Tuple *)
    inv_binds H. injection H as <-. cbn [visit].
    erewrite mapM_fixed; [reflexivity|apply mapM_inr; eassumption|].
    intros a b Hin Hab. apply (IH a) in Hab; [exact Hab|].
    pose proof (size_in _ _ Hin). simpl. lia.
  - (* Dict *)
    inv_binds H. injection H as <-. cbn [visit].
    erewrite mapM_fixed; [reflexivity|apply mapM_inr; eassumption|].
    intros kv kv' Hin Hkv. cbv beta in Hkv. inv_binds Hkv. injection Hkv as <-.
    pose proof (size_in_items _ _ Hin).
    match goal with
    | Hx : visit_key _ _ = inr _ |- _ =>
        apply visit_key_inr in Hx as (k & k' & Ek & -> & Hk)
    end.
    destruct kv as [key v]. simpl in *. subst key.
    fixed_child IH. reflexivity.
Qed.

Lemma visit_comparators_tag (v : ast.node -> py.result ast.node) comps :
  forall l t comps',
    visit_comparators v l comps = inr (t, comps') ->
    t = l || existsb tags.is_true comps'.
Proof.
  induction comps as [|c comps IH]; intros l t comps' H; simpl in H.
  - injection H as <- <-. simpl. rewrite orb_false_r. reflexivity.
  - destruct (v c) as [e|c'] eqn:Hc; [discriminate|]. simpl in H.
    destruct l.
    + simpl in H.
      destruct (visit_comparators v true comps) as [e|[t' cs']] eqn:Hgo;
        [discriminate|].
      simpl in H. injection H as <- <-.
      rewrite (IH _ _ _ Hgo). reflexivity.
    + unfold ast.is_reql in H. unfold tags.is_true.
      destruct (ast.get_tag c') as [b|] eqn:Hb; [|discriminate]. simpl in H.
      destruct (visit_comparators v b comps) as [e|[t' cs']] eqn:Hgo;
        [discriminate|].
      simpl in H. injection H as <- <-.
      rewrite (IH _ _ _ Hgo). simpl. unfold tags.is_true. rewrite Hb.
      destruct b; reflexivity.
Qed.

Lemma unpacked_entry_raises (self : IsReql)
    (before : list (ast.node * ast.node)) (v : ast.node)
    (after : list (option ast.node * ast.node)) :
  forallb (fun kv => tree.well_formed (fst kv) && tree.well_formed (snd kv))
          before = true ->
  py.mapM (fun kv => py.rbind (visit_key (visit self) (fst kv)) (fun key' =>
                     py.rbind (visit self (snd kv)) (fun value' =>
                     py.ok (key', value'))))
          (ast.entries before ++ (None, v) :: after)%list
  = inl (py.Raise py.AttributeError "is_reql").
Proof.
  induction before as [|[k w] before IH]; intros Hb; [reflexivity|].
  simpl in Hb. apply andb_true_iff in Hb. destruct Hb as [Hkw Hb].
  apply andb_true_iff in Hkw. destruct Hkw as [Hk Hw].
  destruct (visit_total k self Hk) as (k' & ? & Ek & _).
  destruct (visit_total w self Hw) as (w' & ? & Ew & _).
  specialize (IH Hb).
  cbn [ast.entries map app py.mapM fst snd visit_key].
  unfold ast.entries in IH. cbn [py.mapM] in IH.
  rewrite Ek. cbn [py.rbind py.ok]. rewrite Ew. cbn [py.rbind py.ok].
  rewrite IH. reflexivity.
Qed.

(** X1: on a tree that obeys the grammar and unpacks no mapping in a dict
    display the analysis raises nothing and leaves the root tagged; a dict
    display that unpacks a mapping, whose key is [None], makes the analysis
    raise AttributeError at that entry. *)
Theorem analysis_never_fails (node : ast.node)
    (reql_vars : option (gset string)) (passed_to_reql : bool)
    (t : ast.tag) (before : list (ast.node * ast.node)) (v : ast.node)
    (after : list (option ast.node * ast.node)) :
  (tree.well_formed node = true ->
   exists (node' : ast.node) (b : bool),
     add_is_reql_flags node reql_vars passed_to_reql = inr node' /\
     ast.get_tag node' = Some b) /\
  (forallb (fun kv => tree.well_formed (fst kv) && tree.well_formed (snd kv))
           before = true ->
   add_is_reql_flags
     (ast.Dict t (ast.entries before ++ (None, v) :: after)%list)
     reql_vars passed_to_reql
   = inl (py.Raise py.AttributeError "is_reql")).
Proof.
  split.
  - intros H. exact (visit_total node _ H).
  - intros H. unfold add_is_reql_flags. cbn [visit].
    rewrite (unpacked_entry_raises _ before v after H). reflexivity.
Qed.

Lemma analysis_never_fails_witness :
  (exists (node' : ast.node) (b : bool),
     add_is_reql_flags
       (ast.Call None (ast.Attribute None (ast.Name None "r") "filter")
          [ast.Lambda None [ast.arg None "row"]
             (ast.Compare None
                (ast.Subscript None (ast.Name None "row")
                   (ast.Index None (ast.Str None "age")))
                [ast.Gt] [ast.Num None (ast.Int 18)])] [])
       None false = inr node' /\
     ast.get_tag node' = Some b) /\
  add_is_reql_flags
    (ast.Dict None
       (ast.entries [(ast.Str None "k", ast.Num None (ast.Int 1))]
        ++ (None, ast.Name None "a") :: [])%list)
    None false
  = inl (py.Raise py.AttributeError "is_reql").
Proof.
  split.
  - apply (proj1 (analysis_never_fails
             (ast.Call None (ast.Attribute None (ast.Name None "r") "filter")
                [ast.Lambda None [ast.arg None "row"]
                   (ast.Compare None
                      (ast.Subscript None (ast.Name None "row")
                         (ast.Index None (ast.Str None "age")))
                      [ast.Gt] [ast.Num None (ast.Int 18)])] [])
             None false None [] (ast.Name None "a") [])).
    reflexivity.
  - apply (proj2 (analysis_never_fails (ast.Name None "a") None false None
             [(ast.Str None "k", ast.Num None (ast.Int 1))]
             (ast.Name None "a") [])).
    reflexivity.
Defined.

Lemma entries_analyzed (self : IsReql) (items : list (ast.node * ast.node)) :
  forallb (fun kv => tree.well_formed (fst kv) && tree.well_formed (snd kv))
          items = true ->
  exists items',
    py.mapM (fun kv => py.rbind (visit_key (visit self) (fst kv)) (fun key' =>
                       py.rbind (visit self (snd kv)) (fun value' =>
                       py.ok (key', value'))))
            (ast.entries items)
    = inr (ast.entries items') /\
    Forall2 (fun kv kv' => visit self (fst kv) = inr (fst kv') /\
                           visit self (snd kv) = inr (snd kv'))
            items items'.
Proof.
  induction items as [|[k v] items IH]; intros Hi.
  - exists []. split; [reflexivity|constructor].
  - simpl in Hi. apply andb_true_iff in Hi. destruct Hi as [Hkv Hi].
    apply andb_true_iff in Hkv. destruct Hkv as [Hk Hv].
    destruct (visit_total k self Hk) as (k' & ? & Ek & _).
    destruct (visit_total v self Hv) as (v' & ? & Ev & _).
    destruct (IH Hi) as (items' & Hm & HF).
    exists ((k', v') :: items'). split.
    + cbn [ast.entries map py.mapM fst snd visit_key]. cbn [py.mapM] in Hm.
      unfold ast.entries in Hm. rewrite Ek. cbn [py.rbind py.ok].
      rewrite Ev. cbn [py.rbind py.ok]. rewrite Hm. reflexivity.
    + constructor; [split; assumption|exact HF].
Qed.

(** X2: List, Tuple and Dict nodes are tagged false whatever they hold, and
    each element, key and value is analyzed by the visitor of the
    container; the entries of the Dict all have their key. *)
Theorem containers_never_tagged (self : IsReql) (t : ast.tag)
    (elts : list ast.node) (items : list (ast.node * ast.node)) :
  forallb tree.well_formed elts = true ->
  forallb (fun kv => tree.well_formed (fst kv) && tree.well_formed (snd kv))
          items = true ->
  (exists elts',
     visit self (ast.List t elts) = inr (ast.List (Some false) elts') /\
     visit self (ast.Tuple t elts) = inr (ast.Tuple (Some false) elts') /\
     Forall2 (fun e e' => visit self e = inr e') elts elts') /\
  (exists items',
     visit self (ast.Dict t (ast.entries items))
       = inr (ast.Dict (Some false) (ast.entries items')) /\
     Forall2 (fun kv kv' => visit self (fst kv) = inr (fst kv') /\
                            visit self (snd kv) = inr (snd kv'))
             items items').
Proof.
  intros He Hi. split.
  - destruct (mapM_Forall2 (visit self) elts) as (es' & Hm & HF).
    { intros a Hin. destruct (visit_total a self) as (a' & ? & -> & _); [|eauto].
      eapply forallb_In; eassumption. }
    exists es'. cbn [visit]. rewrite Hm. auto.
  - destruct (entries_analyzed self items Hi) as (is' & Hm & HF).
    exists is'. cbn [visit]. rewrite Hm. split; [reflexivity|exact HF].
Qed.

Lemma containers_never_tagged_witness :
  (exists elts',
     visit (IsReql_init None true) (ast.List None [ast.Name None "r"])
       = inr (ast.List (Some false) elts') /\
     visit (IsReql_init None true) (ast.Tuple None [ast.Name None "r"])
       = inr (ast.Tuple (Some false) elts') /\
     Forall2 (fun e e' => visit (IsReql_init None true) e = inr e')
             [ast.Name None "r"] elts') /\
  (exists items',
     visit (IsReql_init None true)
           (ast.Dict None (ast.entries [(ast.Str None "k", ast.Name None "r")]))
       = inr (ast.Dict (Some false) (ast.entries items')) /\
     Forall2 (fun kv kv' =>
                visit (IsReql_init None true) (fst kv) = inr (fst kv') /\
                visit (IsReql_init None true) (snd kv) = inr (snd kv'))
             [(ast.Str None "k", ast.Name None "r")] items').
Proof.
  apply (containers_never_tagged (IsReql_init None true) None
           [ast.Name None "r"] [(ast.Str None "k", ast.Name None "r")]);
    reflexivity.
Defined.

Lemma IsReql_init_union (o : option (gset string)) (p q : bool)
    (names : gset string) :
  IsReql_init (Some (reql_vars (IsReql_init o p) ∪ names)) q
  = mkIsReql (reql_vars (IsReql_init o p) ∪ names) q.
Proof.
  unfold IsReql_init at 1.
  replace (bool_decide (reql_vars (IsReql_init o p) ∪ names = ∅)) with false;
    [reflexivity|].
  symmetry. apply bool_decide_eq_false. intros H.
  pose proof (IsReql_init_nonempty o p) as Hne.
  apply bool_decide_eq_false in Hne. apply Hne. set_solver.
Qed.

(** X3: a Lambda takes the ambient inheritedContext as its tag; its body is
    analyzed with inheritedContext false and, when the lambda is tagged,
    with the root names extended by the lambda's parameters, so that a
    parameter named in the body is tagged; an untagged lambda adds
    nothing. *)
Theorem visit_Lambda_rule (reql_vars : option (gset string))
    (passed_to_reql : bool) (t : ast.tag) (args : list ast.node)
    (body : ast.node) :
  tree.well_formed (ast.Lambda t args body) = true ->
  let self := IsReql_init reql_vars passed_to_reql in
  exists (names : list string) (body' : ast.node),
    py.mapM ast.get_arg args = inr names /\
    visit self (ast.Lambda t args body)
      = inr (ast.Lambda (Some passed_to_reql) args body') /\
    visit (mkIsReql (if passed_to_reql
                     then conversion_utils.reql_vars self ∪ list_to_set names
                     else conversion_utils.reql_vars self) false) body
      = inr body' /\
    (passed_to_reql = true ->
     forall (name : string) (tn : ast.tag),
       In name names ->
       visit (mkIsReql (conversion_utils.reql_vars self ∪ list_to_set names)
                       false)
             (ast.Name tn name)
       = inr (ast.Name (Some true) name)).
Proof.
  intros Hwf self. simpl in Hwf. apply andb_true_iff in Hwf.
  destruct Hwf as [Hargs Hbody].
  destruct (mapM_Forall2 ast.get_arg args) as (names & Hn & _).
  { intros a Hin. pose proof (forallb_In _ _ _ Hargs Hin) as Ha.
    destruct a; try discriminate. eexists; reflexivity. }
  set (child := mkIsReql (if passed_to_reql
                          then conversion_utils.reql_vars self ∪ list_to_set names
                          else conversion_utils.reql_vars self) false).
  destruct (visit_total body child Hbody) as (body' & ? & Hb & _).
  exists names, body'. split; [exact Hn|]. split; [|split; [exact Hb|]].
  - cbn [visit]. subst child. unfold self in *.
    change (conversion_utils.passed_to_reql
              (IsReql_init reql_vars passed_to_reql)) with passed_to_reql.
    destruct passed_to_reql.
    + rewrite Hn. cbn [py.rbind]. cbv zeta. rewrite IsReql_init_union, Hb.
      reflexivity.
    + rewrite IsReql_init_again, Hb. reflexivity.
  - intros _ name tn Hin. cbn [visit]. do 3 f_equal.
    apply bool_decide_eq_true. simpl.
    apply elem_of_union_r. apply elem_of_list_to_set.
    apply list_elem_of_In. exact Hin.
Qed.

Lemma visit_Lambda_rule_witness :
  let self := IsReql_init None true in
  exists (names : list string) (body' : ast.node),
    py.mapM ast.get_arg [ast.arg None "row"] = inr names /\
    visit self (ast.Lambda None [ast.arg None "row"] (ast.Name None "row"))
      = inr (ast.Lambda (Some true) [ast.arg None "row"] body') /\
    visit (mkIsReql (if true
                     then conversion_utils.reql_vars self ∪ list_to_set names
                     else conversion_utils.reql_vars self) false)
          (ast.Name None "row")
      = inr body' /\
    (true = true ->
     forall (name : string) (tn : ast.tag),
       In name names ->
       visit (mkIsReql (conversion_utils.reql_vars self ∪ list_to_set names)
                       false)
             (ast.Name tn name)
       = inr (ast.Name (Some true) name)).
Proof.
  apply (visit_Lambda_rule None true None [ast.arg None "row"]
           (ast.Name None "row")).
  reflexivity.
Defined.

(** X4: a Compare is tagged when its left operand or any of its comparators
    is, each of them analyzed by the visitor of the comparison. *)
Theorem visit_Compare_rule (self : IsReql) (t : ast.tag) (left_ : ast.node)
    (ops : list ast.cmpop) (comparators : list ast.node) :
  tree.well_formed (ast.Compare t left_ ops comparators) = true ->
  exists (left' : ast.node) (l : bool) (comparators' : list ast.node),
    visit self left_ = inr left' /\ ast.get_tag left' = Some l /\
    Forall2 (fun c c' => visit self c = inr c') comparators comparators' /\
    visit self (ast.Compare t left_ ops comparators)
      = inr (ast.Compare (Some (l || existsb tags.is_true comparators'))
                         left' ops comparators').
Proof.
  intros Hwf. simpl in Hwf. apply andb_true_iff in Hwf. destruct Hwf as [Hl Hc].
  destruct (tagged_inv _ (visit_total left_ self Hl)) as (l' & bl & Hvl & Hil & Htl).
  destruct (visit_comparators_total (visit self) comparators) with (l := bl)
    as (tc & comps' & Hgo & HF).
  { intros c Hin. apply visit_total. eapply forallb_In; eassumption. }
  exists l', bl, comps'. repeat split; try assumption.
  cbn [visit]. rewrite Hvl. cbn [py.rbind]. rewrite Hil. cbn [py.rbind].
  rewrite Hgo. cbn [py.rbind fst snd].
  rewrite (visit_comparators_tag _ _ _ _ _ Hgo). reflexivity.
Qed.

Lemma visit_Compare_rule_witness :
  exists (left' : ast.node) (l : bool) (comparators' : list ast.node),
    visit (IsReql_init None false) (ast.Num None (ast.Int 1)) = inr left' /\
    ast.get_tag left' = Some l /\
    Forall2 (fun c c' => visit (IsReql_init None false) c = inr c')
            [ast.Name None "r"] comparators' /\
    visit (IsReql_init None false)
          (ast.Compare None (ast.Num None (ast.Int 1)) [ast.Lt]
             [ast.Name None "r"])
      = inr (ast.Compare (Some (l || existsb tags.is_true comparators'))
                         left' [ast.Lt] comparators').
Proof.
  apply (visit_Compare_rule (IsReql_init None false) None
           (ast.Num None (ast.Int 1)) [ast.Lt] [ast.Name None "r"]).
  reflexivity.
Defined.

(** X5: an Index and a Slice take the ambient inheritedContext as their tag,
    and what they hold (the index value, each bound that is present) is
    analyzed afresh with inheritedContext false and the same root names. *)
Theorem visit_Index_Slice_rule (reql_vars : option (gset string))
    (passed_to_reql : bool) (t : ast.tag) (value : ast.node)
    (lower upper step : option ast.node) :
  tree.well_formed (ast.Index t value) = true ->
  tree.well_formed (ast.Slice t lower upper step) = true ->
  let self := IsReql_init reql_vars passed_to_reql in
  let fresh := mkIsReql (conversion_utils.reql_vars self) false in
  (exists value',
     visit self (ast.Index t value)
       = inr (ast.Index (Some passed_to_reql) value') /\
     visit fresh value = inr value') /\
  (exists lower' upper' step',
     visit self (ast.Slice t lower upper step)
       = inr (ast.Slice (Some passed_to_reql) lower' upper' step') /\
     tags.analyzed_opt (visit fresh) lower lower' /\
     tags.analyzed_opt (visit fresh) upper upper' /\
     tags.analyzed_opt (visit fresh) step step').
Proof.
  intros Hi Hs self fresh. simpl in Hi, Hs.
  assert (Hfresh : IsReql_init (Some (conversion_utils.reql_vars self)) false
                   = fresh) by apply IsReql_init_again.
  split.
  - destruct (visit_total value fresh Hi) as (v' & ? & Hv & _).
    exists v'. split; [|exact Hv].
    cbn [visit]. rewrite Hfresh, Hv. reflexivity.
  - assert (Hopt : forall o,
               match o with Some x => tree.well_formed x | None => true end = true ->
               exists o', visit_opt (visit fresh) o = inr o' /\
                          tags.analyzed_opt (visit fresh) o o').
    { intros [x|] Hx; [|exists None; split; [reflexivity|exact I]].
      destruct (visit_total x fresh Hx) as (x' & ? & Hx' & _).
      exists (Some x'). simpl. rewrite Hx'. auto. }
    apply andb_true_iff in Hs. destruct Hs as [Hs Hst].
    apply andb_true_iff in Hs. destruct Hs as [Hlo Hup].
    destruct (Hopt lower Hlo) as (l' & Hl & Al).
    destruct (Hopt upper Hup) as (u' & Hu & Au).
    destruct (Hopt step Hst) as (s' & Hs & As).
    exists l', u', s'. repeat split; try assumption.
    cbn [visit]. cbv zeta. rewrite Hfresh, Hl. cbn [py.rbind].
    rewrite Hs. cbn [py.rbind]. rewrite Hu. reflexivity.
Qed.

Lemma visit_Index_Slice_rule_witness :
  let self := IsReql_init None true in
  let fresh := mkIsReql (conversion_utils.reql_vars self) false in
  (exists value',
     visit self (ast.Index None (ast.Name None "r"))
       = inr (ast.Index (Some true) value') /\
     visit fresh (ast.Name None "r") = inr value') /\
  (exists lower' upper' step',
     visit self (ast.Slice None (Some (ast.Num None (ast.Int 1))) None None)
       = inr (ast.Slice (Some true) lower' upper' step') /\
     tags.analyzed_opt (visit fresh) (Some (ast.Num None (ast.Int 1))) lower' /\
     tags.analyzed_opt (visit fresh) None upper' /\
     tags.analyzed_opt (visit fresh) None step').
Proof.
  apply (visit_Index_Slice_rule None true None (ast.Name None "r")
           (Some (ast.Num None (ast.Int 1))) None None); reflexivity.
Defined.

(** X6: a missing or an empty set of root names is replaced by the single
    name [r], so the set of a visitor is never empty, and any other set is
    kept; with the default a name is tagged exactly when it is [r], and an
    analysis asked for with an empty set is the analysis with the
    default. *)
Theorem root_names_default (o : option (gset string)) (p : bool)
    (node : ast.node) (t : ast.tag) (id : string) :
  reql_vars (IsReql_init None p) = {["r"]} /\
  reql_vars (IsReql_init (Some ∅) p) = {["r"]} /\
  reql_vars (IsReql_init o p) <> ∅ /\
  (forall s, o = Some s -> s <> ∅ -> reql_vars (IsReql_init o p) = s) /\
  add_is_reql_flags (ast.Name t id) None p
    = inr (ast.Name (Some (String.eqb id "r")) id) /\
  add_is_reql_flags (ast.Name t id) (Some ∅) p
    = inr (ast.Name (Some (String.eqb id "r")) id) /\
  add_is_reql_flags node (Some ∅) p = add_is_reql_flags node None p.
Proof.
  assert (Hr : bool_decide (id ∈ ({["r"]} : gset string)) = String.eqb id "r").
  { destruct (String.eqb_spec id "r") as [->|Hne].
    - apply bool_decide_eq_true_2. set_solver.
    - apply bool_decide_eq_false_2. set_solver. }
  split; [reflexivity|]. split; [reflexivity|].
  split; [|split; [|split; [|split]]].
  - pose proof (IsReql_init_nonempty o p) as H.
    apply bool_decide_eq_false in H. exact H.
  - intros s -> Hs. unfold IsReql_init. simpl.
    rewrite (bool_decide_eq_false_2 _ Hs). reflexivity.
  - unfold add_is_reql_flags. cbn [visit]. do 3 f_equal. exact Hr.
  - unfold add_is_reql_flags. cbn [visit]. do 3 f_equal. exact Hr.
  - reflexivity.
Qed.

Lemma quiet_is_reql n t : tags.quiet n -> ast.is_reql n = inr t -> t = false.
Proof.
  intros [_ Ht] H. unfold ast.is_reql in H. rewrite Ht in H.
  injection H as <-. reflexivity.
Qed.

Lemma existsb_false_In {A} (p : A -> bool) l x :
  existsb p l = false -> In x l -> p x = false.
Proof.
  intros H Hin. destruct (p x) eqn:E; [|reflexivity].
  rewrite <- H. symmetry. apply existsb_exists. eauto.
Qed.

Lemma quiet_Forall2 (P : ast.node -> ast.node -> Prop) l l' :
  Forall2 P l l' ->
  (forall a b, In a l -> P a b -> tags.quiet b) ->
  forallb tags.none_true l' = true /\ existsb tags.is_true l' = false.
Proof.
  induction 1 as [|a b l l' Hab HF IH]; intros H; simpl; [auto|].
  destruct (H a b (or_introl eq_refl) Hab) as [Hn Ht].
  destruct IH as [IH1 IH2]; [intros; eapply H; [right|]; eassumption|].
  rewrite Hn, IH1. unfold tags.is_true at 1. rewrite Ht. auto.
Qed.

Lemma forallb_Forall2 {A B} (P : A -> B -> Prop) (q : B -> bool) l l' :
  Forall2 P l l' ->
  (forall a b, In a l -> P a b -> q b = true) ->
  forallb q l' = true.
Proof.
  induction 1 as [|a b l l' Hab HF IH]; intros H; simpl; [reflexivity|].
  rewrite (H a b (or_introl eq_refl) Hab), IH; [reflexivity|].
  intros; eapply H; [right|]; eassumption.
Qed.

Lemma same_visitor (self : IsReql) :
  passed_to_reql self = false ->
  bool_decide (reql_vars self = ∅) = false ->
  IsReql_init (Some (reql_vars self)) false = self.
Proof.
  destruct self as [vars ptr]. simpl. intros -> H.
  unfold IsReql_init. rewrite H. reflexivity.
Qed.

Ltac split_bools :=
  repeat match goal with
         | H : (_ || _)%bool = false |- _ =>
             apply orb_false_iff in H; destruct H
         | H : (_ && _)%bool = true |- _ =>
             apply andb_true_iff in H; destruct H
         end.

Ltac quiet_of IHc x Q :=
  match goal with
  | Hx : visit _ ?c = inr x |- _ =>
      assert (Q : tags.quiet x)
        by (apply (IHc c x); [simpl in *; lia|assumption|assumption|exact Hx])
  end.

Lemma visit_quiet (n : ast.node) :
  forall self n',
    passed_to_reql self = false ->
    bool_decide (reql_vars self = ∅) = false ->
    tags.mentions (reql_vars self) n = false ->
    tags.none_true n = true ->
    visit self n = inr n' ->
    tags.quiet n'.
Proof.
  induction n as [n IH] using size_ind.
  intros self n' Hp Hne Hm Hq H.
  pose proof (same_visitor self Hp Hne) as Hsame.
  assert (IHc : forall c c', (tree.size c < tree.size n)%nat ->
                 tags.mentions (reql_vars self) c = false ->
                 tags.none_true c = true ->
                 visit self c = inr c' -> tags.quiet c').
  { intros c c' Hsz Hmc Hqc Hc. exact (IH c Hsz self c' Hp Hne Hmc Hqc Hc). }
  clear IH.
  destruct n; cbn [visit] in H; simpl in Hm, Hq; split_bools;
    try (injection H as <-; split;
         [simpl; repeat (apply andb_true_iff; split); assumption
         |reflexivity]).
  - (* Name *)
    injection H as <-. rewrite Hm. split; reflexivity.
  - (* Attribute *)
    inv_binds H. injection H as <-.
    quiet_of IHc x Q.
    rewrite (quiet_is_reql _ _ Q Hx0). destruct Q. split; simpl; auto.
  - (* Call *)
    inv_binds H. injection H as <-.
    quiet_of IHc x Q.
    pose proof (quiet_is_reql _ _ Q Hx0) as ->. cbv zeta iota in *.
    destruct (quiet_Forall2 _ _ _ (mapM_inr _ _ _ Hx1)) as [Qa _].
    { intros a b Hin Hab. apply (IHc a b); [| | |exact Hab].
      - pose proof (size_in _ _ Hin). simpl. lia.
      - refine (existsb_false_In (tags.mentions _) _ _ _ Hin); assumption.
      - refine (forallb_In tags.none_true _ _ _ Hin); assumption. }
    destruct (quiet_Forall2 _ _ _ (mapM_inr _ _ _ Hx2)) as [Qk _].
    { intros k k' Hin Hk.
      assert (Hmk : tags.mentions (reql_vars self) k = false)
        by (refine (existsb_false_In (tags.mentions _) _ _ _ Hin); assumption).
      assert (Hqk : tags.none_true k = true)
        by (refine (forallb_In tags.none_true _ _ _ Hin); assumption).
      pose proof (size_in _ _ Hin) as Hsz.
      destruct k; try discriminate Hk; simpl in Hk, Hmk, Hqk, Hsz;
        split_bools; inv_binds Hk; injection Hk as <-;
        quiet_of IHc x0 Qv;
        destruct Qv; split; simpl;
        repeat (apply andb_true_iff; split); auto. }
    destruct Q. split; simpl; repeat (apply andb_true_iff; split); auto.
  - (* Subscript *)
    inv_binds H. injection H as <-.
    quiet_of IHc x Q.
    pose proof (quiet_is_reql _ _ Q Hx0) as ->. cbv zeta iota in *.
    quiet_of IHc x1 Q'.
    destruct Q, Q'. split; simpl; repeat (apply andb_true_iff; split); auto.
  - (* Index *)
    inv_binds H. injection H as <-. rewrite Hsame in *.
    quiet_of IHc x Q.
    destruct Q. rewrite Hp. split; simpl; auto.
  - (* Slice *)
    cbv zeta in H. rewrite Hsame in H.
    assert (Hopt : forall o o',
               (match o with Some x => tree.size x | None => 0 end
                < tree.size (ast.Slice is_reql lower upper step))%nat ->
               match o with Some x => tags.mentions (reql_vars self) x
                          | None => false end = false ->
               match o with Some x => tags.none_true x | None => true end = true ->
               visit_opt (visit self) o = inr o' ->
               match o' with Some x => tags.none_true x | None => true end = true).
    { intros [a|] o' Hsz Hma Hqa Ho; simpl in Ho.
      - inv_binds Ho. injection Ho as <-.
        destruct (IHc a x Hsz Hma Hqa Hx). assumption.
      - injection Ho as <-. reflexivity. }
    inv_binds H. injection H as <-. rewrite Hp.
    split; [|reflexivity]. simpl.
    repeat (apply andb_true_iff; split);
      (eapply Hopt; [| | |eassumption]; try assumption; simpl; lia).
  - (* Lambda *)
    rewrite Hp in H. rewrite Hsame in H.
    inv_binds H. injection H as <-.
    quiet_of IHc x Q.
    destruct Q. split; simpl; repeat (apply andb_true_iff; split); auto.
  - (* UnaryOp *)
    inv_binds H. injection H as <-.
    quiet_of IHc x Q.
    rewrite (quiet_is_reql _ _ Q Hx0). destruct Q. split; simpl; auto.
  - (* BinOp *)
    inv_binds H. injection H as <-.
    quiet_of IHc x Q1.
    quiet_of IHc x0 Q2.
    assert (x1 = false) as ->.
    { destruct op; try (injection Hx1 as <-; reflexivity);
        apply rbind_inr in Hx1 as (l & Hl & Hx1);
        rewrite (quiet_is_reql _ _ Q1 Hl) in Hx1;
        exact (quiet_is_reql _ _ Q2 Hx1). }
    destruct Q1, Q2. split; simpl; repeat (apply andb_true_iff; split); auto.
  - (* Compare *)
    inv_binds H. injection H as <-.
    quiet_of IHc x Q.
    pose proof (quiet_is_reql _ _ Q Hx0) as ->.
    destruct x1 as [tc comps'].
    destruct (quiet_Forall2 _ _ _ (visit_comparators_inr _ _ _ _ Hx1)) as [Qa Qe].
    { intros a b Hin Hab. apply (IHc a b); [| | |exact Hab].
      - pose proof (size_in _ _ Hin). simpl. lia.
      - refine (existsb_false_In (tags.mentions _) _ _ _ Hin); assumption.
      - refine (forallb_In tags.none_true _ _ _ Hin); assumption. }
    rewrite (visit_comparators_tag _ _ _ _ _ Hx1). simpl in *. rewrite Qe.
    destruct Q. split; simpl; repeat (apply andb_true_iff; split); auto.
  - (* List *)
    inv_binds H. injection H as <-.
    destruct (quiet_Forall2 _ _ _ (mapM_inr _ _ _ Hx)) as [Qa _].
    { intros a b Hin Hab. apply (IHc a b); [| | |exact Hab].
      - pose proof (size_in _ _ Hin). simpl. lia.
      - refine (existsb_false_In (tags.mentions _) _ _ _ Hin); assumption.
      - refine (forallb_In tags.none_true _ _ _ Hin); assumption. }
    split; simpl; auto.
  - (* Tuple *)
    inv_binds H. injection H as <-.
    destruct (quiet_Forall2 _ _ _ (mapM_inr _ _ _ Hx)) as [Qa _].
    { intros a b Hin Hab. apply (IHc a b); [| | |exact Hab].
      - pose proof (size_in _ _ Hin). simpl. lia.
      - refine (existsb_false_In (tags.mentions _) _ _ _ Hin); assumption.
      - refine (forallb_In tags.none_true _ _ _ Hin); assumption. }
    split; simpl; auto.
  - (* Dict *)
    inv_binds H. injection H as <-.
    split; [|reflexivity]. simpl.
    apply mapM_inr in Hx. eapply forallb_Forall2; [exact Hx|].
    intros kv kv' Hin Hkv. cbv beta in Hkv.
    inv_binds Hkv. injection Hkv as <-.
    pose proof (existsb_false_In _ _ _ Hm Hin) as Hmk. simpl in Hmk.
    match goal with
    | Hq : forallb _ items = true |- _ =>
        pose proof (forallb_In _ _ _ Hq Hin) as Hqk
    end. simpl in Hqk.
    pose proof (size_in_items _ _ Hin).
    match goal with
    | Hk : visit_key _ _ = inr _ |- _ =>
        apply visit_key_inr in Hk as (k & k' & Ek & -> & Hk)
    end.
    destruct kv as [key v]. simpl in *. subst key.
    split_bools.
    quiet_of IHc k' Q1.
    quiet_of IHc x1 Q2.
    destruct Q1, Q2. simpl. apply andb_true_iff; split; assumption.
Qed.

(** ** The emitters only append to the buffer *)

Section Framed.

Import emitted.

Lemma framed_ret {A} (a : A) : framed (io.ret a).
Proof. intros out. unfold io.ret, py.ok. rewrite append_empty_r. reflexivity. Qed.

Lemma framed_write (s : string) : framed (io.write s).
Proof. intros out. reflexivity. Qed.

Lemma framed_throw {A} (k : py.exn_class) (msg : string) :
  framed (@io.throw A k msg).
Proof. intros out. reflexivity. Qed.

Lemma framed_lift {A} (r : py.result A) : framed (io.lift r).
Proof.
  intros out. destruct r as [e|a]; [reflexivity|].
  unfold io.lift, py.ok. rewrite append_empty_r. reflexivity.
Qed.

Lemma framed_bind {A B} (m : io.M A) (f : A -> io.M B) :
  framed m -> (forall a, framed (f a)) -> framed (io.bind m f).
Proof.
  intros Hm Hf out. unfold io.bind. rewrite (Hm out).
  destruct (m "") as [e|[a text]]; [reflexivity|].
  rewrite (Hf a (out +:+ text)), (Hf a text).
  destruct (f a "") as [e|[b text']]; [reflexivity|].
  rewrite append_assoc. reflexivity.
Qed.

End Framed.

Ltac frame_monad :=
  lazymatch goal with
  | |- emitted.framed (io.bind _ _) => apply framed_bind; [|intros ?]
  | |- emitted.framed (io.ret _) => apply framed_ret
  | |- emitted.framed (io.write _) => apply framed_write
  | |- emitted.framed (io.throw _ _) => apply framed_throw
  | |- emitted.framed (io.lift _) => apply framed_lift
  | |- emitted.framed (match ?x with _ => _ end) => destruct x
  end.

Ltac frame_sizes := simpl in *; lia.

Section FramedJava.

Import emitted java_converter.

Lemma framed_escape_chars (s : string) : framed (escape_chars s).
Proof. induction s as [|c s IH]; simpl; repeat frame_monad. exact IH. Qed.

Lemma framed_to_str (s : string) : framed (to_str s).
Proof.
  unfold to_str, escape_string. repeat frame_monad. apply framed_escape_chars.
Qed.

Lemma framed_skip {A} (message : string) : framed (@skip A message).
Proof. apply framed_throw. Qed.

Lemma framed_generic_visit {A} (node : ast.node) : framed (@generic_visit A node).
Proof. apply framed_throw. Qed.

Lemma framed_write_bytes (bytes : list byte) (i : nat) : framed (write_bytes i bytes).
Proof.
  revert i. induction bytes as [|b bytes IH]; intros i; simpl; repeat frame_monad.
  apply IH.
Qed.

Lemma framed_skip_if_arity_check func args : framed (skip_if_arity_check func args).
Proof.
  unfold skip_if_arity_check. repeat frame_monad. apply framed_skip.
Qed.

Variable visit : ast.node -> io.M unit.
Variable k : nat.
Hypothesis Hb : buffer.below k visit.

Lemma framed_join_from sep items first :
  (list_sum (map tree.size items) < k)%nat ->
  framed (join_from visit sep first items).
Proof.
  revert first. induction items as [|item items IH]; intros first Hsz; simpl.
  - apply framed_ret.
  - repeat frame_monad.
    + apply Hb. frame_sizes.
    + apply IH. frame_sizes.
Qed.

Lemma framed_cast_null arg cast :
  (tree.size arg < k)%nat -> framed (cast_null visit arg cast).
Proof.
  intros Hsz. unfold cast_null. apply framed_bind; [|intros ?; apply Hb; exact Hsz].
  repeat frame_monad.
Qed.

Lemma framed_cast_rest rest :
  (list_sum (map tree.size rest) < k)%nat -> framed (cast_rest visit rest).
Proof.
  induction rest as [|arg rest IH]; intros Hsz; simpl.
  - apply framed_ret.
  - apply framed_bind; [apply framed_write|intros ?].
    apply framed_bind; [apply framed_cast_null; frame_sizes|intros ?].
    apply IH. frame_sizes.
Qed.

Lemma framed_chain_optargs optargs :
  (list_sum (map tree.size optargs) < k)%nat ->
  framed (chain_optargs visit optargs).
Proof.
  induction optargs as [|optarg optargs IH]; intros Hsz; simpl.
  - apply framed_ret.
  - apply framed_bind; [apply framed_write|intros ?].
    apply framed_bind; [apply framed_lift|intros ?].
    apply framed_bind; [apply framed_to_str|intros ?].
    apply framed_bind; [apply framed_write|intros ?].
    apply framed_bind; [|intros ?].
    + destruct optarg; try apply framed_throw. apply Hb. frame_sizes.
    + apply framed_bind; [apply framed_write|intros ?]. apply IH. frame_sizes.
Qed.

Lemma framed_to_args args optargs :
  (list_sum (map tree.size args) + list_sum (map tree.size optargs) < k)%nat ->
  framed (to_args visit args optargs).
Proof.
  intros Hsz. unfold to_args.
  apply framed_bind; [apply framed_write|intros ?].
  apply framed_bind; [|intros ?].
  - destruct args as [|arg0 rest]; [apply framed_ret|].
    apply framed_bind; [apply framed_cast_null; frame_sizes|intros ?].
    apply framed_cast_rest. frame_sizes.
  - apply framed_bind; [apply framed_write|intros ?].
    apply framed_chain_optargs. lia.
Qed.

Lemma framed_visit_key key :
  (match key with Some x => tree.size x | None => 0 end < k)%nat ->
  framed (visit_key visit key).
Proof.
  intros Hsz. destruct key as [x|]; simpl; [apply Hb; exact Hsz|].
  apply framed_throw.
Qed.

Lemma framed_with_pairs rest :
  (list_sum (map (fun kv => match fst kv with
                            | Some x => tree.size x
                            | None => 0
                            end + tree.size (snd kv)) rest) < k)%nat ->
  framed (with_pairs visit rest).
Proof.
  induction rest as [|kv rest IH]; intros Hsz; simpl.
  - apply framed_ret.
  - apply framed_bind; [apply framed_write|intros ?].
    apply framed_bind; [apply framed_visit_key; frame_sizes|intros ?].
    apply framed_bind; [apply framed_write|intros ?].
    apply framed_bind; [apply Hb; frame_sizes|intros ?].
    apply IH. frame_sizes.
Qed.

Lemma framed_convert_if_string_encode func args :
  (tree.size func < k)%nat -> framed (convert_if_string_encode visit func args).
Proof.
  intros Hsz. unfold convert_if_string_encode.
  destruct func; try apply framed_ret.
  match goal with |- framed (match ?x with _ => _ end) => destruct x end;
    [apply framed_ret|].
  apply framed_bind; [apply framed_lift|intros ?].
  apply framed_bind; [apply Hb; frame_sizes|intros ?].
  repeat frame_monad.
Qed.

Lemma framed_Visitor_visit_Attribute value attr emit_parens :
  (tree.size value < k)%nat ->
  framed (Visitor_visit_Attribute visit value attr emit_parens).
Proof.
  intros Hsz. unfold Visitor_visit_Attribute.
  apply framed_bind; [|intros ?; repeat frame_monad].
  destruct (ast.is_name "r" value && (attr =? "ast")%string); [apply framed_ret|].
  apply framed_bind; [apply Hb; exact Hsz|intros ?; apply framed_write].
Qed.

Lemma framed_ReQLVisitor_visit_Attribute value attr emit_parens :
  (tree.size value < k)%nat ->
  framed (ReQLVisitor_visit_Attribute visit value attr emit_parens).
Proof.
  intros Hsz. unfold ReQLVisitor_visit_Attribute.
  apply framed_bind; [|intros ?].
  { repeat frame_monad. apply framed_skip. }
  apply framed_bind; [apply framed_lift|intros ?].
  apply framed_bind; [apply Hb; exact Hsz|intros ?].
  repeat frame_monad.
Qed.

Lemma framed_visit_Attribute self value attr emit_parens :
  (tree.size value < k)%nat ->
  framed (visit_Attribute visit self value attr emit_parens).
Proof.
  intros Hsz. unfold visit_Attribute. destruct (class_ self).
  - apply framed_Visitor_visit_Attribute; exact Hsz.
  - apply framed_ReQLVisitor_visit_Attribute; exact Hsz.
Qed.

Lemma framed_Visitor_visit_Call self func args keywords :
  (tree.size func + list_sum (map tree.size args)
   + list_sum (map tree.size keywords) < k)%nat ->
  framed (Visitor_visit_Call visit self func args keywords).
Proof.
  intros Hsz. unfold Visitor_visit_Call.
  apply framed_bind; [apply framed_skip_if_arity_check|intros ?].
  apply framed_bind; [apply framed_convert_if_string_encode; lia|intros converted].
  destruct converted; [apply framed_ret|].
  apply framed_bind; [|intros ?; apply framed_to_args; lia].
  destruct func; try (apply Hb; lia).
  match goal with |- framed (if ?x then _ else _) => destruct x end.
  - apply framed_visit_Attribute. frame_sizes.
  - apply Hb. lia.
Qed.

Lemma framed_ReQLVisitor_visit_Call self func args keywords :
  (tree.size func + list_sum (map tree.size args)
   + list_sum (map tree.size keywords) < k)%nat ->
  framed (ReQLVisitor_visit_Call visit self func args keywords).
Proof.
  intros Hsz. unfold ReQLVisitor_visit_Call.
  apply framed_bind; [apply framed_Visitor_visit_Call; exact Hsz|intros ?].
  apply framed_bind; [repeat frame_monad|intros for_each].
  destruct for_each; [apply framed_skip|].
  match goal with |- framed (if ?x then _ else _) => destruct x end;
    [|apply framed_ret].
  repeat frame_monad. apply framed_skip.
Qed.

Lemma framed_Visitor_visit_Subscript value slice :
  (tree.size value < k)%nat ->
  framed (Visitor_visit_Subscript visit value slice).
Proof.
  intros Hsz. unfold Visitor_visit_Subscript.
  apply framed_bind; [apply framed_lift|intros v].
  destruct v as [n|c]; [|apply framed_throw].
  destruct n; repeat frame_monad.
  apply Hb. exact Hsz.
Qed.

Lemma framed_ReQLVisitor_visit_Subscript self value slice :
  (tree.size value + tree.size slice < k)%nat ->
  framed (ReQLVisitor_visit_Subscript visit self value slice).
Proof.
  intros Hsz. unfold ReQLVisitor_visit_Subscript.
  apply framed_bind; [apply Hb; lia|intros ?].
  destruct slice; try apply framed_throw.
  - apply framed_bind; [repeat frame_monad|intros ?].
    apply framed_bind; [apply Hb; frame_sizes|intros ?; apply framed_write].
  - apply framed_bind; [apply framed_write|intros ?].
    apply framed_bind; [apply framed_lift|intros bounds].
    destruct bounds as [[lower_ upper_] rclosed]. repeat frame_monad.
Qed.

Lemma framed_Visitor_visit_UnaryOp op operand :
  (tree.size operand < k)%nat -> framed (Visitor_visit_UnaryOp visit op operand).
Proof.
  intros Hsz. unfold Visitor_visit_UnaryOp.
  apply framed_bind; [apply framed_write|intros ?; apply Hb; exact Hsz].
Qed.

Lemma framed_ReQLVisitor_visit_UnaryOp op operand :
  (tree.size operand < k)%nat ->
  framed (ReQLVisitor_visit_UnaryOp visit op operand).
Proof.
  intros Hsz. unfold ReQLVisitor_visit_UnaryOp.
  destruct op; try (apply framed_Visitor_visit_UnaryOp; exact Hsz).
  apply framed_bind; [apply Hb; exact Hsz|intros ?; apply framed_write].
Qed.

End FramedJava.

Import emitted.

Ltac frame_java IH :=
  repeat first
    [ frame_monad
    | apply framed_to_str
    | apply framed_skip
    | apply framed_generic_visit
    | apply framed_write_bytes
    | progress cbn [java_converter.wrap]
    | (apply IH; frame_sizes)
    | (unfold java_converter.join; eapply framed_join_from; [intros ? ?; apply IH; eassumption|frame_sizes])
    | (eapply framed_to_args; [intros ? ?; apply IH; eassumption|frame_sizes])
    | (eapply framed_with_pairs; [intros ? ?; apply IH; eassumption|frame_sizes])
    | (eapply framed_visit_key; [intros ? ?; apply IH; eassumption|frame_sizes])
    | (eapply framed_visit_Attribute; [intros ? ?; apply IH; eassumption|frame_sizes])
    | (eapply framed_Visitor_visit_Call; [intros ? ?; apply IH; eassumption|frame_sizes])
    | (eapply framed_ReQLVisitor_visit_Call; [intros ? ?; apply IH; eassumption|frame_sizes])
    | (eapply framed_Visitor_visit_Subscript; [intros ? ?; apply IH; eassumption|frame_sizes])
    | (eapply framed_ReQLVisitor_visit_Subscript; [intros ? ?; apply IH; eassumption|frame_sizes])
    | (eapply framed_Visitor_visit_UnaryOp; [intros ? ?; apply IH; eassumption|frame_sizes])
    | (eapply framed_ReQLVisitor_visit_UnaryOp; [intros ? ?; apply IH; eassumption|frame_sizes]) ].

Lemma java_visit_framed (n : ast.node) :
  forall self, framed (java_converter.visit self n).
Proof.
  induction n as [n IH] using size_ind.
  intros self.
  destruct n; cbn [java_converter.visit].
  all: frame_java IH.
Qed.

Section FramedRuby.

Import ruby_converter.

Lemma framed_ruby_to_str s : framed (to_str s).
Proof. apply framed_write. Qed.

Variable visit : ast.node -> io.M unit.
Variable k : nat.
Hypothesis Hb : buffer.below k visit.

Lemma framed_ruby_join_from sep items first :
  (list_sum (map tree.size items) < k)%nat ->
  framed (join_from visit sep first items).
Proof.
  revert first. induction items as [|item items IH]; intros first Hsz; simpl.
  - apply framed_ret.
  - repeat frame_monad.
    + apply Hb. frame_sizes.
    + apply IH. frame_sizes.
Qed.

Lemma framed_ruby_join sep items :
  (list_sum (map tree.size items) < k)%nat -> framed (join visit sep items).
Proof.
  intros Hsz. unfold join.
  apply framed_bind; [apply framed_ruby_join_from; exact Hsz|intros ?; apply framed_ret].
Qed.

Lemma framed_join_init_from sep items first :
  (list_sum (map tree.size items) < k)%nat ->
  framed (join_init_from visit sep first items).
Proof.
  revert first. induction items as [|item items IH]; intros first Hsz; simpl.
  - apply framed_ret.
  - destruct items as [|item' items']; [apply framed_ret|].
    repeat frame_monad.
    + apply Hb. frame_sizes.
    + apply IH. frame_sizes.
Qed.

Lemma framed_visit_last items :
  (list_sum (map tree.size items) < k)%nat -> framed (visit_last visit items).
Proof.
  induction items as [|item items IH]; intros Hsz; simpl.
  - apply framed_ret.
  - destruct items as [|item' items'].
    + apply Hb. frame_sizes.
    + apply IH. frame_sizes.
Qed.

Lemma framed_ruby_to_args args optargs :
  (list_sum (map tree.size args) + list_sum (map tree.size optargs) < k)%nat ->
  framed (to_args visit args optargs).
Proof.
  intros Hsz. unfold to_args.
  assert (H : framed (io.write "(" ;;
                      first <- join_from visit ", " true args ;;
                      join_from visit ", " first optargs ;;
                      io.write ")")%emit).
  { apply framed_bind; [apply framed_write|intros ?].
    apply framed_bind; [apply framed_ruby_join_from; lia|intros first].
    apply framed_bind; [apply framed_ruby_join_from; lia|intros ?].
    apply framed_write. }
  destruct args, optargs; try exact H. apply framed_ret.
Qed.

Lemma framed_to_args_init args optargs :
  (list_sum (map tree.size args) + list_sum (map tree.size optargs) < k)%nat ->
  framed (to_args_init visit args optargs).
Proof.
  intros Hsz. unfold to_args_init.
  assert (H : framed (io.write "(" ;;
                      first <- join_init_from visit ", " true args ;;
                      join_from visit ", " first optargs ;;
                      io.write ")")%emit).
  { apply framed_bind; [apply framed_write|intros ?].
    apply framed_bind; [apply framed_join_init_from; lia|intros first].
    apply framed_bind; [apply framed_ruby_join_from; lia|intros ?].
    apply framed_write. }
  destruct (removelast args), optargs; try exact H. apply framed_ret.
Qed.

Lemma framed_ruby_visit_key key :
  (match key with Some x => tree.size x | None => 0 end < k)%nat ->
  framed (visit_key visit key).
Proof.
  intros Hsz. destruct key as [x|]; simpl; [apply Hb; exact Hsz|].
  apply framed_throw.
Qed.

Lemma framed_dict_pairs items first :
  (list_sum (map (fun kv => match fst kv with
                            | Some x => tree.size x
                            | None => 0
                            end + tree.size (snd kv)) items) < k)%nat ->
  framed (dict_pairs visit first items).
Proof.
  revert first. induction items as [|kv items IH]; intros first Hsz; simpl.
  - apply framed_ret.
  - apply framed_bind; [destruct first; [apply framed_ret|apply framed_write]
                       |intros ?].
    apply framed_bind; [apply framed_ruby_visit_key; frame_sizes|intros ?].
    apply framed_bind; [apply framed_write|intros ?].
    apply framed_bind; [apply Hb; frame_sizes|intros ?].
    apply IH. frame_sizes.
Qed.

Lemma framed_compare_chain comparators :
  (list_sum (map tree.size comparators) < k)%nat ->
  forall visit_left seen ops,
    framed visit_left ->
    framed (compare_chain visit visit_left seen ops comparators).
Proof.
  induction comparators as [|c comparators IH]; intros Hsz visit_left seen ops Hl;
    simpl.
  - apply framed_ret.
  - destruct ops as [|op ops]; [apply framed_ret|].
    assert (Hc : framed (visit c)) by (apply Hb; frame_sizes).
    repeat frame_monad; try assumption.
    apply IH; [frame_sizes|assumption].
Qed.

End FramedRuby.

Ltac frame_ruby IH :=
  repeat first
    [ frame_monad
    | apply framed_ruby_to_str
    | apply framed_throw
    | (apply IH; frame_sizes)
    | (eapply framed_ruby_join; [intros ? ?; apply IH; eassumption|frame_sizes])
    | (eapply framed_ruby_to_args; [intros ? ?; apply IH; eassumption|frame_sizes])
    | (eapply framed_to_args_init; [intros ? ?; apply IH; eassumption|frame_sizes])
    | (eapply framed_visit_last; [intros ? ?; apply IH; eassumption|frame_sizes])
    | (eapply framed_dict_pairs; [intros ? ?; apply IH; eassumption|frame_sizes])
    | (eapply framed_compare_chain;
       [intros ? ?; apply IH; eassumption|frame_sizes|apply IH; frame_sizes]) ].

Lemma ruby_visit_framed (n : ast.node) :
  forall self, framed (ruby_converter.visit self n).
Proof.
  induction n as [n IH] using size_ind.
  intros self.
  destruct n; cbn [ruby_converter.visit].
  all: frame_ruby IH.
Qed.

(** ** Details of the Java emitter *)

Lemma escape_chars_text (s out : string) :
  java_converter.escape_chars s out
  = inr (tt, out +:+ repr.body java_converter.escape_char s).
Proof.
  revert out. induction s as [|c s IH]; intros out; simpl.
  - unfold io.ret, py.ok. rewrite append_empty_r. reflexivity.
  - unfold io.bind, io.write, py.ok. rewrite IH, append_assoc. reflexivity.
Qed.

Lemma to_str_text (s out : string) :
  java_converter.to_str s out = inr (tt, out +:+ text.java_literal s).
Proof.
  unfold java_converter.to_str, java_converter.escape_string, io.bind, io.write,
    py.ok, text.java_literal.
  rewrite escape_chars_text, !append_assoc. reflexivity.
Qed.

(** X7: the escape of a character never begins with a backslash and an x,
    which Java rejects; a character whose repr is such a short escape is
    written with four hexadecimal digits; and a double quote is written
    behind a backslash. *)
Theorem java_escape_has_no_short_hex (c : ascii) :
  py.startswith "\x" (java_converter.escape_char c) = false /\
  (py.startswith "\x" (repr.of_char c) = true ->
   java_converter.escape_char c = "\u00" +:+ text.hex2 c) /\
  java_converter.escape_char (ascii_of_nat 34) = "\" +:+ py.dq /\
  java_converter.escape_char c <> py.dq.
Proof.
  destruct c as [[] [] [] [] [] [] [] []];
    (split; [vm_compute; reflexivity|]);
    (split; [vm_compute; first [reflexivity|discriminate]|]);
    (split; [vm_compute; reflexivity|]);
    vm_compute; discriminate.
Qed.

Lemma java_escape_has_no_short_hex_witness :
  java_converter.escape_char "001" = "\u00" +:+ text.hex2 "001".
Proof.
  apply (proj1 (proj2 (java_escape_has_no_short_hex "001"))).
  reflexivity.
Defined.

(** X8: an integer literal within the range of a Java long is written with
    the suffix L, one outside it with the suffix .0, and a float as its
    repr alone. *)
Theorem java_number_suffix (self : java_converter.Visitor) (t : ast.tag)
    (z : Z) (r out : string) :
  java_converter.visit self (ast.Num t (ast.Int z)) out
  = inr (tt, out +:+ py.repr_int z +:+
             (if (- 2 ^ 63 <=? z) && (z <=? 2 ^ 63 - 1) then "L" else ".0")) /\
  java_converter.visit self (ast.Num t (ast.Float r)) out = inr (tt, out +:+ r).
Proof.
  split.
  - assert (E : (- 2 ^ 63 <=? z) && (z <=? 2 ^ 63 - 1)
                = negb ((9223372036854775807 <? z) || (z <? -9223372036854775808))).
    { change (2 ^ 63) with 9223372036854775808.
      destruct (Z.leb_spec (- 9223372036854775808) z),
               (Z.leb_spec z (9223372036854775808 - 1)),
               (Z.ltb_spec 9223372036854775807 z),
               (Z.ltb_spec z (-9223372036854775808)); simpl; lia. }
    rewrite E.
    cbn [java_converter.visit repr.of_number].
    unfold io.bind, io.write, py.ok.
    destruct ((9223372036854775807 <? z) || (z <? -9223372036854775808));
      simpl; rewrite append_assoc; reflexivity.
  - cbn [java_converter.visit repr.of_number].
    reflexivity.
Qed.

Lemma write_bytes_text (bytes : list byte) (i : nat) (out : string) :
  java_converter.write_bytes (S i) bytes out
  = inr (tt, out +:+ py.join_str
                       (map (fun b => ", " +:+ py.repr_int (java_converter.signed_byte b))
                            bytes)).
Proof.
  revert i out. induction bytes as [|b bytes IH]; intros i out; simpl.
  - unfold io.ret, py.ok. rewrite append_empty_r. reflexivity.
  - unfold io.bind, io.write, py.ok. rewrite IH, !append_assoc. reflexivity.
Qed.

Lemma comma_join_cons (x : string) (xs : list string) :
  text.comma_join (x :: xs) = x +:+ py.join_str (map (fun y => ", " +:+ y) xs).
Proof.
  revert x. induction xs as [|y xs IH]; intros x; simpl.
  - rewrite append_empty_r. reflexivity.
  - unfold text.comma_join in *. simpl in *. rewrite IH. reflexivity.
Qed.

Lemma write_bytes_0_text (bytes : list byte) (out : string) :
  java_converter.write_bytes 0 bytes out
  = inr (tt, out +:+ text.comma_join
                       (map (fun b => py.repr_int (java_converter.signed_byte b))
                            bytes)).
Proof.
  destruct bytes as [|b bytes].
  - simpl. unfold io.ret, py.ok. rewrite append_empty_r. reflexivity.
  - cbn [java_converter.write_bytes]. simpl Nat.ltb. cbv iota.
    rewrite (bind_run _ _ out out tt) by reflexivity.
    rewrite (bind_run _ _ out _ tt) by reflexivity.
    rewrite write_bytes_text. cbn [map]. rewrite comma_join_cons, map_map.
    rewrite !append_assoc. reflexivity.
Qed.

(** X9: a bytes literal is written as a Java byte array of the signed values
    of its bytes: each value lies between -128 and 127 and is the byte
    modulo 256. *)
Theorem java_bytes_signed (self : java_converter.Visitor) (t : ast.tag)
    (s : list byte) (out : string) :
  java_converter.visit self (ast.Bytes t s) out
  = inr (tt, out +:+ "new byte[]{" +:+
             text.comma_join
               (map (fun b => py.repr_int (java_converter.signed_byte b)) s)
             +:+ "}") /\
  (forall b : byte,
     -128 <= java_converter.signed_byte b <= 127 /\
     java_converter.signed_byte b mod 256 = Z.of_N (Byte.to_N b)).
Proof.
  split.
  - cbn [java_converter.visit].
    rewrite (bind_run _ _ out _ tt) by reflexivity.
    rewrite (bind_run _ _ _ _ tt) by apply write_bytes_0_text.
    unfold io.write, py.ok. rewrite !append_assoc. reflexivity.
  - intros b. destruct b; vm_compute; repeat split; discriminate.
Qed.

Lemma mem_In (name : string) (table : list string) :
  field.mem name table = true -> In name table.
Proof.
  unfold field.mem. intros H. apply existsb_exists in H.
  destruct H as (x & Hin & Hx). apply String.eqb_eq in Hx. subst x. exact Hin.
Qed.

(** X10: an identifier that is a Java keyword or a method of Object is written
    by the Java emitter with one underscore after it, and by the Ruby
    emitter as it is. *)
Theorem reserved_name_gets_underscore (jself : java_converter.Visitor)
    (rself : ruby_converter.Visitor) (t : ast.tag) (id out : string) :
  field.mem id (java_converter.JAVA_KEYWORDS ++ java_converter.OBJECT_METHODS)
    = true ->
  java_converter.visit jself (ast.Name t id) out = inr (tt, out +:+ id +:+ "_") /\
  ruby_converter.visit rself (ast.Name t id) out = inr (tt, out +:+ id).
Proof.
  intros H. apply mem_In in H. simpl in H.
  repeat (destruct H as [<-|H]; [split; vm_compute; reflexivity|]).
  destruct H.
Qed.

Lemma reserved_name_gets_underscore_witness :
  java_converter.visit
    (java_converter.mkVisitor java_converter.Visitor_ {["r"]} None
       java_converter.NoType false true)
    (ast.Name None "default") "" = inr (tt, "" +:+ "default" +:+ "_") /\
  ruby_converter.visit (ruby_converter.mkVisitor {["r"]})
    (ast.Name None "default") "" = inr (tt, "" +:+ "default").
Proof.
  apply (reserved_name_gets_underscore
           (java_converter.mkVisitor java_converter.Visitor_ {["r"]} None
              java_converter.NoType false true)
           (ruby_converter.mkVisitor {["r"]}) None "default" "").
  reflexivity.
Defined.

(** X11: in the ReQL visitor of the Java emitter every attribute of the root
    [r] other than [r.row] raises AttributeError, as the visitor has no
    attribute TOPLEVEL_CONSTANTS; so does every call of such an
    attribute. *)
Theorem reql_visitor_root_attribute_fails (reql_vars : gset string)
    (type_ : option string) (_type : java_converter.py_type)
    (is_def smart_bracket : bool) (t t' t'' : ast.tag) (attr : string)
    (args keywords : list ast.node) (out : string) :
  attr <> "row" ->
  let self := java_converter.mkVisitor java_converter.ReQLVisitor reql_vars
                type_ _type is_def smart_bracket in
  java_converter.visit self (ast.Attribute t (ast.Name t' "r") attr) out
    = inl (py.Raise py.AttributeError "TOPLEVEL_CONSTANTS") /\
  java_converter.visit self
    (ast.Call t'' (ast.Attribute t (ast.Name t' "r") attr) args keywords) out
    = inl (py.Raise py.AttributeError "TOPLEVEL_CONSTANTS").
Proof.
  intros Hattr self.
  assert (Hrow : (attr =? "row")%string = false)
    by (apply String.eqb_neq; exact Hattr).
  assert (Ha : forall ep o,
             java_converter.ReQLVisitor_visit_Attribute
               (java_converter.visit self) (ast.Name t' "r") attr ep o
             = inl (py.Raise py.AttributeError "TOPLEVEL_CONSTANTS")).
  { intros ep o. unfold java_converter.ReQLVisitor_visit_Attribute.
    cbn [ast.is_name]. change ("r" =? "r")%string with true. cbn [andb].
    rewrite Hrow. reflexivity. }
  split; [apply Ha|].
  cbn [java_converter.visit java_converter.class_ self].
  unfold java_converter.ReQLVisitor_visit_Call. apply bind_fail.
  unfold java_converter.Visitor_visit_Call.
  rewrite (bind_run _ _ out out tt) by reflexivity.
  assert (Hc : java_converter.convert_if_string_encode
                 (java_converter.visit self)
                 (ast.Attribute t (ast.Name t' "r") attr) args out
               = inr (false, out)).
  { unfold java_converter.convert_if_string_encode.
    destruct (attr =? "encode")%string; reflexivity. }
  rewrite (bind_run _ _ out out false Hc).
  apply bind_fail.
  destruct (attr =? "error")%string.
  - unfold java_converter.visit_Attribute. apply Ha.
  - apply Ha.
Qed.

Lemma reql_visitor_root_attribute_fails_witness :
  let self := java_converter.mkVisitor java_converter.ReQLVisitor {["r"]}
                None java_converter.NoType false true in
  java_converter.visit self (ast.Attribute None (ast.Name None "r") "table") ""
    = inl (py.Raise py.AttributeError "TOPLEVEL_CONSTANTS") /\
  java_converter.visit self
    (ast.Call None (ast.Attribute None (ast.Name None "r") "table")
       [ast.Str None "t"] []) ""
    = inl (py.Raise py.AttributeError "TOPLEVEL_CONSTANTS").
Proof.
  apply (reql_visitor_root_attribute_fails {["r"]} None java_converter.NoType
           false true None None None "table" [ast.Str None "t"] [] "").
  discriminate.
Defined.

(** X12: a call of [err] whose second argument is a string the arity pattern
    matches is skipped with a RuntimeError, and a call of [err] with fewer
    than two arguments raises IndexError, which the except clause of the
    arity check does not catch. *)
Theorem java_arity_check (self : java_converter.Visitor) (t tf ts : ast.tag)
    (first : ast.node) (message : string) (rest args keywords : list ast.node)
    (out : string) :
  (re.match_ java_converter.arity_rgx message = true ->
   java_converter.visit self
     (ast.Call t (ast.Name tf "err") (first :: ast.Str ts message :: rest)
        keywords) out
   = inl (py.Raise py.RuntimeError "arity checks done by java type system")) /\
  ((length args < 2)%nat ->
   java_converter.visit self (ast.Call t (ast.Name tf "err") args keywords) out
   = inl (py.Raise py.IndexError "list index out of range")).
Proof.
  split.
  - intros Hm.
    assert (Hs : java_converter.skip_if_arity_check (ast.Name tf "err")
                   (first :: ast.Str ts message :: rest) out
                 = inl (py.Raise py.RuntimeError
                          "arity checks done by java type system")).
    { unfold java_converter.skip_if_arity_check. simpl. rewrite Hm. reflexivity. }
    cbn [java_converter.visit].
    destruct (java_converter.class_ self);
      [|unfold java_converter.ReQLVisitor_visit_Call; apply bind_fail];
      unfold java_converter.Visitor_visit_Call; apply bind_fail; exact Hs.
  - intros Hlen.
    assert (Hs : java_converter.skip_if_arity_check (ast.Name tf "err") args out
                 = inl (py.Raise py.IndexError "list index out of range")).
    { destruct args as [|a [|b args]]; [reflexivity|reflexivity|simpl in Hlen; lia]. }
    cbn [java_converter.visit].
    destruct (java_converter.class_ self);
      [|unfold java_converter.ReQLVisitor_visit_Call; apply bind_fail];
      unfold java_converter.Visitor_visit_Call; apply bind_fail; exact Hs.
Qed.

Lemma java_arity_check_witness :
  java_converter.visit
    (java_converter.mkVisitor java_converter.Visitor_ {["r"]} None
       java_converter.NoType false true)
    (ast.Call None (ast.Name None "err")
       [ast.Str None "ReqlCompileError";
        ast.Str None "Expected 2 arguments but found 1."] []) ""
  = inl (py.Raise py.RuntimeError "arity checks done by java type system") /\
  java_converter.visit
    (java_converter.mkVisitor java_converter.Visitor_ {["r"]} None
       java_converter.NoType false true)
    (ast.Call None (ast.Name None "err") [ast.Str None "ReqlCompileError"] [])
    ""
  = inl (py.Raise py.IndexError "list index out of range").
Proof.
  split.
  - apply (proj1 (java_arity_check
             (java_converter.mkVisitor java_converter.Visitor_ {["r"]} None
                java_converter.NoType false true)
             None None None (ast.Str None "ReqlCompileError")
             "Expected 2 arguments but found 1." [] [] [] "")).
    vm_compute. reflexivity.
  - apply (proj2 (java_arity_check
             (java_converter.mkVisitor java_converter.Visitor_ {["r"]} None
                java_converter.NoType false true)
             None None None (ast.Str None "x") "" []
             [ast.Str None "ReqlCompileError"] [] "")).
    simpl. lia.
Defined.

(** ** The Ruby emitter reads no tag *)

Lemma bind_ext {A B} (m m' : io.M A) (f f' : A -> io.M B) :
  (forall out, m out = m' out) ->
  (forall a out, f a out = f' a out) ->
  forall out, io.bind m f out = io.bind m' f' out.
Proof.
  intros Hm Hf out. unfold io.bind. rewrite (Hm out).
  destruct (m' out) as [e|[a out']]; [reflexivity|apply Hf].
Qed.

Lemma removelast_map {A B} (f : A -> B) (l : list A) :
  removelast (map f l) = map f (removelast l).
Proof.
  induction l as [|a l IH]; [reflexivity|].
  destruct l as [|b l]; [reflexivity|].
  simpl in *. rewrite IH. reflexivity.
Qed.

Lemma last_map {A B} (f : A -> B) (l : list A) :
  field.last (map f l)
  = match field.last l with inl e => inl e | inr a => inr (f a) end.
Proof.
  unfold field.last. rewrite <- map_rev.
  destruct (rev l); reflexivity.
Qed.

Lemma is_name_erase (name : string) (n : ast.node) :
  ast.is_name name (shape.erase n) = ast.is_name name n.
Proof. destruct n; reflexivity. Qed.

Lemma get_id_erase (n : ast.node) :
  ast.get_id (shape.erase n) = ast.get_id n.
Proof. destruct n; reflexivity. Qed.

Section BlindRuby.

Import ruby_converter.

Variables v w : ast.node -> io.M unit.
Variable k : nat.
Hypothesis Hb : blind.below k v w.

Lemma blind_join_from sep items : forall first,
  (list_sum (map tree.size items) < k)%nat ->
  forall out, join_from v sep first items out
              = join_from w sep first (map shape.erase items) out.
Proof.
  induction items as [|item items IH]; intros first Hsz; simpl; [reflexivity|].
  apply bind_ext; [reflexivity|intros _].
  apply bind_ext; [apply Hb; simpl in *; lia|intros _].
  apply IH. simpl in *; lia.
Qed.

Lemma blind_join sep items :
  (list_sum (map tree.size items) < k)%nat ->
  forall out, join v sep items out = join w sep (map shape.erase items) out.
Proof.
  intros Hsz. unfold join.
  apply bind_ext; [apply blind_join_from; exact Hsz|reflexivity].
Qed.

Lemma blind_join_init_from sep items : forall first,
  (list_sum (map tree.size items) < k)%nat ->
  forall out, join_init_from v sep first items out
              = join_init_from w sep first (map shape.erase items) out.
Proof.
  induction items as [|item items IH]; intros first Hsz; [reflexivity|].
  destruct items as [|item' items']; [reflexivity|].
  change (forall out,
    ((if first then io.ret tt else io.write sep) ;;
     v item ;; join_init_from v sep false (item' :: items'))%emit out
    = ((if first then io.ret tt else io.write sep) ;;
       w (shape.erase item) ;;
       join_init_from w sep false (map shape.erase (item' :: items')))%emit out).
  apply bind_ext; [reflexivity|intros _].
  apply bind_ext; [apply Hb; simpl in *; lia|intros _].
  apply IH. simpl in *; lia.
Qed.

Lemma blind_visit_last items :
  (list_sum (map tree.size items) < k)%nat ->
  forall out, visit_last v items out = visit_last w (map shape.erase items) out.
Proof.
  induction items as [|item items IH]; intros Hsz; [reflexivity|].
  destruct items as [|item' items'].
  - simpl. apply Hb. simpl in *; lia.
  - change (forall out, visit_last v (item' :: items') out
                        = visit_last w (map shape.erase (item' :: items')) out).
    apply IH. simpl in *; lia.
Qed.

Lemma blind_to_args args optargs :
  (list_sum (map tree.size args) + list_sum (map tree.size optargs) < k)%nat ->
  forall out, to_args v args optargs out
              = to_args w (map shape.erase args) (map shape.erase optargs) out.
Proof.
  intros Hsz.
  assert (H : forall out,
            (io.write "(" ;;
             first <- join_from v ", " true args ;;
             join_from v ", " first optargs ;;
             io.write ")")%emit out
            = (io.write "(" ;;
               first <- join_from w ", " true (map shape.erase args) ;;
               join_from w ", " first (map shape.erase optargs) ;;
               io.write ")")%emit out).
  { apply bind_ext; [reflexivity|intros _].
    apply bind_ext; [apply blind_join_from; lia|intros first].
    apply bind_ext; [apply blind_join_from; lia|reflexivity]. }
  unfold to_args. destruct args, optargs; try exact H. reflexivity.
Qed.

Lemma blind_to_args_init args optargs :
  (list_sum (map tree.size args) + list_sum (map tree.size optargs) < k)%nat ->
  forall out, to_args_init v args optargs out
              = to_args_init w (map shape.erase args) (map shape.erase optargs)
                  out.
Proof.
  intros Hsz.
  assert (H : forall out,
            (io.write "(" ;;
             first <- join_init_from v ", " true args ;;
             join_from v ", " first optargs ;;
             io.write ")")%emit out
            = (io.write "(" ;;
               first <- join_init_from w ", " true (map shape.erase args) ;;
               join_from w ", " first (map shape.erase optargs) ;;
               io.write ")")%emit out).
  { apply bind_ext; [reflexivity|intros _].
    apply bind_ext; [apply blind_join_init_from; lia|intros first].
    apply bind_ext; [apply blind_join_from; lia|reflexivity]. }
  unfold to_args_init. rewrite removelast_map.
  destruct (removelast args), optargs; try exact H. reflexivity.
Qed.

Lemma blind_visit_key key :
  (match key with Some x => tree.size x | None => 0 end < k)%nat ->
  forall out, visit_key v key out = visit_key w (option_map shape.erase key) out.
Proof.
  intros Hsz. destruct key as [x|]; simpl; [apply Hb; exact Hsz|reflexivity].
Qed.

Lemma blind_dict_pairs items : forall first,
  (list_sum (map (fun kv => match fst kv with
                            | Some x => tree.size x
                            | None => 0
                            end + tree.size (snd kv)) items)
   < k)%nat ->
  forall out,
    dict_pairs v first items out
    = dict_pairs w first
        (map (fun kv => (option_map shape.erase (fst kv), shape.erase (snd kv)))
             items)
        out.
Proof.
  induction items as [|kv items IH]; intros first Hsz; simpl; [reflexivity|].
  apply bind_ext; [reflexivity|intros _].
  apply bind_ext; [apply blind_visit_key; simpl in *; lia|intros _].
  apply bind_ext; [reflexivity|intros _].
  apply bind_ext; [apply Hb; simpl in *; lia|intros _].
  apply IH. simpl in *; lia.
Qed.

Lemma blind_compare_chain comparators :
  (list_sum (map tree.size comparators) < k)%nat ->
  forall (left_ left' : io.M unit) seen ops,
    (forall out, left_ out = left' out) ->
    forall out,
      compare_chain v left_ seen ops comparators out
      = compare_chain w left' seen ops (map shape.erase comparators) out.
Proof.
  induction comparators as [|c comparators IH];
    intros Hsz left_ left' seen ops Hl; simpl; [reflexivity|].
  destruct ops as [|op ops]; [reflexivity|].
  assert (Hc : forall out, v c out = w (shape.erase c) out)
    by (apply Hb; simpl in *; lia).
  apply bind_ext; [reflexivity|intros _].
  apply bind_ext; [reflexivity|intros op_name].
  apply bind_ext; [exact Hl|intros _].
  apply bind_ext; [reflexivity|intros _].
  apply bind_ext; [exact Hc|intros _].
  apply IH; [simpl in *; lia|exact Hc].
Qed.

End BlindRuby.

Ltac blind_ruby IH :=
  repeat first
    [ reflexivity
    | (apply IH; simpl in *; lia)
    | (eapply blind_join; [intros ? ?; apply IH; eassumption|simpl in *; lia])
    | (eapply blind_to_args;
       [intros ? ?; apply IH; eassumption|simpl in *; lia])
    | (eapply blind_to_args_init;
       [intros ? ?; apply IH; eassumption|simpl in *; lia])
    | (eapply blind_visit_last;
       [intros ? ?; apply IH; eassumption|simpl in *; lia])
    | (eapply blind_dict_pairs;
       [intros ? ?; apply IH; eassumption|simpl in *; lia])
    | (eapply blind_compare_chain;
       [intros ? ?; apply IH; eassumption|simpl in *; lia
       |apply IH; simpl in *; lia])
    | (apply bind_ext; [|intros ?]) ].

Lemma ruby_visit_blind (n : ast.node) :
  forall self self' out,
    ruby_converter.visit self n out
    = ruby_converter.visit self' (shape.erase n) out.
Proof.
  induction n as [n IH] using size_ind.
  intros self self'.
  assert (IH' : forall c, (tree.size c < tree.size n)%nat ->
                  forall out, ruby_converter.visit self c out
                              = ruby_converter.visit self' (shape.erase c) out)
    by (intros c Hc out; apply IH; exact Hc).
  clear IH.
  destruct n; cbn [ruby_converter.visit shape.erase].
  all: try solve [blind_ruby IH'].
  - (* Call *)
    apply bind_ext.
    + match goal with
      | |- context [match ?f with ast.Attribute _ _ _ => _ | _ => _ end] =>
          destruct f; cbn [shape.erase]; try solve [blind_ruby IH']
      end.
      rewrite is_name_erase.
      match goal with
      | |- context [(?a =? "expr")%string && ast.is_name "r" ?x] =>
          destruct ((a =? "expr")%string && ast.is_name "r" x);
            [apply IH'; simpl; lia|]
      end.
      match goal with
      | |- forall out, ruby_converter.visit _ ?c out = _ =>
          apply (IH' c); simpl; lia
      end.
    + intros _. rewrite last_map.
      destruct (field.last args) as [e|a].
      * blind_ruby IH'.
      * destruct a; cbn [shape.erase]; blind_ruby IH'.
  - (* Subscript *)
    apply bind_ext; [apply IH'; simpl; lia|intros _].
    match goal with
    | |- context [match ?f with ast.Index _ _ => _ | _ => _ end] =>
        destruct f; cbn [shape.erase]; try solve [blind_ruby IH']
    end.
    destruct lower as [l|], upper as [u|]; simpl option_map; blind_ruby IH'.
  - (* Assign *)
    rewrite length_map.
    destruct (negb (length targets =? 1)%nat); [reflexivity|].
    destruct targets as [|target targets]; [reflexivity|].
    simpl map. unfold field.index. simpl nth_error.
    intros out. unfold io.bind, io.lift, io.write, py.ok.
    rewrite get_id_erase.
    destruct (ast.get_id target) as [e|id]; [reflexivity|].
    rewrite (IH' n) by (simpl; lia). reflexivity.
Qed.

(** X13: the Ruby emitter reads no tag and no root name: it writes for a tree
    what it writes for the tree with every tag removed, so the analysis
    changes nothing of the Ruby text. *)
Theorem ruby_text_independent_of_analysis (node node' : ast.node)
    (o : option (gset string)) (p : bool) (names names' : gset string) :
  add_is_reql_flags node o p = inr node' ->
  ruby_converter.emit names node' = ruby_converter.emit names' node.
Proof.
  intros H. apply visit_erase in H.
  unfold ruby_converter.emit, ruby_converter.convert, io.bind.
  rewrite (ruby_visit_blind node' _ (ruby_converter.mkVisitor names') ""),
          (ruby_visit_blind node (ruby_converter.mkVisitor names')
             (ruby_converter.mkVisitor names') ""), H.
  reflexivity.
Qed.

Lemma ruby_text_independent_of_analysis_witness :
  ruby_converter.emit {["r"]}
    (ast.Call (Some true)
       (ast.Attribute (Some true) (ast.Name (Some true) "r") "expr")
       [ast.Num (Some false) (ast.Int 1)] [])
  = ruby_converter.emit {["q"]}
      (ast.Call None (ast.Attribute None (ast.Name None "r") "expr")
         [ast.Num None (ast.Int 1)] []).
Proof.
  apply (ruby_text_independent_of_analysis
           (ast.Call None (ast.Attribute None (ast.Name None "r") "expr")
              [ast.Num None (ast.Int 1)] [])
           (ast.Call (Some true)
              (ast.Attribute (Some true) (ast.Name (Some true) "r") "expr")
              [ast.Num (Some false) (ast.Int 1)] [])
           None false {["r"]} {["q"]}).
  reflexivity.
Defined.

(** ** What the analysis keeps, and what a visitor keeps *)

(** X14: the analysis changes nothing of a tree but its tags: the tree it
    returns and the tree it was given are the same once the tags are
    removed. *)
Theorem analysis_changes_tags_only (node node' : ast.node)
    (o : option (gset string)) (p : bool) :
  add_is_reql_flags node o p = inr node' ->
  shape.erase node' = shape.erase node.
Proof. intros H. exact (visit_erase node _ _ H). Qed.

Lemma analysis_changes_tags_only_witness :
  shape.erase
    (ast.BinOp (Some true)
       (ast.Attribute (Some true) (ast.Name (Some true) "r") "x") ast.Add
       (ast.Num (Some false) (ast.Int 1)))
  = shape.erase
      (ast.BinOp None (ast.Attribute None (ast.Name None "r") "x") ast.Add
         (ast.Num None (ast.Int 1))).
Proof.
  apply (analysis_changes_tags_only
           (ast.BinOp None (ast.Attribute None (ast.Name None "r") "x") ast.Add
              (ast.Num None (ast.Int 1)))
           (ast.BinOp (Some true)
              (ast.Attribute (Some true) (ast.Name (Some true) "r") "x") ast.Add
              (ast.Num (Some false) (ast.Int 1)))
           None false).
  reflexivity.
Defined.

(** X15: the analysis is idempotent: run again with the same root names and
    the same context on the tree it returned, it returns that tree
    unchanged. *)
Theorem analysis_idempotent (node node' : ast.node)
    (o : option (gset string)) (p : bool) :
  add_is_reql_flags node o p = inr node' ->
  add_is_reql_flags node' o p = inr node'.
Proof. intros H. exact (visit_fixed node _ _ H). Qed.

Lemma analysis_idempotent_witness :
  add_is_reql_flags
    (ast.Call (Some true)
       (ast.Attribute (Some true) (ast.Name (Some true) "r") "map")
       [ast.Lambda (Some true) [ast.arg None "x"]
          (ast.BinOp (Some true) (ast.Name (Some true) "x") ast.Add
             (ast.Num (Some false) (ast.Int 1)))] [])
    None false
  = inr
      (ast.Call (Some true)
         (ast.Attribute (Some true) (ast.Name (Some true) "r") "map")
         [ast.Lambda (Some true) [ast.arg None "x"]
            (ast.BinOp (Some true) (ast.Name (Some true) "x") ast.Add
               (ast.Num (Some false) (ast.Int 1)))] []).
Proof.
  apply (analysis_idempotent
           (ast.Call None (ast.Attribute None (ast.Name None "r") "map")
              [ast.Lambda None [ast.arg None "x"]
                 (ast.BinOp None (ast.Name None "x") ast.Add
                    (ast.Num None (ast.Int 1)))] [])
           _ None false).
  reflexivity.
Defined.

(** X16: a tree that carries no true tag and names none of the root names,
    analyzed outside of a query context, carries no true tag afterwards,
    and its root is tagged false. *)
Theorem unrelated_expression_untagged (node node' : ast.node)
    (o : option (gset string)) :
  tags.mentions (reql_vars (IsReql_init o false)) node = false ->
  tags.none_true node = true ->
  add_is_reql_flags node o false = inr node' ->
  tags.none_true node' = true /\ ast.get_tag node' = Some false.
Proof.
  intros Hm Hq H.
  exact (visit_quiet node (IsReql_init o false) node' eq_refl
           (IsReql_init_nonempty o false) Hm Hq H).
Qed.

Lemma unrelated_expression_untagged_witness :
  tags.none_true
    (ast.Call (Some false) (ast.Name (Some false) "f")
       [ast.Lambda (Some false) [ast.arg None "r"]
          (ast.Attribute (Some false) (ast.Name (Some false) "x") "y")] [])
  = true /\
  ast.get_tag
    (ast.Call (Some false) (ast.Name (Some false) "f")
       [ast.Lambda (Some false) [ast.arg None "r"]
          (ast.Attribute (Some false) (ast.Name (Some false) "x") "y")] [])
  = Some false.
Proof.
  apply (unrelated_expression_untagged
           (ast.Call None (ast.Name None "f")
              [ast.Lambda None [ast.arg None "r"]
                 (ast.Attribute None (ast.Name None "x") "y")] [])
           _ None).
  - vm_compute. reflexivity.
  - reflexivity.
  - reflexivity.
Defined.

(** X17: both emitters only append: whatever the buffer of the visitor holds,
    a visit fails as it does on an empty buffer, or leaves the buffer
    followed by the text it writes on an empty one. *)
Theorem emitters_only_append (jself : java_converter.Visitor)
    (rself : ruby_converter.Visitor) (node : ast.node) :
  emitted.framed (java_converter.visit jself node) /\
  emitted.framed (ruby_converter.visit rself node).
Proof. split; [apply java_visit_framed|apply ruby_visit_framed]. Qed.

(** C9 (as amended): [convert] appends the text of the tree to the buffer
    of the visitor and returns all the buffer holds: on any buffer it fails
    as on an empty one, or returns the buffer followed by the text it
    returns on an empty one.  So the text is a function of tree, tags and
    configuration for a visitor whose buffer is empty, as the one
    [transpile_snippet] builds for every call is, and the buffer is state
    that a visitor used again carries from one call to the next. *)
Theorem convert_appends_to_the_buffer :
  (forall (self : java_converter.Visitor) (node : ast.node) (out : string),
     java_converter.convert self node out
     = match java_converter.convert self node EmptyString with
       | inl e => inl e
       | inr (text, _) => inr (out +:+ text, out +:+ text)
       end) /\
  (forall (self : ruby_converter.Visitor) (node : ast.node) (out : string),
     ruby_converter.convert self node out
     = match ruby_converter.convert self node EmptyString with
       | inl e => inl e
       | inr (text, _) => inr (out +:+ text, out +:+ text)
       end) /\
  (forall (node : ast.node) (converter : multireql.lang),
     multireql.transpile_snippet node converter
     = match converter with
       | multireql.rb =>
           py.rbind (ruby_converter.convert (ruby_converter.mkVisitor {["r"]})
                       node EmptyString)
                    (fun r => py.ok (fst r))
       | multireql.java =>
           py.rbind (java_converter.convert
                       (java_converter.mkVisitor java_converter.Visitor_
                          {["r"]} None java_converter.NoType false true)
                       node EmptyString)
                    (fun r => py.ok (fst r))
       end).
Proof.
  split; [|split].
  - intros self node out.
    unfold java_converter.convert, io.bind.
    rewrite (java_visit_framed node self out).
    destruct (java_converter.visit self node "") as [e|[[] text]];
      reflexivity.
  - intros self node out.
    unfold ruby_converter.convert, io.bind.
    rewrite (ruby_visit_framed node self out).
    destruct (ruby_converter.visit self node "") as [e|[[] text]];
      reflexivity.
  - intros node []; reflexivity.
Qed.

(** C9 (as stated) fails: a visitor that has converted a tree does not
    return the same text when it converts the tree again, in either
    emitter. *)
Lemma convert_not_repeatable :
  ~ emitted.repeatable
      (java_converter.convert
         (java_converter.mkVisitor java_converter.Visitor_ {["r"]} None
            java_converter.NoType false true)) /\
  ~ emitted.repeatable
      (ruby_converter.convert (ruby_converter.mkVisitor {["r"]})).
Proof.
  split; intros H.
  - specialize (H (ast.Num None (ast.Int 1)) "1L" "1L" "1L1L" "1L1L"
                  eq_refl eq_refl).
    discriminate H.
  - specialize (H (ast.Num None (ast.Int 1)) "1" "1" "11" "11"
                  eq_refl eq_refl).
    discriminate H.
Qed.

(** X18: [convert] returns all the buffer of the visitor holds, so a visitor
    that has converted one tree returns, for the next tree, the text of the
    first followed by the text of the second, in each emitter: converting a
    tree twice with one visitor doubles the text. *)
Theorem convert_keeps_earlier_text :
  (forall (self : java_converter.Visitor) (first second : ast.node)
          (text1 text2 : string),
     java_converter.convert self first "" = inr (text1, text1) ->
     java_converter.convert self second "" = inr (text2, text2) ->
     java_converter.convert self second text1
     = inr (text1 +:+ text2, text1 +:+ text2)) /\
  (forall (self : ruby_converter.Visitor) (first second : ast.node)
          (text1 text2 : string),
     ruby_converter.convert self first "" = inr (text1, text1) ->
     ruby_converter.convert self second "" = inr (text2, text2) ->
     ruby_converter.convert self second text1
     = inr (text1 +:+ text2, text1 +:+ text2)).
Proof.
  split; intros self first second text1 text2 _ H.
  - unfold java_converter.convert, io.bind in *.
    rewrite (java_visit_framed second self text1).
    destruct (java_converter.visit self second "") as [e|[[] t]];
      [discriminate H|].
    unfold io.getvalue, py.ok in *. injection H as <-. reflexivity.
  - unfold ruby_converter.convert, io.bind in *.
    rewrite (ruby_visit_framed second self text1).
    destruct (ruby_converter.visit self second "") as [e|[[] t]];
      [discriminate H|].
    unfold io.getvalue, py.ok in *. injection H as <-. reflexivity.
Qed.

Lemma convert_keeps_earlier_text_witness :
  java_converter.convert
    (java_converter.mkVisitor java_converter.Visitor_ {["r"]} None
       java_converter.NoType false true)
    (ast.ListComp None (ast.Name None "x")
       [ast.comprehension None (ast.Name None "x")
          (ast.Call None (ast.Name None "range") [ast.Num None (ast.Int 3)] [])
          []])
    "1L"
  = inr ("1L" +:+
         "LongStream.range(0, 3L).boxed().map(x -> x).collect(Collectors.toList())",
         "1L" +:+
         "LongStream.range(0, 3L).boxed().map(x -> x).collect(Collectors.toList())") /\
  ruby_converter.convert (ruby_converter.mkVisitor {["r"]})
    (ast.Compare None (ast.Num None (ast.Int 1)) [ast.Lt; ast.Lt]
       [ast.Name None "x"; ast.Num None (ast.Int 3)])
    "1"
  = inr ("1" +:+ "1 < x && x < 3", "1" +:+ "1 < x && x < 3").
Proof.
  split.
  - apply (proj1 convert_keeps_earlier_text
             (java_converter.mkVisitor java_converter.Visitor_ {["r"]} None
                java_converter.NoType false true)
             (ast.Num None (ast.Int 1))
             (ast.ListComp None (ast.Name None "x")
                [ast.comprehension None (ast.Name None "x")
                   (ast.Call None (ast.Name None "range")
                      [ast.Num None (ast.Int 3)] [])
                   []])
             "1L"
             "LongStream.range(0, 3L).boxed().map(x -> x).collect(Collectors.toList())");
      reflexivity.
  - apply (proj2 convert_keeps_earlier_text
             (ruby_converter.mkVisitor {["r"]})
             (ast.Num None (ast.Int 1))
             (ast.Compare None (ast.Num None (ast.Int 1)) [ast.Lt; ast.Lt]
                [ast.Name None "x"; ast.Num None (ast.Int 3)])
             "1" "1 < x && x < 3");
      reflexivity.
Defined.

(** ** Further rules of the emitters *)

Lemma lookup_In (table : list (string * string)) (key v : string) :
  field.lookup table key = inr v -> In (key, v) table.
Proof.
  induction table as [|[k w] table IH]; simpl; [discriminate|].
  destruct (String.eqb k key) eqn:E.
  - intros H. injection H as <-. apply String.eqb_eq in E. subst k. left.
    reflexivity.
  - intros H. right. exact (IH H).
Qed.

(** X19: a call [s.encode(charset)] on a string literal, the charset a string
    literal, is written as the literal followed by
    [.getBytes(StandardCharsets.NAME)] when the charset is ascii, utf-16 or
    utf-8, the other arguments of the call being dropped; with any other
    charset the conversion raises KeyError. *)
Theorem java_string_encode (self : java_converter.Visitor)
    (t tf ts ta : ast.tag) (s charset : string)
    (rest keywords : list ast.node) (out : string) :
  (forall name : string,
     In (charset, name) java_converter.encodings ->
     java_converter.visit self
       (ast.Call t (ast.Attribute tf (ast.Str ts s) "encode")
          (ast.Str ta charset :: rest) keywords) out
     = inr (tt, out +:+ text.java_literal s +:+ ".getBytes(StandardCharsets."
                +:+ name +:+ ")")) /\
  ((forall name : string, ~ In (charset, name) java_converter.encodings) ->
   java_converter.visit self
     (ast.Call t (ast.Attribute tf (ast.Str ts s) "encode")
        (ast.Str ta charset :: rest) keywords) out
   = inl (py.Raise py.KeyError charset)).
Proof.
  set (call := ast.Call t (ast.Attribute tf (ast.Str ts s) "encode")
                 (ast.Str ta charset :: rest) keywords).
  assert (Hcall : java_converter.visit self call out
                  = match field.lookup java_converter.encodings charset with
                    | inl e => inl e
                    | inr name =>
                        inr (tt, out +:+ text.java_literal s
                                 +:+ ".getBytes(StandardCharsets."
                                 +:+ name +:+ ")")
                    end).
  { unfold call. cbn [java_converter.visit].
    assert (Hv : java_converter.Visitor_visit_Call (java_converter.visit self)
                   self (ast.Attribute tf (ast.Str ts s) "encode")
                   (ast.Str ta charset :: rest) keywords out
                 = match field.lookup java_converter.encodings charset with
                   | inl e => inl e
                   | inr name =>
                       inr (tt, out +:+ text.java_literal s
                                +:+ ".getBytes(StandardCharsets."
                                +:+ name +:+ ")")
                   end).
    { unfold java_converter.Visitor_visit_Call.
      rewrite (bind_run _ _ out out tt) by reflexivity.
      unfold java_converter.convert_if_string_encode.
      change ("encode" =? "encode")%string with true. cbn iota.
      cbn [field.get_s field.index nth_error py.rbind py.ok].
      unfold io.bind at 1. unfold io.bind at 1. unfold io.lift at 1.
      destruct (field.lookup java_converter.encodings charset) as [e|name];
        [reflexivity|].
      unfold py.ok. cbn iota. unfold io.bind.
      cbn [java_converter.visit]. rewrite to_str_text.
      unfold io.write, io.ret, py.ok. cbn iota. rewrite !append_assoc.
      reflexivity. }
    destruct (java_converter.class_ self); [exact Hv|].
    unfold java_converter.ReQLVisitor_visit_Call, io.bind at 1.
    rewrite Hv.
    destruct (field.lookup java_converter.encodings charset) as [e|name];
      reflexivity. }
  split.
  - intros name Hin. rewrite Hcall.
    simpl in Hin.
    repeat (destruct Hin as [Hin|Hin];
            [injection Hin as <- <-; reflexivity|]).
    destruct Hin.
  - intros Hnot. rewrite Hcall.
    destruct (field.lookup java_converter.encodings charset) as [e|name] eqn:E.
    + unfold java_converter.encodings in E. simpl in E.
      repeat match type of E with
             | (if ?b then _ else _) = _ => destruct b; [discriminate E|]
             end.
      injection E as <-. reflexivity.
    + apply lookup_In in E. destruct (Hnot name E).
Qed.

Lemma java_string_encode_witness :
  java_converter.visit
    (java_converter.mkVisitor java_converter.Visitor_ {["r"]} None
       java_converter.NoType false true)
    (ast.Call None (ast.Attribute None (ast.Str None "foo") "encode")
       [ast.Str None "utf-8"] []) ""
  = inr (tt, "" +:+ text.java_literal "foo" +:+ ".getBytes(StandardCharsets."
             +:+ "UTF_8" +:+ ")") /\
  java_converter.visit
    (java_converter.mkVisitor java_converter.Visitor_ {["r"]} None
       java_converter.NoType false true)
    (ast.Call None (ast.Attribute None (ast.Str None "foo") "encode")
       [ast.Str None "latin-1"] []) ""
  = inl (py.Raise py.KeyError "latin-1").
Proof.
  split.
  - apply (proj1 (java_string_encode
             (java_converter.mkVisitor java_converter.Visitor_ {["r"]} None
                java_converter.NoType false true)
             None None None None "foo" "utf-8" [] [] "") "UTF_8").
    simpl. right. right. left. reflexivity.
  - apply (proj2 (java_string_encode
             (java_converter.mkVisitor java_converter.Visitor_ {["r"]} None
                java_converter.NoType false true)
             None None None None "foo" "latin-1" [] [] "")).
    intros name H. simpl in H.
    repeat (destruct H as [H|H]; [discriminate H|]). destruct H.
Defined.

(** X20: camel and dromedary raise IndexError on the empty identifier and
    return on every other one. *)
Theorem camel_dromedary_domain (id : string) :
  camel "" = inl (py.Raise py.IndexError "string index out of range") /\
  dromedary "" = inl (py.Raise py.IndexError "string index out of range") /\
  (id <> "" ->
   (exists s, camel id = inr s) /\ (exists s, dromedary id = inr s)).
Proof.
  split; [reflexivity|]. split; [reflexivity|].
  intros Hne. destruct id as [|c rest]; [contradiction|].
  unfold camel, dromedary.
  destruct (re.match_dollar snake_case (String c rest)).
  - split; [eexists; reflexivity|].
    rewrite (split_hd_tl "_" (String c rest)). eexists; reflexivity.
  - split; eexists; reflexivity.
Qed.

Lemma camel_dromedary_domain_witness :
  (exists s, camel "get_all" = inr s) /\ (exists s, dromedary "get_all" = inr s).
Proof.
  apply (proj2 (proj2 (camel_dromedary_domain "get_all"))). discriminate.
Defined.

Lemma framed_run {A} (m : io.M A) (a : A) (text out : string) :
  emitted.framed m -> m "" = inr (a, text) -> m out = inr (a, out +:+ text).
Proof. intros Hm H. rewrite (Hm out), H. reflexivity. Qed.

(** X21: the Ruby emitter writes a slice [v[l:u]] as [v[(l...u)]] and a slice
    with no upper bound as [v[(l..-1)]], the step being dropped; a slice
    with no lower bound raises TypeError once the value is written. *)
Theorem ruby_slice_text (self : ruby_converter.Visitor)
    (t ts : ast.tag) (value l u : ast.node) (upper step : option ast.node)
    (tv tl tu out : string) :
  ruby_converter.visit self value "" = inr (tt, tv) ->
  ruby_converter.visit self l "" = inr (tt, tl) ->
  ruby_converter.visit self u "" = inr (tt, tu) ->
  ruby_converter.visit self
    (ast.Subscript t value (ast.Slice ts (Some l) (Some u) step)) out
  = inr (tt, out +:+ tv +:+ "[(" +:+ tl +:+ "..." +:+ tu +:+ ")]") /\
  ruby_converter.visit self
    (ast.Subscript t value (ast.Slice ts (Some l) None step)) out
  = inr (tt, out +:+ tv +:+ "[(" +:+ tl +:+ "..-1)]") /\
  ruby_converter.visit self
    (ast.Subscript t value (ast.Slice ts None upper step)) out
  = inl (py.Raise py.TypeError "expected AST, got 'NoneType'").
Proof.
  intros Hv Hl Hu.
  pose proof (fun o => framed_run _ tt tv o (ruby_visit_framed value self) Hv)
    as Rv.
  pose proof (fun o => framed_run _ tt tl o (ruby_visit_framed l self) Hl)
    as Rl.
  pose proof (fun o => framed_run _ tt tu o (ruby_visit_framed u self) Hu)
    as Ru.
  split; [|split].
  - cbn [ruby_converter.visit].
    rewrite (bind_run _ _ out _ tt (Rv out)).
    rewrite (bind_run _ _ _ _ tt eq_refl).
    rewrite (bind_run _ _ _ _ tt (Rl _)).
    unfold io.bind at 1. unfold io.bind at 1. unfold io.write at 1.
    unfold py.ok. cbn iota. rewrite Ru. unfold io.write, py.ok.
    rewrite !append_assoc. reflexivity.
  - cbn [ruby_converter.visit].
    rewrite (bind_run _ _ out _ tt (Rv out)).
    rewrite (bind_run _ _ _ _ tt eq_refl).
    rewrite (bind_run _ _ _ _ tt (Rl _)).
    unfold io.bind, io.write, py.ok. rewrite !append_assoc. reflexivity.
  - cbn [ruby_converter.visit].
    rewrite (bind_run _ _ out _ tt (Rv out)).
    reflexivity.
Qed.

Lemma ruby_slice_text_witness :
  ruby_converter.visit (ruby_converter.mkVisitor {["r"]})
    (ast.Subscript None (ast.Name None "data")
       (ast.Slice None (Some (ast.Num None (ast.Int 1)))
          (Some (ast.Num None (ast.Int 3))) None)) ""
  = inr (tt, "" +:+ "data" +:+ "[(" +:+ "1" +:+ "..." +:+ "3" +:+ ")]") /\
  ruby_converter.visit (ruby_converter.mkVisitor {["r"]})
    (ast.Subscript None (ast.Name None "data")
       (ast.Slice None (Some (ast.Num None (ast.Int 1))) None None)) ""
  = inr (tt, "" +:+ "data" +:+ "[(" +:+ "1" +:+ "..-1)]") /\
  ruby_converter.visit (ruby_converter.mkVisitor {["r"]})
    (ast.Subscript None (ast.Name None "data")
       (ast.Slice None None (Some (ast.Num None (ast.Int 3))) None)) ""
  = inl (py.Raise py.TypeError "expected AST, got 'NoneType'").
Proof.
  apply (ruby_slice_text (ruby_converter.mkVisitor {["r"]}) None None
           (ast.Name None "data") (ast.Num None (ast.Int 1))
           (ast.Num None (ast.Int 3))
           (Some (ast.Num None (ast.Int 3))) None "data" "1" "3" "");
    reflexivity.
Defined.

(** ** The analysis flags every node it has a rule for *)

Lemma flagged_Forall2 (P : ast.node -> ast.node -> Prop) l l' :
  Forall2 P l l' ->
  (forall a b, In a l -> P a b -> reach.flagged b = true) ->
  forallb reach.flagged l' = true.
Proof.
  induction 1 as [|a b l l' Hab HF IH]; intros H; simpl; [reflexivity|].
  rewrite (H a b (or_introl eq_refl) Hab), IH; [reflexivity|].
  intros; eapply H; [right|]; eassumption.
Qed.

Ltac flagged_of IH x Q :=
  match goal with
  | Hx : visit _ ?c = inr x |- _ =>
      assert (Q : reach.flagged x = true)
        by (refine (IH c _ _ x _ Hx); [simpl in *; lia|assumption])
  end.

Lemma visit_flagged (n : ast.node) :
  forall self n',
    reach.covered n = true -> visit self n = inr n' ->
    reach.flagged n' = true.
Proof.
  induction n as [n IH] using size_ind.
  intros self n' Hc H.
  destruct n; cbn [visit] in H; simpl in Hc; try discriminate Hc; split_bools;
    try (injection H as <-; reflexivity).
  - (* Attribute *)
    inv_binds H. injection H as <-.
    flagged_of IH x Q. simpl. exact Q.
  - (* Call *)
    inv_binds H. injection H as <-. flagged_of IH x Q.
    assert (Qa : forallb reach.flagged x1 = true).
    { apply (flagged_Forall2 _ _ _ (mapM_inr _ _ _ Hx1)).
      intros a b Hin Hab.
      refine (IH a _ _ b _ Hab);
        [pose proof (size_in _ _ Hin); simpl; lia|].
      refine (forallb_In reach.covered _ _ _ Hin). assumption. }
    assert (Qk : forallb reach.flagged x2 = true).
    { apply (flagged_Forall2 _ _ _ (mapM_inr _ _ _ Hx2)).
      intros k k' Hin Hk.
      match goal with
      | Hq : forallb _ keywords = true |- _ =>
          pose proof (forallb_In _ _ _ Hq Hin) as Hck
      end.
      pose proof (size_in _ _ Hin) as Hsz.
      destruct k; try discriminate Hck. simpl in Hk, Hsz.
      inv_binds Hk. injection Hk as <-.
      flagged_of IH x3 Qv. simpl. exact Qv. }
    simpl. rewrite Q, Qa, Qk. reflexivity.
  - (* Subscript *)
    inv_binds H. injection H as <-. flagged_of IH x Q. flagged_of IH x1 Q'.
    simpl. rewrite Q, Q'. reflexivity.
  - (* Index *)
    inv_binds H. injection H as <-. flagged_of IH x Q. simpl. exact Q.
  - (* Slice *)
    cbv zeta in H.
    assert (Hopt : forall pp o o',
               (match o with Some x => tree.size x | None => 0 end
                < tree.size (ast.Slice is_reql lower upper step))%nat ->
               match o with Some x => reach.covered x | None => true end = true ->
               visit_opt (visit pp) o = inr o' ->
               match o' with Some x => reach.flagged x | None => true end = true).
    { intros pp [a|] o' Hsz Hca Ho; simpl in Ho.
      - inv_binds Ho. injection Ho as <-. exact (IH a Hsz pp x Hca Hx).
      - injection Ho as <-. reflexivity. }
    inv_binds H. injection H as <-. simpl.
    repeat (apply andb_true_iff; split);
      (eapply Hopt; [| |eassumption]; try assumption; simpl; lia).
  - (* Lambda *)
    destruct (passed_to_reql self); inv_binds H; injection H as <-; simpl.
    + flagged_of IH x0 Q. apply andb_true_iff; split; assumption.
    + flagged_of IH x Q. apply andb_true_iff; split; assumption.
  - (* UnaryOp *)
    inv_binds H. injection H as <-. flagged_of IH x Q. simpl. exact Q.
  - (* BinOp *)
    inv_binds H. injection H as <-. flagged_of IH x Q1. flagged_of IH x0 Q2.
    simpl. rewrite Q1, Q2. reflexivity.
  - (* Compare *)
    inv_binds H. injection H as <-. flagged_of IH x Q.
    assert (Qa : forallb reach.flagged (snd x1) = true).
    { apply (flagged_Forall2 _ _ _ (visit_comparators_inr _ _ _ _ Hx1)).
      intros a b Hin Hab.
      refine (IH a _ _ b _ Hab);
        [pose proof (size_in _ _ Hin); simpl; lia|].
      refine (forallb_In reach.covered _ _ _ Hin). assumption. }
    simpl. rewrite Q, Qa. reflexivity.
  - (* List *)
    inv_binds H. injection H as <-. simpl.
    apply (flagged_Forall2 _ _ _ (mapM_inr _ _ _ Hx)).
    intros a b Hin Hab.
    refine (IH a _ _ b _ Hab);
      [pose proof (size_in _ _ Hin); simpl; lia|].
    refine (forallb_In reach.covered _ _ _ Hin). assumption.
  - (* Tuple *)
    inv_binds H. injection H as <-. simpl.
    apply (flagged_Forall2 _ _ _ (mapM_inr _ _ _ Hx)).
    intros a b Hin Hab.
    refine (IH a _ _ b _ Hab);
      [pose proof (size_in _ _ Hin); simpl; lia|].
    refine (forallb_In reach.covered _ _ _ Hin). assumption.
  - (* Dict *)
    inv_binds H. injection H as <-. simpl.
    apply mapM_inr in Hx. eapply forallb_Forall2; [exact Hx|].
    intros kv kv' Hin Hkv. cbv beta in Hkv.
    inv_binds Hkv. injection Hkv as <-.
    pose proof (forallb_In _ _ _ Hc Hin) as Hck. simpl in Hck.
    pose proof (size_in_items _ _ Hin).
    match goal with
    | Hk : visit_key _ _ = inr _ |- _ =>
        apply visit_key_inr in Hk as (k & k' & Ek & -> & Hk)
    end.
    destruct kv as [key v]. simpl in *. subst key.
    split_bools.
    flagged_of IH k' Q1. flagged_of IH x1 Q2.
    simpl. rewrite Q1, Q2. reflexivity.
Qed.

(** X22: on a tree made of the nodes the analyzer has a rule for, the
    analysis leaves a tag on every node, the parameters of a Lambda
    apart. *)
Theorem analysis_flags_every_node (node node' : ast.node)
    (o : option (gset string)) (p : bool) :
  reach.covered node = true ->
  add_is_reql_flags node o p = inr node' ->
  reach.flagged node' = true.
Proof. intros Hc H. exact (visit_flagged node _ node' Hc H). Qed.

Lemma analysis_flags_every_node_witness :
  reach.flagged
    (ast.Call (Some true)
       (ast.Attribute (Some true) (ast.Name (Some true) "r") "map")
       [ast.Lambda (Some true) [ast.arg None "x"]
          (ast.BinOp (Some true) (ast.Name (Some true) "x") ast.Add
             (ast.Num (Some false) (ast.Int 1)))] [])
  = true.
Proof.
  apply (analysis_flags_every_node
           (ast.Call None (ast.Attribute None (ast.Name None "r") "map")
              [ast.Lambda None [ast.arg None "x"]
                 (ast.BinOp None (ast.Name None "x") ast.Add
                    (ast.Num None (ast.Int 1)))] [])
           _ None false); reflexivity.
Defined.

(** ** The Java emitter finds every tag it reads *)

Section Never.

Import missing.

Lemma never_ret {A} (a : A) : never (io.ret a).
Proof. intros out H. discriminate H. Qed.

Lemma never_write (s : string) : never (io.write s).
Proof. intros out H. discriminate H. Qed.

Lemma never_lift {A} (r : py.result A) : r <> inl tag_error -> never (io.lift r).
Proof.
  intros Hr out H. unfold io.lift in H.
  destruct r as [e|a]; [|discriminate H].
  apply Hr. injection H as ->. reflexivity.
Qed.

Lemma never_bind {A B} (m : io.M A) (f : A -> io.M B) :
  never m -> (forall a, never (f a)) -> never (io.bind m f).
Proof.
  intros Hm Hf out H. unfold io.bind in H.
  destruct (m out) as [e|[a out']] eqn:E.
  - apply (Hm out). rewrite E. injection H as ->. reflexivity.
  - exact (Hf a out' H).
Qed.

Lemma rbind_found {A B} (m : py.result A) (f : A -> py.result B) :
  m <> inl tag_error -> (forall a, f a <> inl tag_error) ->
  py.rbind m f <> inl tag_error.
Proof.
  intros Hm Hf. destruct m as [e|a]; simpl; [|apply Hf].
  intros H. apply Hm. injection H as ->. reflexivity.
Qed.

Lemma dromedary_found (a : string) :
  conversion_utils.dromedary a <> inl tag_error.
Proof.
  unfold conversion_utils.dromedary.
  destruct (re.match_dollar conversion_utils.snake_case a).
  - destruct (py.split "_" a); discriminate.
  - destruct a; discriminate.
Qed.

Lemma index_found {A} (l : list A) (i : nat) : field.index l i <> inl tag_error.
Proof. unfold field.index. destruct (nth_error l i); discriminate. Qed.

Lemma last_found {A} (l : list A) : field.last l <> inl tag_error.
Proof. unfold field.last. destruct (rev l); discriminate. Qed.

Lemma lookup_found table key : field.lookup table key <> inl tag_error.
Proof.
  induction table as [|[k v] table IH]; simpl; [discriminate|].
  destruct (String.eqb k key); [discriminate|exact IH].
Qed.

Lemma get_id_found n : ast.get_id n <> inl tag_error.
Proof. destruct n; discriminate. Qed.

Lemma get_arg_found n : ast.get_arg n <> inl tag_error.
Proof. destruct n; discriminate. Qed.

Lemma get_s_found n : field.get_s n <> inl tag_error.
Proof. destruct n; discriminate. Qed.

Lemma flagged_tag n :
  reach.flagged n = true -> exists b, ast.is_reql n = inr b.
Proof.
  intros H. unfold ast.is_reql.
  assert (Ht : reach.has_tag (ast.get_tag n) = true)
    by (destruct n; simpl in H; apply andb_true_iff in H; destruct H;
        assumption).
  destruct (ast.get_tag n) as [b|]; [exists b; reflexivity|discriminate Ht].
Qed.

Lemma is_reql_found n :
  reach.flagged n = true -> ast.is_reql n <> inl tag_error.
Proof. intros H. destruct (flagged_tag n H) as [b ->]. discriminate. Qed.

End Never.

Ltac never_monad :=
  lazymatch goal with
  | |- missing.never (io.bind _ _) => apply never_bind; [|intros ?]
  | |- missing.never (io.ret _) => apply never_ret
  | |- missing.never (io.write _) => apply never_write
  | |- missing.never (io.throw _ _) => intros ? ?; discriminate
  | |- missing.never (io.lift _) =>
      apply never_lift;
      first [ apply dromedary_found | apply index_found | apply last_found
            | apply lookup_found | apply get_id_found | apply get_arg_found
            | apply get_s_found | (apply is_reql_found; assumption)
            | discriminate ]
  | |- missing.never (match ?x with _ => _ end) => destruct x
  end.

Section NeverJava.

Import missing java_converter.

Lemma never_escape_chars (s : string) : never (escape_chars s).
Proof. induction s as [|c s IH]; simpl; repeat never_monad. exact IH. Qed.

Lemma never_to_str (s : string) : never (to_str s).
Proof.
  unfold to_str, escape_string. repeat never_monad. apply never_escape_chars.
Qed.

Lemma never_skip {A} (message : string) : never (@skip A message).
Proof. intros out H. discriminate H. Qed.

Lemma never_generic_visit {A} (node : ast.node) : never (@generic_visit A node).
Proof. intros out H. discriminate H. Qed.

Lemma never_write_bytes (bytes : list byte) (i : nat) :
  never (write_bytes i bytes).
Proof.
  revert i. induction bytes as [|b bytes IH]; intros i; simpl;
    repeat never_monad.
  apply IH.
Qed.

Lemma never_skip_if_arity_check func args :
  never (skip_if_arity_check func args).
Proof.
  unfold skip_if_arity_check.
  match goal with
  | |- never (match ?x with _ => _ end) => destruct x as [[kind msg]|[]] eqn:E
  end.
  - simpl. destruct kind; try apply never_ret.
    all: intros out H; unfold io.lift in H; injection H as H1 H2;
      discriminate H1.
  - apply never_skip.
  - apply never_ret.
Qed.

Variable visit : ast.node -> io.M unit.

Lemma never_join_from sep items : forall first,
  Forall (fun n => never (visit n)) items ->
  never (join_from visit sep first items).
Proof.
  induction items as [|item items IH]; intros first Hall; simpl.
  - apply never_ret.
  - inversion Hall; subst. repeat never_monad; [assumption|apply IH; assumption].
Qed.

Lemma never_cast_null arg cast :
  never (visit arg) -> never (cast_null visit arg cast).
Proof.
  intros Ha. unfold cast_null. apply never_bind; [|intros ?; exact Ha].
  repeat never_monad.
Qed.

Lemma never_cast_rest rest :
  Forall (fun n => never (visit n)) rest -> never (cast_rest visit rest).
Proof.
  induction 1 as [|arg rest Ha Hall IH]; simpl; [apply never_ret|].
  apply never_bind; [apply never_write|intros ?].
  apply never_bind; [apply never_cast_null; exact Ha|intros ?; exact IH].
Qed.

Lemma never_chain_optargs optargs :
  Forall (keyword_value_found visit) optargs -> never (chain_optargs visit optargs).
Proof.
  induction 1 as [|optarg optargs Ha Hall IH]; simpl; [apply never_ret|].
  apply never_bind; [apply never_write|intros ?].
  apply never_bind; [never_monad|intros ?].
  apply never_bind; [apply never_to_str|intros ?].
  apply never_bind; [apply never_write|intros ?].
  apply never_bind; [|intros ?].
  - destruct optarg; try (intros ? ?; discriminate). exact Ha.
  - apply never_bind; [apply never_write|intros ?; exact IH].
Qed.

Lemma never_to_args args optargs :
  Forall (fun n => never (visit n)) args ->
  Forall (keyword_value_found visit) optargs ->
  never (to_args visit args optargs).
Proof.
  intros Ha Ho. unfold to_args.
  apply never_bind; [apply never_write|intros ?].
  apply never_bind; [|intros ?].
  - destruct args as [|arg0 rest]; [apply never_ret|].
    inversion Ha; subst.
    apply never_bind; [apply never_cast_null; assumption|intros ?].
    apply never_cast_rest. assumption.
  - apply never_bind; [apply never_write|intros ?].
    apply never_chain_optargs. exact Ho.
Qed.

Lemma never_with_pairs rest :
  Forall (fun kv => never (visit_key visit (fst kv)) /\ never (visit (snd kv)))
         rest ->
  never (with_pairs visit rest).
Proof.
  induction 1 as [|kv rest [Hk Hv] Hall IH]; simpl; [apply never_ret|].
  apply never_bind; [apply never_write|intros ?].
  apply never_bind; [exact Hk|intros ?].
  apply never_bind; [apply never_write|intros ?].
  apply never_bind; [exact Hv|intros ?; exact IH].
Qed.

Lemma never_convert_if_string_encode func args :
  attribute_value_found visit func ->
  never (convert_if_string_encode visit func args).
Proof.
  intros Hf. unfold convert_if_string_encode.
  destruct func; try apply never_ret.
  match goal with |- never (match ?x with _ => _ end) => destruct x as [e|enc] end;
    [apply never_ret|].
  apply never_bind; [|intros ?].
  - apply never_lift. destruct enc; [apply lookup_found|discriminate].
  - apply never_bind; [exact Hf|intros ?]. repeat never_monad.
Qed.

Lemma never_Visitor_visit_Attribute value attr emit_parens :
  never (visit value) ->
  never (Visitor_visit_Attribute visit value attr emit_parens).
Proof.
  intros Hv. unfold Visitor_visit_Attribute.
  apply never_bind; [|intros ?; repeat never_monad].
  destruct (ast.is_name "r" value && (attr =? "ast")%string); [apply never_ret|].
  apply never_bind; [exact Hv|intros ?; apply never_write].
Qed.

Lemma never_ReQLVisitor_visit_Attribute value attr emit_parens :
  never (visit value) ->
  never (ReQLVisitor_visit_Attribute visit value attr emit_parens).
Proof.
  intros Hv. unfold ReQLVisitor_visit_Attribute.
  apply never_bind; [|intros ?].
  { repeat never_monad. apply never_skip. }
  apply never_bind; [|intros ?].
  { apply never_lift. vm_compute. discriminate. }
  apply never_bind; [exact Hv|intros ?].
  repeat never_monad.
Qed.

Lemma never_visit_Attribute self value attr emit_parens :
  never (visit value) ->
  never (visit_Attribute visit self value attr emit_parens).
Proof.
  intros Hv. unfold visit_Attribute. destruct (class_ self).
  - apply never_Visitor_visit_Attribute; exact Hv.
  - apply never_ReQLVisitor_visit_Attribute; exact Hv.
Qed.

Lemma never_Visitor_visit_Call self func args keywords :
  never (visit func) -> attribute_value_found visit func ->
  Forall (fun n => never (visit n)) args ->
  Forall (keyword_value_found visit) keywords ->
  never (Visitor_visit_Call visit self func args keywords).
Proof.
  intros Hf Hv Ha Hk. unfold Visitor_visit_Call.
  apply never_bind; [apply never_skip_if_arity_check|intros ?].
  apply never_bind; [apply never_convert_if_string_encode; exact Hv
                    |intros converted].
  destruct converted; [apply never_ret|].
  apply never_bind; [|intros ?; apply never_to_args; assumption].
  destruct func; try exact Hf.
  match goal with |- never (if ?x then _ else _) => destruct x end.
  - apply never_visit_Attribute. exact Hv.
  - exact Hf.
Qed.

Lemma check_found a : check a <> inl tag_error.
Proof.
  destruct a; try discriminate. simpl.
  match goal with
  | |- attr_matches _ _ ?f <> _ => destruct f; simpl; try discriminate
  end.
  all: match goal with
       | |- (if ?b then _ else _) <> _ => destruct b; discriminate
       end.
Qed.

Lemma never_ReQLVisitor_visit_Call self func args keywords :
  never (visit func) -> attribute_value_found visit func ->
  Forall (fun n => never (visit n)) args ->
  Forall (keyword_value_found visit) keywords ->
  never (ReQLVisitor_visit_Call visit self func args keywords).
Proof.
  intros Hf Hv Ha Hk. unfold ReQLVisitor_visit_Call.
  apply never_bind; [apply never_Visitor_visit_Call; assumption|intros ?].
  apply never_bind; [repeat never_monad|intros for_each].
  destruct for_each; [apply never_skip|].
  match goal with |- never (if ?x then _ else _) => destruct x end;
    [|apply never_ret].
  apply never_bind; [never_monad|intros ?].
  apply never_bind; [apply never_lift; apply check_found|intros ok_].
  destruct ok_; [apply never_ret|apply never_skip].
Qed.

Lemma never_Visitor_visit_Subscript value slice :
  never (visit value) -> never (Visitor_visit_Subscript visit value slice).
Proof.
  intros Hv. unfold Visitor_visit_Subscript.
  apply never_bind; [apply never_lift; destruct slice; discriminate|intros v].
  destruct v as [n|c]; [|intros ? ?; discriminate].
  destruct n; repeat never_monad; exact Hv.
Qed.

Lemma get_bound_found bound default : get_bound bound default <> inl tag_error.
Proof.
  destruct bound as [b|]; [|discriminate].
  destruct b; try discriminate. simpl.
  match goal with
  | |- context [match ?o with ast.USub => _ | _ => _ end] =>
      destruct o; try discriminate
  end.
  match goal with
  | |- context [ast.get_n ?x] => destruct x; discriminate
  end.
Qed.

Lemma get_slice_bounds_found lower upper :
  get_slice_bounds lower upper <> inl tag_error.
Proof.
  unfold get_slice_bounds.
  apply rbind_found; [apply get_bound_found|intros l].
  apply rbind_found; [apply get_bound_found|intros u].
  discriminate.
Qed.

Lemma never_ReQLVisitor_visit_Subscript self value slice :
  never (visit value) -> index_value_found visit slice ->
  never (ReQLVisitor_visit_Subscript visit self value slice).
Proof.
  intros Hv Hs. unfold ReQLVisitor_visit_Subscript.
  apply never_bind; [exact Hv|intros ?].
  destruct slice; try (intros ? ?; discriminate).
  - apply never_bind; [repeat never_monad|intros ?].
    apply never_bind; [exact Hs|intros ?; apply never_write].
  - apply never_bind; [apply never_write|intros ?].
    apply never_bind; [apply never_lift; apply get_slice_bounds_found
                      |intros bounds].
    destruct bounds as [[lower_ upper_] rclosed]. repeat never_monad.
Qed.

Lemma never_Visitor_visit_UnaryOp op operand :
  never (visit operand) -> never (Visitor_visit_UnaryOp visit op operand).
Proof.
  intros Hv. unfold Visitor_visit_UnaryOp.
  apply never_bind; [apply never_write|intros ?; exact Hv].
Qed.

Lemma never_ReQLVisitor_visit_UnaryOp op operand :
  never (visit operand) -> never (ReQLVisitor_visit_UnaryOp visit op operand).
Proof.
  intros Hv. unfold ReQLVisitor_visit_UnaryOp.
  destruct op; try (apply never_Visitor_visit_UnaryOp; exact Hv).
  apply never_bind; [exact Hv|intros ?; apply never_write].
Qed.

End NeverJava.

Section NeverLists.

Import missing.

Variable visit : ast.node -> io.M unit.
Variable k : nat.
Hypothesis Hb : forall c, (tree.size c < k)%nat -> reach.flagged c = true ->
                          never (visit c).

Lemma never_flagged_list items :
  (list_sum (map tree.size items) < k)%nat ->
  forallb reach.flagged items = true ->
  Forall (fun n => never (visit n)) items.
Proof.
  induction items as [|item items IH]; intros Hsz Hf; constructor;
    simpl in Hsz, Hf; apply andb_true_iff in Hf; destruct Hf as [H1 H2].
  - apply Hb; [lia|exact H1].
  - apply IH; [lia|exact H2].
Qed.

Lemma never_flagged_keywords items :
  (list_sum (map tree.size items) < k)%nat ->
  forallb reach.flagged items = true ->
  Forall (keyword_value_found visit) items.
Proof.
  induction items as [|item items IH]; intros Hsz Hf; constructor;
    simpl in Hsz, Hf; apply andb_true_iff in Hf; destruct Hf as [H1 H2].
  - destruct item; try exact I. simpl in H1 |- *.
    apply andb_true_iff in H1. destruct H1 as [_ H1].
    apply Hb; [simpl in Hsz; lia|exact H1].
  - apply IH; [lia|exact H2].
Qed.

Lemma never_flagged_pairs items :
  (list_sum (map (fun kv => match fst kv with
                            | Some x => tree.size x
                            | None => 0
                            end + tree.size (snd kv)) items)
   < k)%nat ->
  forallb (fun kv => match fst kv with
                     | Some x => reach.flagged x
                     | None => true
                     end && reach.flagged (snd kv)) items
  = true ->
  Forall (fun kv => never (java_converter.visit_key visit (fst kv)) /\
                    never (visit (snd kv))) items.
Proof.
  induction items as [|item items IH]; intros Hsz Hf; constructor;
    simpl in Hsz, Hf; apply andb_true_iff in Hf; destruct Hf as [H1 H2].
  - apply andb_true_iff in H1. destruct H1 as [Hk Hv].
    split; [|apply Hb; [lia|exact Hv]].
    destruct item as [[x|] v]; simpl in *.
    + apply Hb; [lia|exact Hk].
    + intros ? ?; discriminate.
  - apply IH; [lia|exact H2].
Qed.

Lemma never_attribute_value func :
  (tree.size func < k)%nat -> reach.flagged func = true ->
  attribute_value_found visit func.
Proof.
  intros Hsz Hf. destruct func; try exact I. simpl in Hf |- *.
  apply andb_true_iff in Hf. destruct Hf as [_ Hf].
  apply Hb; [simpl in Hsz; lia|exact Hf].
Qed.

Lemma never_index_value slice :
  (tree.size slice < k)%nat -> reach.flagged slice = true ->
  index_value_found visit slice.
Proof.
  intros Hsz Hf. destruct slice; try exact I. simpl in Hf |- *.
  apply andb_true_iff in Hf. destruct Hf as [_ Hf].
  apply Hb; [simpl in Hsz; lia|exact Hf].
Qed.

End NeverLists.

Lemma never_params (self : java_converter.Visitor) (args : list ast.node) :
  forallb tree.is_arg args = true ->
  Forall (fun n => missing.never (java_converter.visit self n)) args.
Proof.
  induction args as [|a args IH]; intros H; constructor;
    simpl in H; apply andb_true_iff in H; destruct H as [H1 H2].
  - destruct a; try discriminate H1. apply never_write.
  - exact (IH H2).
Qed.

Lemma java_visit_never (n : ast.node) :
  forall self, reach.flagged n = true ->
               missing.never (java_converter.visit self n).
Proof.
  induction n as [n IH] using size_ind.
  intros self Hf.
  assert (IHs : forall s c, (tree.size c < tree.size n)%nat ->
                  reach.flagged c = true ->
                  missing.never (java_converter.visit s c))
    by (intros s c Hsz Hc; exact (IH c Hsz s Hc)).
  clear IH.
  pose proof (is_reql_found n Hf) as Htag.
  destruct n; cbn [java_converter.visit]; simpl in Hf; split_bools.
  all: try solve [repeat never_monad; try apply never_skip;
                  try apply never_to_str; try apply never_write_bytes;
                  try apply never_generic_visit;
                  try (apply IHs; [simpl; lia|assumption])].
  - (* Attribute *)
    apply never_visit_Attribute. apply IHs; [simpl; lia|assumption].
  - (* Call *)
    match goal with
    | |- context [java_converter.Visitor_visit_Call _ _ ?f ?a ?k] =>
        assert (Hfn : missing.never (java_converter.visit self f))
          by (apply IHs; [simpl; lia|assumption]);
        assert (Hv : missing.attribute_value_found
                       (java_converter.visit self) f)
          by (apply (never_attribute_value _ _ (IHs self));
              [simpl; lia|assumption]);
        assert (Ha : Forall (fun n => missing.never
                                        (java_converter.visit self n)) a)
          by (apply (never_flagged_list _ _ (IHs self));
              [simpl; lia|assumption]);
        assert (Hk : Forall (missing.keyword_value_found
                               (java_converter.visit self)) k)
          by (apply (never_flagged_keywords _ _ (IHs self));
              [simpl; lia|assumption])
    end.
    destruct (java_converter.class_ self).
    + apply never_Visitor_visit_Call; assumption.
    + apply never_ReQLVisitor_visit_Call; assumption.
  - (* Subscript *)
    match goal with
    | |- context [java_converter.Visitor_visit_Subscript _ ?v ?s] =>
        assert (Hv : missing.never (java_converter.visit self v))
          by (apply IHs; [simpl; lia|assumption]);
        assert (Hs : missing.index_value_found (java_converter.visit self) s)
          by (apply (never_index_value _ _ (IHs self));
              [simpl; lia|assumption])
    end.
    destruct (java_converter.class_ self).
    + apply never_Visitor_visit_Subscript; assumption.
    + apply never_ReQLVisitor_visit_Subscript; assumption.
  - (* Lambda *)
    match goal with
    | Hp : forallb tree.is_arg args = true |- _ =>
        pose proof (never_params self args Hp) as Hargs
    end.
    apply never_bind; [|intros ?].
    + destruct args as [|a [|b rest]].
      * apply never_to_args; [exact Hargs|constructor].
      * inversion Hargs; assumption.
      * apply never_to_args; [exact Hargs|constructor].
    + apply never_bind; [apply never_write|intros ?].
      apply IHs; [simpl; lia|assumption].
  - (* UnaryOp *)
    match goal with
    | |- context [java_converter.Visitor_visit_UnaryOp _ _ ?x] =>
        assert (Hv : missing.never (java_converter.visit self x))
          by (apply IHs; [simpl; lia|assumption])
    end.
    destruct (java_converter.class_ self).
    + apply never_Visitor_visit_UnaryOp; assumption.
    + apply never_ReQLVisitor_visit_UnaryOp; assumption.
  - (* BinOp *)
    apply never_bind; [apply never_lift; exact Htag|intros r].
    destruct r; repeat never_monad;
      try (apply IHs; [simpl; lia|assumption]);
      destruct op; discriminate.
  - (* Compare *)
    destruct comparators as [|right_ [|c cs]]; [| |intros ? ?; discriminate].
    + repeat never_monad.
    + simpl in *. split_bools.
      apply never_bind; [never_monad|intros op_type].
      apply never_bind; [never_monad|intros l].
      apply never_bind; [destruct l; never_monad|intros r].
      destruct r.
      * apply never_bind; [apply never_lift; destruct op_type; discriminate
                          |intros name].
        repeat never_monad; (apply IHs; [simpl; lia|assumption]).
      * apply never_bind; [apply never_lift; destruct op_type; discriminate
                          |intros sym].
        repeat never_monad; (apply IHs; [simpl; lia|assumption]).
  - (* List *)
    apply never_bind; [apply never_write|intros ?].
    apply never_bind; [|intros ?; apply never_write].
    apply never_join_from.
    apply (never_flagged_list _ _ (IHs self)); [simpl; lia|assumption].
  - (* Tuple *)
    apply never_bind; [apply never_write|intros ?].
    apply never_bind; [|intros ?; apply never_write].
    apply never_join_from.
    apply (never_flagged_list _ _ (IHs self)); [simpl; lia|assumption].
  - (* Dict *)
    apply never_bind; [apply never_write|intros ?].
    apply never_bind; [|intros ?; apply never_write].
    match goal with
    | Hi : forallb _ items = true |- _ =>
        pose proof (never_flagged_pairs _ _ (IHs self) items
                      ltac:(simpl; lia) Hi) as Hitems
    end.
    destruct items as [|kv rest]; [apply never_ret|].
    inversion Hitems as [|? ? [Hk Hv] Hrest]; subst.
    repeat never_monad; try assumption.
    apply never_with_pairs. assumption.
  - (* ListComp *)
    destruct generators as [|g gens]; [intros ? ?; discriminate|].
    destruct g; try (intros ? ?; discriminate).
    match goal with
    | |- missing.never (match ?iter with _ => _ end) =>
        destruct iter; try (intros ? ?; discriminate)
    end.
    simpl in * |-. split_bools.
    apply never_bind; [never_monad|intros id].
    destruct (py.endswith "range" id); [|intros ? ?; discriminate].
    apply never_bind; [apply never_write|intros ?].
    apply never_bind; [|intros ?].
    + match goal with
      | |- missing.never (match ?l with _ => _ end) =>
          destruct l as [|x1 [|x2 [|x3 xs]]]
      end; simpl in * |-; split_bools; repeat never_monad;
        (apply IHs; [simpl; lia|assumption]).
    + repeat never_monad; (apply IHs; [simpl; lia|assumption]).
  - (* Assign *)
    apply never_bind; [repeat never_monad|intros ty].
    apply never_bind; [apply never_write|intros ?].
    apply never_bind; [never_monad|intros target].
    apply never_bind; [never_monad|intros id].
    do 4 (apply never_bind; [apply never_write|intros ?]).
    apply never_bind; [apply never_lift; exact Htag|intros r].
    apply never_bind; [|intros ?; apply never_write].
    destruct r; [|apply IHs; [simpl; lia|assumption]].
    apply never_bind; [apply never_lift; discriminate|intros v].
    apply IHs; [simpl; lia|assumption].
Qed.

Lemma lacks_tag_inv {A} (r : py.result A) :
  missing.lacks_tag r = true -> r = inl missing.tag_error.
Proof.
  destruct r as [[kind msg]|a]; simpl; [|discriminate].
  intros H. apply andb_true_iff in H. destruct H as [Hk Hm].
  apply String.eqb_eq in Hm. subst msg.
  destruct kind; try discriminate Hk. reflexivity.
Qed.

(** X23: the Java emitter never fails for want of a tag on the tree the
    analysis returns for a tree made of the nodes the analyzer has a rule
    for: every tag it reads is there. *)
Theorem java_finds_every_tag (self : java_converter.Visitor)
    (node node' : ast.node) (o : option (gset string)) (p : bool)
    (out : string) :
  reach.covered node = true ->
  add_is_reql_flags node o p = inr node' ->
  missing.lacks_tag (java_converter.visit self node' out) = false.
Proof.
  intros Hc H.
  destruct (missing.lacks_tag (java_converter.visit self node' out)) eqn:E;
    [|reflexivity].
  apply lacks_tag_inv in E.
  destruct (java_visit_never node' self (visit_flagged node _ node' Hc H) out E).
Qed.

Lemma java_finds_every_tag_witness :
  missing.lacks_tag
    (java_converter.visit
       (java_converter.mkVisitor java_converter.Visitor_ {["r"]} None
          java_converter.NoType false true)
       (ast.BinOp (Some true)
          (ast.Attribute (Some true) (ast.Name (Some true) "r") "x") ast.Add
          (ast.Num (Some false) (ast.Int 1))) "")
  = false.
Proof.
  apply (java_finds_every_tag
           (java_converter.mkVisitor java_converter.Visitor_ {["r"]} None
              java_converter.NoType false true)
           (ast.BinOp None (ast.Attribute None (ast.Name None "r") "x") ast.Add
              (ast.Num None (ast.Int 1)))
           _ None false ""); reflexivity.
Defined.

Lemma bind_fails {A B} (m : io.M A) (f : A -> io.M B) (out : string) :
  (forall a out', exists e, f a out' = inl e) ->
  exists e, io.bind m f out = inl e.
Proof.
  intros Hf. unfold io.bind.
  destruct (m out) as [e|[a out']]; [exists e; reflexivity|apply Hf].
Qed.

(** X24: the analysis does not go below a list comprehension, so the element
    of one keeps no tag; when the element is a binary operation the Java
    emitter, which reads the tag of one, fails whatever the generators
    are. *)
Theorem java_list_comprehension_arithmetic_fails
    (self : java_converter.Visitor) (o : option (gset string)) (p : bool)
    (t : ast.tag) (left_ right_ : ast.node) (op : ast.operator)
    (generators : list ast.node) (out : string) :
  add_is_reql_flags
    (ast.ListComp t (ast.BinOp None left_ op right_) generators) o p
  = inr (ast.ListComp (Some false) (ast.BinOp None left_ op right_)
           generators) /\
  exists e,
    java_converter.visit self
      (ast.ListComp (Some false) (ast.BinOp None left_ op right_) generators)
      out
    = inl e.
Proof.
  split; [reflexivity|].
  cbn [java_converter.visit].
  destruct generators as [|g gens]; [eexists; reflexivity|].
  destruct g; try (eexists; reflexivity).
  match goal with
  | |- exists e, (match ?iter with _ => _ end) out = inl e =>
      destruct iter; try (eexists; reflexivity)
  end.
  apply bind_fails. intros id out1.
  destruct (py.endswith "range" id); [|eexists; reflexivity].
  do 6 (apply bind_fails; intros ? ?).
  eexists. reflexivity.
Qed.

(** ** Calls and comparisons in the Ruby emitter *)

Lemma last_snoc {A} (l : list A) (x : A) : field.last (l ++ [x])%list = inr x.
Proof. unfold field.last. rewrite rev_app_distr. reflexivity. Qed.

Section RubySnoc.

Import ruby_converter.

Variable visit : ast.node -> io.M unit.

Lemma join_init_from_snoc sep (args : list ast.node) (x : ast.node) :
  forall first out,
    join_init_from visit sep first (args ++ [x])%list out
    = join_from visit sep first args out.
Proof.
  induction args as [|a rest IH]; intros first out; [reflexivity|].
  change ((a :: rest) ++ [x])%list with (a :: (rest ++ [x])%list).
  assert (E : join_init_from visit sep first (a :: (rest ++ [x])%list) out
              = ((if first then io.ret tt else io.write sep) ;;
                 visit a ;;
                 join_init_from visit sep false (rest ++ [x])%list)%emit out)
    by (destruct rest; reflexivity).
  rewrite E. simpl join_from.
  apply bind_ext; [reflexivity|intros _].
  apply bind_ext; [reflexivity|intros _].
  apply IH.
Qed.

Lemma visit_last_snoc (args : list ast.node) (x : ast.node) :
  visit_last visit (args ++ [x])%list = visit x.
Proof.
  induction args as [|a rest IH]; [reflexivity|].
  change ((a :: rest) ++ [x])%list with (a :: (rest ++ [x])%list).
  rewrite <- IH. destruct rest; reflexivity.
Qed.

Lemma to_args_init_snoc (args optargs : list ast.node) (x : ast.node) :
  forall out,
    to_args_init visit (args ++ [x])%list optargs out
    = to_args visit args optargs out.
Proof.
  unfold to_args_init, to_args. rewrite removelast_last.
  assert (H : forall out,
            (io.write "(" ;;
             first <- join_init_from visit ", " true (args ++ [x])%list ;;
             join_from visit ", " first optargs ;;
             io.write ")")%emit out
            = (io.write "(" ;;
               first <- join_from visit ", " true args ;;
               join_from visit ", " first optargs ;;
               io.write ")")%emit out).
  { apply bind_ext; [reflexivity|intros _].
    apply bind_ext; [apply join_init_from_snoc|reflexivity]. }
  destruct args, optargs; try exact H. reflexivity.
Qed.

End RubySnoc.

(** X25: the Ruby emitter writes a call whose last positional argument is a
    lambda as the callee, then the other arguments and the keywords as for
    a call without the lambda (nothing at all when there are none), then
    the lambda as a block. *)
Theorem ruby_trailing_lambda_is_block (self : ruby_converter.Visitor)
    (t tn tl : ast.tag) (name : string) (args params keywords : list ast.node)
    (body : ast.node) (out : string) :
  ruby_converter.visit self
    (ast.Call t (ast.Name tn name) (args ++ [ast.Lambda tl params body])%list
       keywords) out
  = (ruby_converter.visit self (ast.Name tn name) ;;
     ruby_converter.to_args (ruby_converter.visit self) args keywords ;;
     io.write "{|" ;;
     ruby_converter.join (ruby_converter.visit self) ", " params ;;
     io.write "| " ;;
     ruby_converter.visit self body ;;
     io.write "}")%emit out /\
  ruby_converter.to_args (ruby_converter.visit self) [] [] out = inr (tt, out).
Proof.
  split; [|reflexivity].
  cbn [ruby_converter.visit]. rewrite last_snoc.
  apply bind_ext; [reflexivity|intros _].
  apply bind_ext; [apply to_args_init_snoc|intros _].
  rewrite visit_last_snoc. reflexivity.
Qed.

(** X26: the Ruby emitter writes a chained comparison [a op1 b op2 c] as the
    conjunction of the two comparisons, the middle operand written twice;
    the Java emitter rejects it. *)
Theorem ruby_chained_comparison (self : ruby_converter.Visitor)
    (jself : java_converter.Visitor) (t : ast.tag) (a b c : ast.node)
    (op1 op2 : ast.cmpop) (s1 s2 ta tb tc out : string) :
  ruby_converter.visit self a "" = inr (tt, ta) ->
  ruby_converter.visit self b "" = inr (tt, tb) ->
  ruby_converter.visit self c "" = inr (tt, tc) ->
  ruby_converter.cmp_map op1 = inr s1 ->
  ruby_converter.cmp_map op2 = inr s2 ->
  ruby_converter.visit self (ast.Compare t a [op1; op2] [b; c]) out
  = inr (tt, out +:+ ta +:+ s1 +:+ tb +:+ " && " +:+ tb +:+ s2 +:+ tc) /\
  java_converter.visit jself (ast.Compare t a [op1; op2] [b; c]) out
  = inl (py.Raise py.RuntimeError "Chained comparison not supported").
Proof.
  intros Ha Hb Hc H1 H2. split; [|reflexivity].
  pose proof (fun o => framed_run _ tt ta o (ruby_visit_framed a self) Ha) as Ra.
  pose proof (fun o => framed_run _ tt tb o (ruby_visit_framed b self) Hb) as Rb.
  pose proof (fun o => framed_run _ tt tc o (ruby_visit_framed c self) Hc) as Rc.
  cbn [ruby_converter.visit ruby_converter.compare_chain].
  rewrite H1, H2.
  unfold io.bind, io.ret, io.write, io.lift, py.ok.
  rewrite Ra, Rb, Rb, Rc. rewrite !append_assoc. reflexivity.
Qed.

Lemma ruby_chained_comparison_witness :
  ruby_converter.visit (ruby_converter.mkVisitor {["r"]})
    (ast.Compare None (ast.Num None (ast.Int 1)) [ast.Lt; ast.LtE]
       [ast.Name None "x"; ast.Num None (ast.Int 3)]) ""
  = inr (tt, "" +:+ "1" +:+ " < " +:+ "x" +:+ " && " +:+ "x" +:+ " <= "
             +:+ "3") /\
  java_converter.visit
    (java_converter.mkVisitor java_converter.Visitor_ {["r"]} None
       java_converter.NoType false true)
    (ast.Compare None (ast.Num None (ast.Int 1)) [ast.Lt; ast.LtE]
       [ast.Name None "x"; ast.Num None (ast.Int 3)]) ""
  = inl (py.Raise py.RuntimeError "Chained comparison not supported").
Proof.
  apply (ruby_chained_comparison (ruby_converter.mkVisitor {["r"]})
           (java_converter.mkVisitor java_converter.Visitor_ {["r"]} None
              java_converter.NoType false true)
           None (ast.Num None (ast.Int 1)) (ast.Name None "x")
           (ast.Num None (ast.Int 3)) ast.Lt ast.LtE " < " " <= "
           "1" "x" "3" ""); reflexivity.
Defined.
